(** * hanabi-live: the end of a game and its conversion to a shared replay

    A shallow embedding of [src/game_end.go]: [Game.End], [Game.WriteDatabase]
    and [Table.ConvertToSharedReplay].

    - Go [int], [time.Duration]: [Z], with 64-bit wrap-around written out
      where the code does arithmetic ([wrap64]).
    - Go pointers that may be nil ([*Session]): [option].
    - Slices: [list]; an index expression [l[i]] panics out of range
      ([index], [Panic]).
    - The table [t] and its game [g] point at each other ([g.Table],
      [t.Game]); here the game is a field of the table.
    - Everything the code calls but does not define in this file (session
      methods, the notify helpers, the [models] gateway) is recorded, in
      order, in a trace of events; what the gateway answers is a parameter
      ([Models]).
    - [logger] calls only write to the server log and are left out. *)

From Stdlib Require Import ZArith String Ascii DecimalString Lia.
From stdpp Require Import base list gmap strings.

Open Scope Z_scope.

(** ** Integers *)

Definition min_int64 : Z := - 2 ^ 63.
Definition max_int64 : Z := 2 ^ 63 - 1.

(** The value a 64-bit signed Go integer holds after an operation whose
    mathematical result is [z]. *)
Definition wrap64 (z : Z) : Z := (z + 2 ^ 63) mod 2 ^ 64 - 2 ^ 63.

Definition in_int64 (z : Z) : Prop := min_int64 <= z <= max_int64.

(** [strconv.Itoa] *)
Definition Itoa (z : Z) : string := NilZero.string_of_int (Z.to_int z).

(** [l[i]] for a Go int [i]: [None] stands for the run-time panic. *)
Definition index {A : Type} (l : list A) (i : Z) : option A :=
  if i <? 0 then None else l !! Z.to_nat i.

(** [len(l)] *)
Definition len {A : Type} (l : list A) : Z := Z.of_nat (length l).

(** ** Data *)

Definition error : Type := string.

(** The result of a call that returns [(v, err)]. *)
Inductive GoResult (A : Type) : Type :=
| Val (v : A)
| Err (e : error).
Arguments Val {A} v.
Arguments Err {A} e.

(** [*Session]: the websocket session of a user. [IsClosed] is the answer of
    the method of that name. *)
Record Session : Type := {
  s_ID : Z;
  s_IsClosed : bool;
}.

Record Card : Type := {
  c_Suit : Z;
  c_Rank : Z;
  c_Order : Z;
}.

Record SimpleCard : Type := {
  sc_Suit : Z;
  sc_Rank : Z;
}.

(** The elements of [g.Actions]. *)
Inductive Action : Type :=
| ActionDeckOrder (Type_ : string) (Deck : list SimpleCard)
| ActionText (Type_ : string) (Text : string).

(** The elements of [g.Actions2], the actions as the database stores them. *)
Record GameAction : Type := {
  ga_Type : Z;
  ga_Target : Z;
  ga_Value : Z;
}.

Record Options : Type := {
  o_Variant : string;
  o_Timed : bool;
  o_TimeBase : Z;
  o_TimePerTurn : Z;
  o_Speedrun : bool;
  o_CardCycle : bool;
  o_DeckPlays : bool;
  o_EmptyClues : bool;
  o_CharacterAssignments : bool;
  o_Replay : bool;
}.

(** The elements of [t.Players]. *)
Record Player : Type := {
  p_ID : Z;
  p_Name : string;
  p_Present : bool;
  p_Session : option Session;
}.

(** The elements of [g.Players]. *)
Record GamePlayer : Type := {
  gp_Name : string;
  gp_Index : Z;
  gp_Time : Z;
  gp_Hand : list Card;
  gp_Notes : list string;
  gp_Character : string;
  gp_CharacterMetadata : Z;
}.

Record Spectator : Type := {
  sp_ID : Z;
  sp_Name : string;
  sp_Session : option Session;
  sp_Notes : list string;
}.

Record ChatMessage : Type := {
  cm_UserID : Z;
  cm_Msg : string;
}.

Record Game : Type := {
  g_ID : Z;
  g_Options : Options;
  g_Players : list GamePlayer;
  g_Seed : string;
  g_Deck : list Card;
  g_Score : Z;
  g_Turn : Z;
  g_EndTurn : Z;
  g_DatetimeStarted : Z;
  g_DatetimeFinished : Z;
  g_EndCondition : Z;
  g_EndPlayer : Z;
  g_Actions : list Action;
  g_Actions2 : list GameAction;
  (** [g.Tags] is a Go map; the list gives its keys in the order in which
      the [range] loop of [WriteDatabase] visits them. *)
  g_Tags : list string;
}.

Record Table : Type := {
  t_ID : Z;
  t_Name : string;
  t_Owner : Z;
  t_Options : Options;
  t_Players : list Player;
  t_Spectators : list Spectator;
  t_Replay : bool;
  t_Progress : Z;
  t_Chat : list ChatMessage;
  t_Game : Game;
}.

(** *** Rows of the database and messages to the clients *)

Record GameRow : Type := {
  gr_Name : string;
  gr_NumPlayers : Z;
  gr_Variant : Z;
  gr_Timed : bool;
  gr_TimeBase : Z;
  gr_TimePerTurn : Z;
  gr_Speedrun : bool;
  gr_CardCycle : bool;
  gr_DeckPlays : bool;
  gr_EmptyClues : bool;
  gr_CharacterAssignments : bool;
  gr_Seed : string;
  gr_Score : Z;
  gr_NumTurns : Z;
  gr_EndCondition : Z;
  gr_DatetimeStarted : Z;
  gr_DatetimeFinished : Z;
}.

Record BestScore : Type := {
  bs_Score : Z;
  bs_Modifier : Z;
}.

(** Modelled from the spec: the declarations of [UserStatsRow],
    [VariantStatsRow] and [BestScore] are not in [game_end.go]. The rows are
    "best-score tables indexed by player-count bucket"; [BestScores] holds
    references, so that the assignments [WriteDatabase] makes through
    [bestScore] reach the row it then hands to [Update]. *)
Record UserStatsRow : Type := {
  us_BestScores : list BestScore;
}.

Record VariantStatsRow : Type := {
  vs_BestScores : list BestScore;
}.

Record GameHistory : Type := {
  gh_ID : Z;
  gh_NumPlayers : Z;
  gh_Variant : string;
  gh_Timed : bool;
  gh_TimeBase : Z;
  gh_TimePerTurn : Z;
  gh_Speedrun : bool;
  gh_CardCycle : bool;
  gh_DeckPlays : bool;
  gh_EmptyClues : bool;
  gh_CharacterAssignments : bool;
  gh_Seed : string;
  gh_Score : Z;
  gh_NumTurns : Z;
  gh_EndCondition : Z;
  gh_DatetimeStarted : Z;
  gh_DatetimeFinished : Z;
  gh_NumSimilar : Z;
  gh_PlayerNames : string;
  gh_IncrementNumGames : bool;
}.

(** The payload of [Session.Emit]. *)
Inductive Message : Type :=
| RevealMessage (Suit Rank Order : Z)
| GameHistoryList (l : list GameHistory)
| IDMessage (TableID ID : Z).

(** The calls to the [models] gateway. *)
Inductive DbCall : Type :=
| Games_Insert (row : GameRow)
| GameParticipants_Insert (gameID userID seat characterID characterMetadata : Z)
| GameParticipantNotes_Insert (userID gameID order : Z) (note : string)
| GameActions_Insert (gameID turn : Z) (action : GameAction)
| ChatLog_Insert (userID : Z) (msg room : string)
| GameTags_Insert (gameID : Z) (tag : string)
| UserStats_Get (userID variant : Z)
| UserStats_Update (userID variant : Z) (stats : UserStatsRow)
| VariantStats_Get (variant : Z)
| VariantStats_Update (variant maxScore : Z) (stats : VariantStatsRow)
| Games_GetNumSimilar (seed : string).

(** What the code does to the outside, in the order in which it does it. A
    method called on a session carries its receiver: [None] is a call on a
    nil [*Session] (what the method then does is decided in its body, which
    is not in this file). *)
Inductive Event : Type :=
| NotifyGameAction
| NotifyTurn
| NotifyGameOver
| NotifyConnected
| NotifySpectators
| notifyAllTableGone
| notifyAllTable
| notifyAllUser (s : Session)
| Session_Set (s : Session) (key : string) (value : Z)
| Session_Emit (s : option Session) (command : string) (d : Message)
| Session_NotifyReplayLeader (s : option Session) (t_ID : Z) (b : bool)
| Session_NotifyNoteList (s : option Session) (t_ID : Z)
| Db (c : DbCall).

(** The answers of the gateway, each as a function of everything that
    happened before the call. *)
Record Models : Type := {
  m_Games_Insert : list Event -> GameRow -> GoResult Z;
  m_GameParticipants_Insert : list Event -> Z -> Z -> Z -> Z -> Z -> option error;
  m_GameParticipantNotes_Insert : list Event -> Z -> Z -> Z -> string -> option error;
  m_GameActions_Insert : list Event -> Z -> Z -> GameAction -> option error;
  m_ChatLog_Insert : list Event -> Z -> string -> string -> option error;
  m_GameTags_Insert : list Event -> Z -> string -> option error;
  m_UserStats_Get : list Event -> Z -> Z -> GoResult UserStatsRow;
  m_UserStats_Update : list Event -> Z -> Z -> UserStatsRow -> option error;
  m_VariantStats_Get : list Event -> Z -> GoResult VariantStatsRow;
  m_VariantStats_Update : list Event -> Z -> Z -> VariantStatsRow -> option error;
  m_Games_GetNumSimilar : list Event -> string -> GoResult Z;
}.

Record Variant : Type := {
  v_ID : Z;
  v_MaxScore : Z;
  v_Suits : list string;
}.

Record Character : Type := {
  ch_ID : Z;
}.

(** What [game_end.go] uses and does not declare: the end-condition, status
    and action-type codes, the [variants] and [characters] tables,
    [durationToString] and the gateway. *)
Record Env : Type := {
  EndConditionNormal : Z;
  EndConditionTimeout : Z;
  EndConditionTerminated : Z;
  EndConditionIdleTimeout : Z;
  ActionTypeGameOver : Z;
  StatusLobby : Z;
  StatusSharedReplay : Z;
  (** [variants[name]] *)
  variants : string -> Variant;
  characters : gmap string Character;
  durationToString : Z -> string;
  models : Models;
}.

(** ** Field updates *)

Definition set_g_ID (v : Z) (g : Game) : Game :=
  {| g_ID := v; g_Options := g_Options g; g_Players := g_Players g;
     g_Seed := g_Seed g; g_Deck := g_Deck g; g_Score := g_Score g;
     g_Turn := g_Turn g; g_EndTurn := g_EndTurn g;
     g_DatetimeStarted := g_DatetimeStarted g;
     g_DatetimeFinished := g_DatetimeFinished g;
     g_EndCondition := g_EndCondition g; g_EndPlayer := g_EndPlayer g;
     g_Actions := g_Actions g; g_Actions2 := g_Actions2 g;
     g_Tags := g_Tags g |}.

Definition set_g_Score (v : Z) (g : Game) : Game :=
  {| g_ID := g_ID g; g_Options := g_Options g; g_Players := g_Players g;
     g_Seed := g_Seed g; g_Deck := g_Deck g; g_Score := v;
     g_Turn := g_Turn g; g_EndTurn := g_EndTurn g;
     g_DatetimeStarted := g_DatetimeStarted g;
     g_DatetimeFinished := g_DatetimeFinished g;
     g_EndCondition := g_EndCondition g; g_EndPlayer := g_EndPlayer g;
     g_Actions := g_Actions g; g_Actions2 := g_Actions2 g;
     g_Tags := g_Tags g |}.

Definition set_g_Turn (v : Z) (g : Game) : Game :=
  {| g_ID := g_ID g; g_Options := g_Options g; g_Players := g_Players g;
     g_Seed := g_Seed g; g_Deck := g_Deck g; g_Score := g_Score g;
     g_Turn := v; g_EndTurn := g_EndTurn g;
     g_DatetimeStarted := g_DatetimeStarted g;
     g_DatetimeFinished := g_DatetimeFinished g;
     g_EndCondition := g_EndCondition g; g_EndPlayer := g_EndPlayer g;
     g_Actions := g_Actions g; g_Actions2 := g_Actions2 g;
     g_Tags := g_Tags g |}.

Definition set_g_EndTurn (v : Z) (g : Game) : Game :=
  {| g_ID := g_ID g; g_Options := g_Options g; g_Players := g_Players g;
     g_Seed := g_Seed g; g_Deck := g_Deck g; g_Score := g_Score g;
     g_Turn := g_Turn g; g_EndTurn := v;
     g_DatetimeStarted := g_DatetimeStarted g;
     g_DatetimeFinished := g_DatetimeFinished g;
     g_EndCondition := g_EndCondition g; g_EndPlayer := g_EndPlayer g;
     g_Actions := g_Actions g; g_Actions2 := g_Actions2 g;
     g_Tags := g_Tags g |}.

Definition set_g_DatetimeFinished (v : Z) (g : Game) : Game :=
  {| g_ID := g_ID g; g_Options := g_Options g; g_Players := g_Players g;
     g_Seed := g_Seed g; g_Deck := g_Deck g; g_Score := g_Score g;
     g_Turn := g_Turn g; g_EndTurn := g_EndTurn g;
     g_DatetimeStarted := g_DatetimeStarted g;
     g_DatetimeFinished := v;
     g_EndCondition := g_EndCondition g; g_EndPlayer := g_EndPlayer g;
     g_Actions := g_Actions g; g_Actions2 := g_Actions2 g;
     g_Tags := g_Tags g |}.

Definition set_g_Actions (v : list Action) (g : Game) : Game :=
  {| g_ID := g_ID g; g_Options := g_Options g; g_Players := g_Players g;
     g_Seed := g_Seed g; g_Deck := g_Deck g; g_Score := g_Score g;
     g_Turn := g_Turn g; g_EndTurn := g_EndTurn g;
     g_DatetimeStarted := g_DatetimeStarted g;
     g_DatetimeFinished := g_DatetimeFinished g;
     g_EndCondition := g_EndCondition g; g_EndPlayer := g_EndPlayer g;
     g_Actions := v; g_Actions2 := g_Actions2 g;
     g_Tags := g_Tags g |}.

Definition set_t_Name (v : string) (t : Table) : Table :=
  {| t_ID := t_ID t; t_Name := v; t_Owner := t_Owner t;
     t_Options := t_Options t; t_Players := t_Players t;
     t_Spectators := t_Spectators t; t_Replay := t_Replay t;
     t_Progress := t_Progress t; t_Chat := t_Chat t; t_Game := t_Game t |}.

Definition set_t_Owner (v : Z) (t : Table) : Table :=
  {| t_ID := t_ID t; t_Name := t_Name t; t_Owner := v;
     t_Options := t_Options t; t_Players := t_Players t;
     t_Spectators := t_Spectators t; t_Replay := t_Replay t;
     t_Progress := t_Progress t; t_Chat := t_Chat t; t_Game := t_Game t |}.

Definition set_t_Players (v : list Player) (t : Table) : Table :=
  {| t_ID := t_ID t; t_Name := t_Name t; t_Owner := t_Owner t;
     t_Options := t_Options t; t_Players := v;
     t_Spectators := t_Spectators t; t_Replay := t_Replay t;
     t_Progress := t_Progress t; t_Chat := t_Chat t; t_Game := t_Game t |}.

Definition set_t_Spectators (v : list Spectator) (t : Table) : Table :=
  {| t_ID := t_ID t; t_Name := t_Name t; t_Owner := t_Owner t;
     t_Options := t_Options t; t_Players := t_Players t;
     t_Spectators := v; t_Replay := t_Replay t;
     t_Progress := t_Progress t; t_Chat := t_Chat t; t_Game := t_Game t |}.

Definition set_t_Replay (v : bool) (t : Table) : Table :=
  {| t_ID := t_ID t; t_Name := t_Name t; t_Owner := t_Owner t;
     t_Options := t_Options t; t_Players := t_Players t;
     t_Spectators := t_Spectators t; t_Replay := v;
     t_Progress := t_Progress t; t_Chat := t_Chat t; t_Game := t_Game t |}.

Definition set_t_Progress (v : Z) (t : Table) : Table :=
  {| t_ID := t_ID t; t_Name := t_Name t; t_Owner := t_Owner t;
     t_Options := t_Options t; t_Players := t_Players t;
     t_Spectators := t_Spectators t; t_Replay := t_Replay t;
     t_Progress := v; t_Chat := t_Chat t; t_Game := t_Game t |}.

Definition set_t_Game (v : Game) (t : Table) : Table :=
  {| t_ID := t_ID t; t_Name := t_Name t; t_Owner := t_Owner t;
     t_Options := t_Options t; t_Players := t_Players t;
     t_Spectators := t_Spectators t; t_Replay := t_Replay t;
     t_Progress := t_Progress t; t_Chat := t_Chat t; t_Game := v |}.

Definition set_p_Present (v : bool) (p : Player) : Player :=
  {| p_ID := p_ID p; p_Name := p_Name p; p_Present := v;
     p_Session := p_Session p |}.

(** ** The state and its monad *)

(** The server as far as [game_end.go] touches it. *)
Record World : Type := {
  (** the table [t], with its game [g] *)
  w_t : Table;
  (** the keys of the global map [tables] *)
  w_tables : gset Z;
  (** the events so far, oldest first *)
  w_trace : list Event;
}.

(** A run either ends, with a value and a new state, or panics (an index out
    of range) in the state it has reached. *)
Inductive Result (A : Type) : Type :=
| Ok (a : A) (w : World)
| Panic (w : World).
Arguments Ok {A} a w.
Arguments Panic {A} w.

(** The state in which a run stops. *)
Definition world_of {A : Type} (r : Result A) : World :=
  match r with
  | Ok _ w => w
  | Panic w => w
  end.

Definition M (A : Type) : Type := World -> Result A.

Definition ret {A : Type} (a : A) : M A := fun w => Ok a w.

Definition bind {A B : Type} (c : M A) (k : A -> M B) : M B :=
  fun w => match c w with
           | Ok a w' => k a w'
           | Panic w' => Panic w'
           end.

Declare Scope go_scope.
Delimit Scope go_scope with go.
Notation "x <- c ;; k" := (bind c (fun x => k))
  (at level 100, c at next level, right associativity) : go_scope.
Notation "c ;; k" := (bind c (fun _ => k))
  (at level 100, right associativity) : go_scope.
Open Scope go_scope.

Definition panic {A : Type} : M A := fun w => Panic w.

Definition get_t : M Table := fun w => Ok (w_t w) w.

Definition get_g : M Game := fun w => Ok (t_Game (w_t w)) w.

Definition update_t (f : Table -> Table) : M unit :=
  fun w => Ok tt {| w_t := f (w_t w); w_tables := w_tables w;
                    w_trace := w_trace w |}.

Definition update_g (f : Game -> Game) : M unit :=
  update_t (fun t => set_t_Game (f (t_Game t)) t).

Definition emit (e : Event) : M unit :=
  fun w => Ok tt {| w_t := w_t w; w_tables := w_tables w;
                    w_trace := w_trace w ++ [e] |}.

(** [delete(tables, id)] *)
Definition delete_tables (id : Z) : M unit :=
  fun w => Ok tt {| w_t := w_t w; w_tables := w_tables w ∖ {[ id ]};
                    w_trace := w_trace w |}.

(** A call to the gateway: it is recorded, and answered from what happened
    before it. *)
Definition db {A : Type} (c : DbCall) (answer : list Event -> A) : M A :=
  fun w => Ok (answer (w_trace w))
              {| w_t := w_t w; w_tables := w_tables w;
                 w_trace := w_trace w ++ [Db c] |}.

(** [t.Players[i]], [stats.BestScores[i]] *)
Definition at_index {A : Type} (l : list A) (i : Z) : M A :=
  match index l i with
  | Some x => ret x
  | None => panic
  end.

(** [for _, x := range l { body }], for a body that neither returns nor
    breaks. *)
Fixpoint forEach {A : Type} (body : A -> M unit) (l : list A) : M unit :=
  match l with
  | [] => ret tt
  | x :: l' => body x ;; forEach body l'
  end.

(** [for i, x := range l { body }] in a function that returns an [error]:
    the body answers [Some err] when it executes [return err], and [None]
    when it reaches its end or a [continue]. [i] is the index of the head of
    [l]. *)
Fixpoint forRange {A : Type} (body : Z -> A -> M (option error))
    (i : Z) (l : list A) : M (option error) :=
  match l with
  | [] => ret None
  | x :: l' =>
      r <- body i x ;;
      match r with
      | Some err => ret (Some err)
      | None => forRange body (i + 1) l'
      end
  end.

(** [if err := c; err != nil { return err }] followed by [k]. *)
Definition check (c : M (option error)) (k : M (option error))
  : M (option error) :=
  r <- c ;;
  match r with
  | Some err => ret (Some err)
  | None => k
  end.

(** ** [game_end.go] *)

Section GameEnd.

Variable E : Env.

(** *** Calls into the gateway *)

Definition models_Games_Insert (row : GameRow) : M (GoResult Z) :=
  db (Games_Insert row) (fun h => m_Games_Insert (models E) h row).

Definition models_GameParticipants_Insert
    (gameID userID seat characterID characterMetadata : Z) : M (option error) :=
  db (GameParticipants_Insert gameID userID seat characterID characterMetadata)
     (fun h => m_GameParticipants_Insert (models E) h gameID userID seat
                 characterID characterMetadata).

Definition models_GameParticipantNotes_Insert
    (userID gameID order : Z) (note : string) : M (option error) :=
  db (GameParticipantNotes_Insert userID gameID order note)
     (fun h => m_GameParticipantNotes_Insert (models E) h userID gameID order
                 note).

Definition models_GameActions_Insert
    (gameID turn : Z) (action : GameAction) : M (option error) :=
  db (GameActions_Insert gameID turn action)
     (fun h => m_GameActions_Insert (models E) h gameID turn action).

Definition models_ChatLog_Insert (userID : Z) (msg room : string)
  : M (option error) :=
  db (ChatLog_Insert userID msg room)
     (fun h => m_ChatLog_Insert (models E) h userID msg room).

Definition models_GameTags_Insert (gameID : Z) (tag : string)
  : M (option error) :=
  db (GameTags_Insert gameID tag)
     (fun h => m_GameTags_Insert (models E) h gameID tag).

Definition models_UserStats_Get (userID variant : Z)
  : M (GoResult UserStatsRow) :=
  db (UserStats_Get userID variant)
     (fun h => m_UserStats_Get (models E) h userID variant).

Definition models_UserStats_Update (userID variant : Z) (stats : UserStatsRow)
  : M (option error) :=
  db (UserStats_Update userID variant stats)
     (fun h => m_UserStats_Update (models E) h userID variant stats).

Definition models_VariantStats_Get (variant : Z)
  : M (GoResult VariantStatsRow) :=
  db (VariantStats_Get variant)
     (fun h => m_VariantStats_Get (models E) h variant).

Definition models_VariantStats_Update (variant maxScore : Z)
    (stats : VariantStatsRow) : M (option error) :=
  db (VariantStats_Update variant maxScore stats)
     (fun h => m_VariantStats_Update (models E) h variant maxScore stats).

Definition models_Games_GetNumSimilar (seed : string) : M (GoResult Z) :=
  db (Games_GetNumSimilar seed)
     (fun h => m_Games_GetNumSimilar (models E) h seed).

(** *** [WriteDatabase], block by block *)

(** Lines 196-225: the body of the loop over [g.Players] that inserts the
    participants. *)
Definition insertParticipant (i : Z) (gp : GamePlayer) : M (option error) :=
  t <- get_t ;;
  g <- get_g ;;
  p <- at_index (t_Players t) (gp_Index gp) ;;
  let characterID : GoResult Z :=
    if o_CharacterAssignments (t_Options t) then
      if String.eqb (gp_Character gp) "n/a" then Val (-1)
      else
        match characters E !! gp_Character gp with
        | None =>
            Err ("the character of " +:+ gp_Character gp +:+
                 " does not exist in the characters map")
        | Some v => Val (ch_ID v)
        end
    else Val 0 in
  match characterID with
  | Err err => ret (Some err)
  | Val characterID =>
      models_GameParticipants_Insert (g_ID g) (p_ID p) (gp_Index gp)
        characterID (gp_CharacterMetadata gp)
  end.

(** Lines 228-242: the body of the loop that inserts the notes. A failed
    insertion is logged and nothing else. *)
Definition insertNotes (i : Z) (gp : GamePlayer) : M (option error) :=
  t <- get_t ;;
  g <- get_g ;;
  p <- at_index (t_Players t) (gp_Index gp) ;;
  forRange
    (fun j note =>
       if String.eqb note "" then ret None
       else
         _ <- models_GameParticipantNotes_Insert (p_ID p) (g_ID g) j note ;;
         ret None)
    0 (gp_Notes gp).

(** Lines 245-252: the body of the loop over [g.Actions2]. *)
Definition insertAction (i : Z) (action : GameAction) : M (option error) :=
  g <- get_g ;;
  models_GameActions_Insert (g_ID g) i action.

(** Lines 255-274: the value of [gameOverAction]; [None] is the nil
    pointer. *)
Definition gameOverAction (g : Game) : option GameAction :=
  if g_EndCondition g =? EndConditionTimeout E then
    Some {| ga_Type := ActionTypeGameOver E;
            ga_Target := g_EndPlayer g;
            ga_Value := EndConditionTimeout E |}
  else if g_EndCondition g =? EndConditionTerminated E then
    Some {| ga_Type := ActionTypeGameOver E;
            ga_Target := g_EndPlayer g;
            ga_Value := EndConditionTerminated E |}
  else if g_EndCondition g =? EndConditionIdleTimeout E then
    Some {| ga_Type := ActionTypeGameOver E;
            ga_Target := 0;
            ga_Value := EndConditionIdleTimeout E |}
  else None.

(** Lines 275-280. *)
Definition insertGameOver : M (option error) :=
  g <- get_g ;;
  match gameOverAction g with
  | Some a => models_GameActions_Insert (g_ID g) (len (g_Actions2 g)) a
  | None => ret None
  end.

(** Lines 283-290: the body of the loop over [t.Chat]. *)
Definition insertChat (chatMsg : ChatMessage) : M (option error) :=
  t <- get_t ;;
  let room := "table" +:+ Itoa (t_ID t) in
  _ <- models_ChatLog_Insert (cm_UserID chatMsg) (cm_Msg chatMsg) room ;;
  ret None.

(** Lines 293-299: the body of the loop over [g.Tags]. *)
Definition insertTag (tag : string) : M (option error) :=
  g <- get_g ;;
  _ <- models_GameTags_Insert (g_ID g) tag ;;
  ret None.

(** Lines 317-323: the integer modifier of the game. *)
Definition modifier_of (o : Options) : Z :=
  let modifier := 0 in
  let modifier := if o_DeckPlays o then modifier + 1 else modifier in
  let modifier := if o_EmptyClues o then modifier + 2 else modifier in
  modifier.

(** Lines 327-332: what [bestScore] points at after the [if]. *)
Definition userBestScore (score modifier : Z) (bestScore : BestScore)
  : BestScore :=
  if (score >? bs_Score bestScore)
     || ((score =? bs_Score bestScore) && (modifier <? bs_Modifier bestScore))
  then {| bs_Score := score; bs_Modifier := modifier |}
  else bestScore.

(** Lines 302-341: the body of the loop over [t.Players] that updates the
    stats of each user. [continue] ends the body. *)
Definition updateUserStats (p : Player) : M (option error) :=
  g <- get_g ;;
  r <- models_UserStats_Get (p_ID p) (v_ID (variants E (o_Variant (g_Options g)))) ;;
  match r with
  | Err _ => ret None
  | Val stats =>
      let modifier := modifier_of (g_Options g) in
      let i := len (g_Players g) - 2 in
      bestScore <- at_index (us_BestScores stats) i ;;
      let stats :=
        {| us_BestScores :=
             <[Z.to_nat i := userBestScore (g_Score g) modifier bestScore]>
               (us_BestScores stats) |} in
      _ <- models_UserStats_Update (p_ID p)
             (v_ID (variants E (o_Variant (g_Options g)))) stats ;;
      ret None
  end.

(** Lines 357-359. *)
Definition variantBestScore (score : Z) (bestScore : BestScore) : BestScore :=
  if score >? bs_Score bestScore
  then {| bs_Score := score; bs_Modifier := bs_Modifier bestScore |}
  else bestScore.

(** Lines 343-376: the stats of the variant, and the end of
    [WriteDatabase]. *)
Definition updateVariantStats : M (option error) :=
  g <- get_g ;;
  let variant := variants E (o_Variant (g_Options g)) in
  r <- models_VariantStats_Get (v_ID variant) ;;
  match r with
  | Err err => ret (Some err)
  | Val stats =>
      stats <-
        (if negb (o_DeckPlays (g_Options g)) && negb (o_EmptyClues (g_Options g))
         then
           let i := len (g_Players g) - 2 in
           bestScore <- at_index (vs_BestScores stats) i ;;
           ret {| vs_BestScores :=
                    <[Z.to_nat i := variantBestScore (g_Score g) bestScore]>
                      (vs_BestScores stats) |}
         else ret stats) ;;
      models_VariantStats_Update (v_ID variant) (v_MaxScore variant) stats
  end.

(** Lines 166-377. *)
Definition WriteDatabase : M (option error) :=
  t <- get_t ;;
  g <- get_g ;;
  let row :=
    {| gr_Name := t_Name t;
       gr_NumPlayers := len (g_Players g);
       gr_Variant := v_ID (variants E (o_Variant (g_Options g)));
       gr_Timed := o_Timed (g_Options g);
       gr_TimeBase := o_TimeBase (g_Options g);
       gr_TimePerTurn := o_TimePerTurn (g_Options g);
       gr_Speedrun := o_Speedrun (g_Options g);
       gr_CardCycle := o_CardCycle (g_Options g);
       gr_DeckPlays := o_DeckPlays (g_Options g);
       gr_EmptyClues := o_EmptyClues (g_Options g);
       gr_CharacterAssignments := o_CharacterAssignments (g_Options g);
       gr_Seed := g_Seed g;
       gr_Score := g_Score g;
       gr_NumTurns := g_Turn g;
       gr_EndCondition := g_EndCondition g;
       gr_DatetimeStarted := g_DatetimeStarted g;
       gr_DatetimeFinished := g_DatetimeFinished g |} in
  r <- models_Games_Insert row ;;
  match r with
  | Err err => ret (Some err)
  | Val v =>
      update_g (set_g_ID v) ;;
      check (forRange insertParticipant 0 (g_Players g))
     (check (forRange insertNotes 0 (g_Players g))
     (check (forRange insertAction 0 (g_Actions2 g))
     (check insertGameOver
     (check (forRange (fun _ => insertChat) 0 (t_Chat t))
     (check (forRange (fun _ => insertTag) 0 (g_Tags g))
     (check (forRange (fun _ => updateUserStats) 0 (t_Players t))
      updateVariantStats))))))
  end.

(** *** [ConvertToSharedReplay] *)

(** Lines 433-463: the body of the loop that turns the players into
    spectators. The local variable [ownerOffline] goes in and comes out. *)
Definition toSpectator (ownerOffline : bool) (p : Player) : M bool :=
  t <- get_t ;;
  g <- get_g ;;
  if negb (p_Present p) then
    if (p_ID p =? t_Owner t)
       && match p_Session p with
          | None => true
          | Some s => s_IsClosed s
          end
    then ret true
    else ret ownerOffline
  else if g_EndCondition g =? EndConditionIdleTimeout E then ret ownerOffline
  else
    let sp :=
      {| sp_ID := p_ID p;
         sp_Name := p_Name p;
         sp_Session := p_Session p;
         sp_Notes :=
           replicate
             (length (g_Deck g)
              + length (v_Suits (variants E (o_Variant (t_Options t)))))%nat
             ""%string |} in
    update_t (fun t => set_t_Spectators (t_Spectators t ++ [sp]) t) ;;
    ret ownerOffline.

(** [for _, x := range l { body }] with a local variable that the body
    updates. *)
Fixpoint forFold {A S : Type} (body : S -> A -> M S) (s : S) (l : list A)
  : M S :=
  match l with
  | [] => ret s
  | x :: l' => s' <- body s x ;; forFold body s' l'
  end.

(** [for _, x := range l { body }] where the body answers [true] when it
    executes [break]. *)
Fixpoint forBreak {A : Type} (body : A -> M bool) (l : list A) : M unit :=
  match l with
  | [] => ret tt
  | x :: l' => b <- body x ;; if b then ret tt else forBreak body l'
  end.

(** Lines 472-490: the election of a new leader. *)
Definition electLeader : M unit :=
  update_t (set_t_Owner (-1)) ;;
  t <- get_t ;;
  forBreak
    (fun p =>
       if p_Present p then update_t (set_t_Owner (p_ID p)) ;; ret true
       else ret false)
    (t_Players t) ;;
  t <- get_t ;;
  if negb (t_Owner t =? -1) then
    sp <- at_index (t_Spectators t) 0 ;;
    update_t (set_t_Owner (sp_ID sp))
  else ret tt.

(** Lines 500-522: the body of the loop over [t.Spectators]. *)
Definition notifySpectator (sp : Spectator) : M unit :=
  t <- get_t ;;
  g <- get_g ;;
  match sp_Session sp with
  | Some s =>
      emit (Session_Set s "status" (StatusSharedReplay E)) ;;
      emit (notifyAllUser s)
  | None => ret tt
  end ;;
  emit (Session_NotifyReplayLeader (sp_Session sp) (t_ID t) false) ;;
  emit (Session_NotifyNoteList (sp_Session sp) (t_ID t)) ;;
  emit (Session_Emit (sp_Session sp) "databaseID"
          (IDMessage (t_ID t) (g_ID g))).

(** Lines 420-526. *)
Definition ConvertToSharedReplay : M unit :=
  g <- get_g ;;
  update_t (set_t_Replay true) ;;
  update_t (set_t_Name ("Shared replay for game #" +:+ Itoa (g_ID g))) ;;
  update_g (fun g => set_g_EndTurn (g_Turn g) g) ;;
  update_g (fun g => set_g_Turn (wrap64 (g_Turn g - 1)) g) ;;
  update_t (set_t_Progress 100) ;;
  t <- get_t ;;
  ownerOffline <- forFold toSpectator false (t_Players t) ;;
  t <- get_t ;;
  if len (t_Spectators t) =? 0 then delete_tables (t_ID t)
  else
    (if ownerOffline then electLeader else ret tt) ;;
    update_t (fun t => set_t_Players (map (set_p_Present true) (t_Players t)) t) ;;
    emit NotifyConnected ;;
    t <- get_t ;;
    forEach notifySpectator (t_Spectators t) ;;
    emit notifyAllTable ;;
    emit NotifySpectators.

(** *** [End] *)

(** [g.Actions = append(g.Actions, a)] followed by
    [t.NotifyGameAction()]. *)
Definition appendAction (a : Action) : M unit :=
  update_g (fun g => set_g_Actions (g_Actions g ++ [a]) g) ;;
  emit NotifyGameAction.

(** Lines 28-38: the action that lists every card of the deck. *)
Definition deckOrder (g : Game) : Action :=
  let deck :=
    map (fun c => {| sc_Suit := c_Suit c; sc_Rank := c_Rank c |}) (g_Deck g) in
  ActionDeckOrder "deckOrder" deck.

(** [time.Time.Sub]: the difference, or the largest or smallest
    [Duration] when the difference does not fit. Times are in
    nanoseconds. *)
Definition Time_Sub (t u : Z) : Z :=
  Z.max min_int64 (Z.min max_int64 (t - u)).

(** [sort.Strings]: increasing order of the bytes. *)
Fixpoint insert_String (x : string) (l : list string) : list string :=
  match l with
  | [] => [x]
  | y :: l' => if String.leb x y then x :: l else y :: insert_String x l'
  end.

Definition sort_Strings (l : list string) : list string :=
  foldr insert_String [] l.

(** [strings.Join] *)
Fixpoint strings_Join (l : list string) (sep : string) : string :=
  match l with
  | [] => ""
  | [x] => x
  | x :: l' => x +:+ sep +:+ strings_Join l' sep
  end.

(** Lines 49-55: the text about the time of one player. *)
Definition timeText (timed : bool) (p : GamePlayer) : string :=
  let text := gp_Name p +:+ " " in
  if timed then text +:+ "had " +:+ durationToString E (gp_Time p) +:+ " left"
  else text +:+ "took: " +:+ durationToString E (wrap64 (gp_Time p * -1)).

(** Lines 48-62: the body of the loop over [g.Players]. *)
Definition announceTime (p : GamePlayer) : M unit :=
  g <- get_g ;;
  let text := timeText (o_Timed (g_Options g)) p in
  appendAction (ActionText "text" text).

(** Lines 82-98: the body of the loop that reveals the hands. *)
Definition reveal (gp : GamePlayer) : M unit :=
  t <- get_t ;;
  p <- at_index (t_Players t) (gp_Index gp) ;;
  if p_Present p then
    forEach
      (fun c => emit (Session_Emit (p_Session p) "reveal"
                        (RevealMessage (c_Suit c) (c_Rank c) (c_Order c))))
      (gp_Hand gp)
  else ret tt.

(** Lines 108-113: the body of the loop that resets the status of the
    players. *)
Definition resetStatus (p : Player) : M unit :=
  match p_Session p with
  | Some s =>
      emit (Session_Set s "status" (StatusLobby E)) ;;
      emit (notifyAllUser s)
  | None => ret tt
  end.

(** Lines 128-156: the one element of [gameHistoryList]. *)
Definition gameHistory (t : Table) (g : Game) (numSimilar : Z) : GameHistory :=
  let playerNamesSlice := sort_Strings (map p_Name (t_Players t)) in
  let playerNames := strings_Join playerNamesSlice ", " in
  {| gh_ID := g_ID g;
     gh_NumPlayers := len (g_Players g);
     gh_Variant := o_Variant (g_Options g);
     gh_Timed := o_Timed (g_Options g);
     gh_TimeBase := o_TimeBase (g_Options g);
     gh_TimePerTurn := o_TimePerTurn (g_Options g);
     gh_Speedrun := o_Speedrun (g_Options g);
     gh_CardCycle := o_CardCycle (g_Options g);
     gh_DeckPlays := o_DeckPlays (g_Options g);
     gh_EmptyClues := o_EmptyClues (g_Options g);
     gh_CharacterAssignments := o_CharacterAssignments (g_Options g);
     gh_Seed := g_Seed g;
     gh_Score := g_Score g;
     gh_NumTurns := g_Turn g;
     gh_EndCondition := g_EndCondition g;
     gh_DatetimeStarted := g_DatetimeStarted g;
     gh_DatetimeFinished := g_DatetimeFinished g;
     gh_NumSimilar := numSimilar;
     gh_PlayerNames := playerNames;
     gh_IncrementNumGames := true |}.

(** Lines 64-66: the text about the duration of the game. *)
Definition totalText (g : Game) : string :=
  let totalTime := Time_Sub (g_DatetimeFinished g) (g_DatetimeStarted g) in
  "The total game duration was: " +:+ durationToString E totalTime.

(** Lines 46-72: the texts about the times. *)
Definition announceTimes : M unit :=
  g <- get_g ;;
  forEach announceTime (g_Players g) ;;
  g <- get_g ;;
  let text := totalText g in
  appendAction (ActionText "text" text).

(** Lines 74-113: from the extra turn to the reset of the status of the
    players. *)
Definition signalGameOver : M unit :=
  g <- get_g ;;
  update_g (fun g => set_g_Turn (wrap64 (g_Turn g + 1)) g) ;;
  emit NotifyTurn ;;
  emit NotifyGameOver ;;
  forEach reveal (g_Players g) ;;
  emit notifyAllTableGone ;;
  t <- get_t ;;
  forEach resetStatus (t_Players t).

(** Lines 115-163: from the record in the database to the shared
    replay. *)
Definition recordAndConvert : M unit :=
  err <- WriteDatabase ;;
  match err with
  | Some _ => ret tt
  | None =>
      g <- get_g ;;
      r <- models_Games_GetNumSimilar (g_Seed g) ;;
      match r with
      | Err _ => ret tt
      | Val numSimilar =>
          t <- get_t ;;
          let gameHistoryList := [gameHistory t g numSimilar] in
          forEach
            (fun p => emit (Session_Emit (p_Session p) "gameHistory"
                              (GameHistoryList gameHistoryList)))
            (t_Players t) ;;
          ConvertToSharedReplay
      end
  end.

(** Lines 20-23. [now] is the answer of [time.Now()]. *)
Definition finalize (now : Z) : M unit :=
  update_g (set_g_DatetimeFinished now) ;;
  g <- get_g ;;
  if g_EndCondition g >? EndConditionNormal E
  then update_g (set_g_Score 0)
  else ret tt.

(** Lines 26-39. *)
Definition appendDeckOrder : M unit :=
  g <- get_g ;;
  appendAction (deckOrder g).

(** Lines 26-163: [End] after the score is final. *)
Definition afterFinalize : M unit :=
  appendDeckOrder ;;
  g <- get_g ;;
  if o_Replay (g_Options g) then ret tt
  else announceTimes ;; signalGameOver ;; recordAndConvert.

(** Lines 16-164. *)
Definition End (now : Z) : M unit :=
  finalize now ;;
  afterFinalize.

End GameEnd.

(** *** [GetAnnouncementString] *)

(** [\d] *)
Definition isDigit (c : ascii) : bool :=
  (("0" <=? c) && (c <=? "9"))%char.

(** The longest prefix of [s] made of digits, and what follows it. *)
Fixpoint spanDigits (s : string) : string * string :=
  match s with
  | String c s' =>
      if isDigit c then
        let (ds, r) := spanDigits s' in (String c ds, r)
      else (EmptyString, s)
  | EmptyString => (EmptyString, EmptyString)
  end.

(** A match of [p\dv\d+s(\d+)] that starts at the first byte of [s]; the
    answer is the text of the group. Both [\d+] are greedy, and a shorter
    run of digits cannot help the first one, since the byte after it would
    be a digit where the pattern has [s]. *)
Definition seedMatchHere (s : string) : option string :=
  match s with
  | String "p" (String d (String "v" r)) =>
      if isDigit d then
        match spanDigits r with
        | (String _ _, String "s" r') =>
            match spanDigits r' with
            | (String c cs, _) => Some (String c cs)
            | (EmptyString, _) => None
            end
        | _ => None
        end
      else None
  | _ => None
  end.

(** [seedRegexp.FindStringSubmatch(s)] (lines 12-14 and 409): the leftmost
    match. [None] is the nil slice, [Some m] a match whose element 1, the
    only one the code reads, is [m]. *)
Fixpoint seedRegexp_FindStringSubmatch (s : string) : option string :=
  match seedMatchHere s with
  | Some m => Some m
  | None =>
      match s with
      | String _ s' => seedRegexp_FindStringSubmatch s'
      | EmptyString => None
      end
  end.

Section Announcement.

Variable E : Env.

(** [strings.ToLower], of the Go library. *)
Variable strings_ToLower : string -> string.

(** Lines 379-418. [None] is the panic of the index expression on line
    392, for a variant whose lower-case form is empty. *)
Definition GetAnnouncementString (g : Game) : option string :=
  let playerList := map gp_Name (g_Players g) in
  let msg := "[" +:+ strings_Join playerList ", " +:+ "] " in
  let msg :=
    if g_EndCondition g =? EndConditionTerminated E
    then msg +:+ "terminated"
    else msg +:+ "finished" in
  let msg := msg +:+ " a" in
  match strings_ToLower (o_Variant (g_Options g)) with
  | EmptyString => None
  | String firstLetter _ =>
      let msg :=
        if ((firstLetter =? "a") || (firstLetter =? "e")
            || (firstLetter =? "i") || (firstLetter =? "o")
            || (firstLetter =? "u"))%char
        then msg +:+ "n"
        else msg in
      let msg := msg +:+ " " +:+ o_Variant (g_Options g) +:+ " game" in
      let msg :=
        if g_EndCondition g =? EndConditionTerminated E
        then msg +:+ ". "
        else msg +:+ " with a score of " +:+ Itoa (g_Score g) +:+ ". " in
      let msg := msg +:+ "(id: " +:+ Itoa (g_ID g) +:+ ", " in
      match seedRegexp_FindStringSubmatch (g_Seed g) with
      | None => Some ""%string
      | Some m => Some (msg +:+ "seed: " +:+ m +:+ ")")
      end
  end.

End Announcement.

(** ** Relations between the state before and after a run *)

Definition game (w : World) : Game := t_Game (w_t w).

(** [c] keeps [R]: wherever it stops, also in a panic, the state it reaches
    is related to the one it started from. *)
Definition preserves (R : relation World) {A : Type} (c : M A) : Prop :=
  forall w, R w (world_of (c w)).

(** Only gateway calls happened, and nothing changed but the id of the
    game. *)
Definition isDb (e : Event) : Prop :=
  match e with
  | Db _ => True
  | _ => False
  end.

Definition only_db : relation World := fun w w' =>
  w_tables w' = w_tables w
  /\ (exists id, w_t w' = set_t_Game (set_g_ID id (game w)) (w_t w))
  /\ (exists l, w_trace w' = w_trace w ++ l /\ Forall isDb l).

(** What [f] reads in the game is as it was. *)
Definition same_on {B : Type} (f : Game -> B) : relation World := fun w w' =>
  f (game w') = f (game w).

(** What [f] reads in the table is as it was. *)
Definition same_t_on {B : Type} (f : Table -> B) : relation World :=
  fun w w' => f (w_t w') = f (w_t w).

(** Only events happened. *)
Definition only_events : relation World := fun w w' =>
  w_t w' = w_t w
  /\ w_tables w' = w_tables w
  /\ exists l, w_trace w' = w_trace w ++ l.

(** No call to [models.GameActions.Insert] happened. *)
Definition actionInsert (e : Event) : option (Z * Z * GameAction) :=
  match e with
  | Db (GameActions_Insert gameID turn action) => Some (gameID, turn, action)
  | _ => None
  end.

Definition actionInserts (l : list Event) : list (Z * Z * GameAction) :=
  omap actionInsert l.

Definition no_action_insert : relation World := fun w w' =>
  game w' = game w
  /\ actionInserts (w_trace w') = actionInserts (w_trace w).

(** The calls to [models.GameActions.Insert] that the spec describes for a
    game with the id [id]: every action of [g.Actions2] at its position,
    then the game-over action, if there is one, at the next index. *)
Definition persistedActions (id : Z) (actions : list GameAction)
    (gameOver : option GameAction) : list (Z * Z * GameAction) :=
  imap (fun i a => (id, Z.of_nat i, a)) actions
  ++ match gameOver with
     | Some a => [(id, len actions, a)]
     | None => []
     end.

(** The score and the two action logs of the game. *)
Definition log_of (g : Game) : Z * list Action * list GameAction :=
  (g_Score g, g_Actions g, g_Actions2 g).

(** The score that [End] leaves in the game. *)
Definition finalScore (E : Env) (g : Game) : Z :=
  if g_EndCondition g >? EndConditionNormal E then 0 else g_Score g.

(** The state after [appendAction a]. *)
Definition add_action (w : World) (a : Action) : World :=
  {| w_t := set_t_Game
              (set_g_Actions (g_Actions (game w) ++ [a]) (game w)) (w_t w);
     w_tables := w_tables w;
     w_trace := w_trace w ++ [NotifyGameAction] |}.

(** The replacement of a stored best score in the words of the spec: a
    strictly higher score replaces it, an equal score replaces it when the
    modifier is strictly lower, a lower score does not. *)
Definition replacedBest (score modifier : Z) (stored : BestScore) : BestScore :=
  let new := {| bs_Score := score; bs_Modifier := modifier |} in
  match score ?= bs_Score stored with
  | Gt => new
  | Eq => if modifier <? bs_Modifier stored then new else stored
  | Lt => stored
  end.

(** [End] for a live game, up to the record in the database (lines
    16-113). *)
Definition beforeWrite (E : Env) (now : Z) : M unit :=
  finalize E now ;;
  appendDeckOrder ;;
  announceTimes E ;;
  signalGameOver E.

(** The events of the loop that resets the status of the players (lines
    108-113). *)
Definition statusResets (E : Env) (ps : list Player) : list Event :=
  flat_map
    (fun p =>
       match p_Session p with
       | Some s => [Session_Set s "status" (StatusLobby E); notifyAllUser s]
       | None => []
       end)
    ps.

(** *** [ConvertToSharedReplay] as a function *)

(** Lines 436-440: this player makes [ownerOffline] true. *)
Definition isOfflineOwner (owner : Z) (p : Player) : bool :=
  negb (p_Present p)
  && (p_ID p =? owner)
  && match p_Session p with
     | None => true
     | Some s => s_IsClosed s
     end.

(** Lines 454-460. *)
Definition newSpectator (E : Env) (o : Options) (g : Game) (p : Player)
  : Spectator :=
  {| sp_ID := p_ID p;
     sp_Name := p_Name p;
     sp_Session := p_Session p;
     sp_Notes :=
       replicate
         (length (g_Deck g) + length (v_Suits (variants E (o_Variant o))))%nat
         ""%string |}.

(** The spectators that the loop of lines 433-463 appends: the present
    players, in the order of the table, unless the game ended for
    idleness. *)
Definition newSpectators (E : Env) (o : Options) (g : Game)
    (ps : list Player) : list Spectator :=
  flat_map
    (fun p =>
       if p_Present p
          && negb (g_EndCondition g =? EndConditionIdleTimeout E)
       then [newSpectator E o g p]
       else [])
    ps.

(** The value of [t.Owner] after lines 473-489, when [sp0] is the first
    spectator. *)
Definition electedOwner (ps : list Player) (sp0 : Spectator) : Z :=
  match find p_Present ps with
  | Some p => if p_ID p =? -1 then -1 else sp_ID sp0
  | None => -1
  end.

(** The events of the loop of lines 500-522 for one spectator. *)
Definition spectatorEvents (E : Env) (tableID gameID : Z) (sp : Spectator)
  : list Event :=
  match sp_Session sp with
  | Some s =>
      [Session_Set s "status" (StatusSharedReplay E); notifyAllUser s]
  | None => []
  end
  ++ [Session_NotifyReplayLeader (sp_Session sp) tableID false;
      Session_NotifyNoteList (sp_Session sp) tableID;
      Session_Emit (sp_Session sp) "databaseID" (IDMessage tableID gameID)].

(** The state in which [ConvertToSharedReplay] returns. *)
Definition converted (E : Env) (w : World) : World :=
  let t := w_t w in
  let g := game w in
  let g1 := set_g_Turn (wrap64 (g_Turn g - 1)) (set_g_EndTurn (g_Turn g) g) in
  let sps := t_Spectators t ++ newSpectators E (t_Options t) g (t_Players t) in
  let t1 :=
    set_t_Spectators sps
      (set_t_Progress 100
         (set_t_Game g1
            (set_t_Name ("Shared replay for game #" +:+ Itoa (g_ID g))
               (set_t_Replay true t)))) in
  match sps with
  | [] =>
      {| w_t := t1; w_tables := w_tables w ∖ {[ t_ID t ]};
         w_trace := w_trace w |}
  | sp0 :: _ =>
      let t2 :=
        if existsb (isOfflineOwner (t_Owner t)) (t_Players t)
        then set_t_Owner (electedOwner (t_Players t) sp0) t1
        else t1 in
      {| w_t := set_t_Players (map (set_p_Present true) (t_Players t)) t2;
         w_tables := w_tables w;
         w_trace :=
           w_trace w ++ [NotifyConnected]
           ++ flat_map (spectatorEvents E (t_ID t) (g_ID g)) sps
           ++ [notifyAllTable; NotifySpectators] |}
  end.

(** The text about the time of a player as the spec words it: the stored
    clock of a timed game, the negation of the stored clock of an untimed
    one. *)
Definition statedTimeAnnouncement (E : Env) (timed : bool) (p : GamePlayer)
  : string :=
  if timed then
    (gp_Name p +:+ " ") +:+ "had " +:+ durationToString E (gp_Time p) +:+ " left"
  else
    (gp_Name p +:+ " ") +:+ "took: " +:+ durationToString E (- gp_Time p).

(** ** Sample inputs *)

Module Sample.

(** Best scores of 0 for two to six players. *)
Definition emptyBest : list BestScore :=
  replicate 5 {| bs_Score := 0; bs_Modifier := 0 |}.

(** A gateway on which every call succeeds, but [Games.Insert] when
    [gamesDown] is set. *)
Definition gateway (gamesDown : bool) : Models :=
  {| m_Games_Insert := fun _ _ =>
       if gamesDown then Err "the database is down" else Val 100;
     m_GameParticipants_Insert := fun _ _ _ _ _ _ => None;
     m_GameParticipantNotes_Insert := fun _ _ _ _ _ => None;
     m_GameActions_Insert := fun _ _ _ _ => None;
     m_ChatLog_Insert := fun _ _ _ _ => None;
     m_GameTags_Insert := fun _ _ _ => None;
     m_UserStats_Get := fun _ _ _ => Val {| us_BestScores := emptyBest |};
     m_UserStats_Update := fun _ _ _ _ => None;
     m_VariantStats_Get := fun _ _ => Val {| vs_BestScores := emptyBest |};
     m_VariantStats_Update := fun _ _ _ _ => None;
     m_Games_GetNumSimilar := fun _ _ => Val 1 |}.

Definition env (gamesDown : bool) : Env :=
  {| EndConditionNormal := 1;
     EndConditionTimeout := 3;
     EndConditionTerminated := 4;
     EndConditionIdleTimeout := 6;
     ActionTypeGameOver := 4;
     StatusLobby := 0;
     StatusSharedReplay := 4;
     variants := fun _ =>
       {| v_ID := 0; v_MaxScore := 25;
          v_Suits := ["Blue"; "Green"; "Yellow"; "Red"; "Purple"]%string |};
     characters := ∅;
     durationToString := Itoa;
     models := gateway gamesDown |}.

Definition options (replay : bool) : Options :=
  {| o_Variant := "No Variant"; o_Timed := false; o_TimeBase := 0;
     o_TimePerTurn := 0; o_Speedrun := false; o_CardCycle := false;
     o_DeckPlays := false; o_EmptyClues := false;
     o_CharacterAssignments := false; o_Replay := replay |}.

Definition session (id : Z) : Session := {| s_ID := id; s_IsClosed := false |}.

Definition card (suit rank order : Z) : Card :=
  {| c_Suit := suit; c_Rank := rank; c_Order := order |}.

Definition gamePlayer (name : string) (seat time : Z) (hand : list Card)
  : GamePlayer :=
  {| gp_Name := name; gp_Index := seat; gp_Time := time; gp_Hand := hand;
     gp_Notes := [""; "a note"]%string; gp_Character := "";
     gp_CharacterMetadata := 0 |}.

(** A game of alice and bob that scored 20, with the end condition
    [endCondition]; alice took [time]. *)
Definition game_of (endCondition time : Z) (replay : bool) : Game :=
  {| g_ID := 0;
     g_Options := options replay;
     g_Players :=
       [gamePlayer "alice" 0 time [card 1 2 0]; gamePlayer "bob" 1 (-7) []];
     g_Seed := "p2v0s1";
     g_Deck := [card 1 2 0; card 3 4 1];
     g_Score := 20;
     g_Turn := 10;
     g_EndTurn := 0;
     g_DatetimeStarted := 1000;
     g_DatetimeFinished := 0;
     g_EndCondition := endCondition;
     g_EndPlayer := 1;
     g_Actions := [];
     g_Actions2 :=
       [{| ga_Type := 0; ga_Target := 1; ga_Value := 2 |};
        {| ga_Type := 1; ga_Target := 0; ga_Value := 3 |}];
     g_Tags := ["fun"%string] |}.

Definition player (id : Z) (name : string) (present : bool)
    (s : option Session) : Player :=
  {| p_ID := id; p_Name := name; p_Present := present; p_Session := s |}.

Definition spectator (id : Z) (name : string) (s : option Session)
  : Spectator :=
  {| sp_ID := id; sp_Name := name; sp_Session := s; sp_Notes := [] |}.

(** Table 7, owned by alice (user 11). *)
Definition world_of_table (players : list Player) (spectators : list Spectator)
    (g : Game) : World :=
  {| w_t :=
       {| t_ID := 7; t_Name := "a table"; t_Owner := 11;
          t_Options := g_Options g; t_Players := players;
          t_Spectators := spectators; t_Replay := false; t_Progress := 0;
          t_Chat := [{| cm_UserID := 11; cm_Msg := "hi" |}];
          t_Game := g |};
     w_tables := {[ 7 ]};
     w_trace := [] |}.

(** alice is at the table; bob has left it and has no session. *)
Definition players : list Player :=
  [player 11 "alice" true (Some (session 1)); player 12 "bob" false None].

(** The game ended normally. *)
Definition live : World := world_of_table players [] (game_of 1 (-5) false).

(** The game ended by a timeout. *)
Definition timedOut : World := world_of_table players [] (game_of 3 (-5) false).

(** The game is a replay. *)
Definition replay : World := world_of_table players [] (game_of 1 (-5) true).

(** The game ended for idleness. *)
Definition idle : World := world_of_table players [] (game_of 6 (-5) false).

(** alice, the owner, is offline and bob is in the lobby; carol (user 13)
    was watching the game. *)
Definition allAway : World :=
  world_of_table
    [player 11 "alice" false None;
     player 12 "bob" false (Some (session 2))]
    [spectator 13 "carol" (Some (session 3))]
    (game_of 1 (-5) false).

(** alice, the owner, is offline and bob is at the table; carol was
    watching the game. *)
Definition ownerAway : World :=
  world_of_table
    [player 11 "alice" false None;
     player 12 "bob" true (Some (session 2))]
    [spectator 13 "carol" (Some (session 3))]
    (game_of 1 (-5) false).

(** dave (user 14) was watching the game and has no session. *)
Definition nilSpectator : World :=
  world_of_table players [spectator 14 "dave" None] (game_of 1 (-5) false).

End Sample.

(** ** Notions for the rest of the file *)

(** *** Seeds *)

Fixpoint allDigits (s : string) : bool :=
  match s with
  | String c s' => isDigit c && allDigits s'
  | EmptyString => true
  end.

(** The text [p<d>v<v>s<n>]. *)
Definition seedText (d : ascii) (v n : string) : string :=
  String "p" (String d (String "v" (v +:+ String "s" n))).

(** [s] has a part that [seedRegexp] matches: [p], a digit, [v], digits,
    [s], digits. *)
Definition hasSeedMatch (s : string) : Prop :=
  exists (pre : string) (d : ascii) (v n post : string),
    s = pre +:+ seedText d v (n +:+ post)
    /\ isDigit d = true
    /\ v <> EmptyString /\ allDigits v = true
    /\ n <> EmptyString /\ allDigits n = true.

(** *** The calls of [WriteDatabase] *)

(** The state after the gateway calls [cs]. *)
Definition add_calls (w : World) (cs : list DbCall) : World :=
  {| w_t := w_t w; w_tables := w_tables w;
     w_trace := w_trace w ++ map Db cs |}.

(** Lines 169-187: the row of the game. *)
Definition gameRow (E : Env) (t : Table) (g : Game) : GameRow :=
  {| gr_Name := t_Name t;
     gr_NumPlayers := len (g_Players g);
     gr_Variant := v_ID (variants E (o_Variant (g_Options g)));
     gr_Timed := o_Timed (g_Options g);
     gr_TimeBase := o_TimeBase (g_Options g);
     gr_TimePerTurn := o_TimePerTurn (g_Options g);
     gr_Speedrun := o_Speedrun (g_Options g);
     gr_CardCycle := o_CardCycle (g_Options g);
     gr_DeckPlays := o_DeckPlays (g_Options g);
     gr_EmptyClues := o_EmptyClues (g_Options g);
     gr_CharacterAssignments := o_CharacterAssignments (g_Options g);
     gr_Seed := g_Seed g;
     gr_Score := g_Score g;
     gr_NumTurns := g_Turn g;
     gr_EndCondition := g_EndCondition g;
     gr_DatetimeStarted := g_DatetimeStarted g;
     gr_DatetimeFinished := g_DatetimeFinished g |}.

(** Lines 199-213: the id of the character of a player, or the error of
    line 207. *)
Definition characterID (E : Env) (o : Options) (gp : GamePlayer)
  : GoResult Z :=
  if o_CharacterAssignments o then
    if String.eqb (gp_Character gp) "n/a" then Val (-1)
    else
      match characters E !! gp_Character gp with
      | None =>
          Err ("the character of " +:+ gp_Character gp +:+
               " does not exist in the characters map")
      | Some v => Val (ch_ID v)
      end
  else Val 0.

(** One row for each player of the game, in their order. *)
Definition participantCalls (E : Env) (t : Table) (id : Z)
    (gps : list GamePlayer) : list DbCall :=
  flat_map
    (fun gp =>
       match index (t_Players t) (gp_Index gp), characterID E (t_Options t) gp
       with
       | Some p, Val c =>
           [GameParticipants_Insert id (p_ID p) (gp_Index gp) c
              (gp_CharacterMetadata gp)]
       | _, _ => []
       end)
    gps.

(** The notes of one player that are not empty, from the order [j] on. *)
Fixpoint noteCallsFrom (userID id j : Z) (notes : list string)
  : list DbCall :=
  match notes with
  | [] => []
  | note :: notes' =>
      (if String.eqb note "" then []
       else [GameParticipantNotes_Insert userID id j note])
      ++ noteCallsFrom userID id (j + 1) notes'
  end.

Definition noteCalls (t : Table) (id : Z) (gps : list GamePlayer)
  : list DbCall :=
  flat_map
    (fun gp =>
       match index (t_Players t) (gp_Index gp) with
       | Some p => noteCallsFrom (p_ID p) id 0 (gp_Notes gp)
       | None => []
       end)
    gps.

Definition actionCallsFrom (id i : Z) (actions : list GameAction)
  : list DbCall :=
  imap (fun k a => GameActions_Insert id (i + Z.of_nat k) a) actions.

Definition gameOverCalls (E : Env) (id : Z) (g : Game) : list DbCall :=
  match gameOverAction E g with
  | Some a => [GameActions_Insert id (len (g_Actions2 g)) a]
  | None => []
  end.

Definition chatCalls (t : Table) (chat : list ChatMessage) : list DbCall :=
  map (fun m => ChatLog_Insert (cm_UserID m) (cm_Msg m)
                  ("table" +:+ Itoa (t_ID t)))
      chat.

Definition tagCalls (id : Z) (tags : list string) : list DbCall :=
  map (GameTags_Insert id) tags.

(** The calls of [WriteDatabase] before it turns to the stats, for a game
    that got the id [id]. *)
Definition recordCalls (E : Env) (t : Table) (g : Game) (id : Z)
  : list DbCall :=
  Games_Insert (gameRow E t g)
  :: participantCalls E t id (g_Players g)
  ++ noteCalls t id (g_Players g)
  ++ actionCallsFrom id 0 (g_Actions2 g)
  ++ gameOverCalls E id g
  ++ chatCalls t (t_Chat t)
  ++ tagCalls id (g_Tags g).

Definition isStatsCall (e : Event) : Prop :=
  match e with
  | Db (UserStats_Get _ _) | Db (UserStats_Update _ _ _)
  | Db (VariantStats_Get _) | Db (VariantStats_Update _ _ _) => True
  | _ => False
  end.

(** No empty note goes to the database. *)
Definition okNote (e : Event) : Prop :=
  match e with
  | Db (GameParticipantNotes_Insert _ _ _ note) => note <> EmptyString
  | _ => True
  end.

Definition isParticipantCall (e : Event) : Prop :=
  match e with
  | Db (GameParticipants_Insert _ _ _ _ _) => True
  | _ => False
  end.

Definition isNoteCall (c : DbCall) : Prop :=
  match c with
  | GameParticipantNotes_Insert _ _ _ _ => True
  | _ => False
  end.

Definition isRecordCall (e : Event) : Prop :=
  match e with
  | Db (Games_Insert _) | Db (GameParticipants_Insert _ _ _ _ _) => True
  | _ => False
  end.

(** A gateway on which every insertion of a note, of a chat message and of
    a tag fails, and so does every call for the stats of a user; the other
    calls succeed. *)
Definition flakyGateway : Models :=
  {| m_Games_Insert := fun _ _ => Val 100;
     m_GameParticipants_Insert := fun _ _ _ _ _ _ => None;
     m_GameParticipantNotes_Insert := fun _ _ _ _ _ => Some "no notes"%string;
     m_GameActions_Insert := fun _ _ _ _ => None;
     m_ChatLog_Insert := fun _ _ _ _ => Some "no chat"%string;
     m_GameTags_Insert := fun _ _ _ => Some "no tags"%string;
     m_UserStats_Get := fun _ userID _ =>
       if userID =? 11 then Err "no stats"
       else Val {| us_BestScores := Sample.emptyBest |};
     m_UserStats_Update := fun _ _ _ _ => Some "no update"%string;
     m_VariantStats_Get := fun _ _ =>
       Val {| vs_BestScores := Sample.emptyBest |};
     m_VariantStats_Update := fun _ _ _ _ => None;
     m_Games_GetNumSimilar := fun _ _ => Val 1 |}.

Definition flakyEnv : Env :=
  {| EndConditionNormal := 1;
     EndConditionTimeout := 3;
     EndConditionTerminated := 4;
     EndConditionIdleTimeout := 6;
     ActionTypeGameOver := 4;
     StatusLobby := 0;
     StatusSharedReplay := 4;
     variants := variants (Sample.env false);
     characters := ∅;
     durationToString := Itoa;
     models := flakyGateway |}.

(** The options of a game with character assignments, and the game of
    alice and bob with them: alice plays a character that the map does not
    have. *)
Definition withCharacters : Options :=
  {| o_Variant := "No Variant"; o_Timed := false; o_TimeBase := 0;
     o_TimePerTurn := 0; o_Speedrun := false; o_CardCycle := false;
     o_DeckPlays := false; o_EmptyClues := false;
     o_CharacterAssignments := true; o_Replay := false |}.

Definition unknownCharacter : World :=
  {| w_t :=
       {| t_ID := 7; t_Name := "a table"; t_Owner := 11;
          t_Options := withCharacters; t_Players := Sample.players;
          t_Spectators := []; t_Replay := false; t_Progress := 0;
          t_Chat := [];
          t_Game :=
            {| g_ID := 0;
               g_Options := withCharacters;
               g_Players :=
                 [{| gp_Name := "alice"; gp_Index := 0; gp_Time := -5;
                     gp_Hand := []; gp_Notes := [];
                     gp_Character := "Genius"; gp_CharacterMetadata := 0 |};
                  {| gp_Name := "bob"; gp_Index := 1; gp_Time := -7;
                     gp_Hand := []; gp_Notes := [];
                     gp_Character := "n/a"; gp_CharacterMetadata := 0 |}];
               g_Seed := "p2v0s1";
               g_Deck := [];
               g_Score := 20;
               g_Turn := 10;
               g_EndTurn := 0;
               g_DatetimeStarted := 1000;
               g_DatetimeFinished := 0;
               g_EndCondition := 1;
               g_EndPlayer := 0;
               g_Actions := [];
               g_Actions2 := [];
               g_Tags := [] |} |};
     w_tables := {[ 7 ]};
     w_trace := [] |}.

(** alice, the owner, is offline and bob is at the table; nobody was
    watching the game. *)
Definition ownerGone : World :=
  Sample.world_of_table
    [Sample.player 11 "alice" false None;
     Sample.player 12 "bob" true (Some (Sample.session 2))]
    []
    (Sample.game_of 1 (-5) false).

(** The sample environment with a [durationToString] on the 64-bit
    integers: it prints the number that its argument is as a
    [time.Duration]. *)
Definition int64Env : Env :=
  {| EndConditionNormal := 1;
     EndConditionTimeout := 3;
     EndConditionTerminated := 4;
     EndConditionIdleTimeout := 6;
     ActionTypeGameOver := 4;
     StatusLobby := 0;
     StatusSharedReplay := 4;
     variants := variants (Sample.env false);
     characters := ∅;
     durationToString := fun d => Itoa (wrap64 d);
     models := Sample.gateway false |}.

(** alice played alone: a game of one player. *)
Definition solo : World :=
  Sample.world_of_table Sample.players []
    {| g_ID := 0;
       g_Options := Sample.options false;
       g_Players := [Sample.gamePlayer "alice" 0 (-5) []];
       g_Seed := "p1v0s1";
       g_Deck := [];
       g_Score := 3;
       g_Turn := 10;
       g_EndTurn := 0;
       g_DatetimeStarted := 1000;
       g_DatetimeFinished := 0;
       g_EndCondition := 1;
       g_EndPlayer := 0;
       g_Actions := [];
       g_Actions2 := [];
       g_Tags := [] |}.

(** A run that returns, returns without an error. *)
Definition never_err (c : M (option error)) : Prop :=
  forall w r w', c w = Ok r w' -> r = None.

(** *** Messages *)

(** The databaseID messages in a trace: who gets one, and what it
    carries. *)
Definition databaseIDOf (e : Event) : option (option Session * Z * Z) :=
  match e with
  | Session_Emit s "databaseID" (IDMessage tableID gameID) =>
      Some (s, tableID, gameID)
  | _ => None
  end.

(** The reveal messages in a trace: who gets one, and the card. *)
Definition revealOf (e : Event) : option (option Session * Card) :=
  match e with
  | Session_Emit s "reveal" (RevealMessage suit rank order) =>
      Some (s, {| c_Suit := suit; c_Rank := rank; c_Order := order |})
  | _ => None
  end.

(** The reveal messages of lines 82-98 for the players [gps] of the game:
    to every player of the table who is present, the cards of the hand of
    that player. *)
Definition reveals (t : Table) (gps : list GamePlayer)
  : list (option Session * Card) :=
  flat_map
    (fun gp =>
       match index (t_Players t) (gp_Index gp) with
       | Some p =>
           if p_Present p then map (fun c => (p_Session p, c)) (gp_Hand gp)
           else []
       | None => []
       end)
    gps.

(** The event that carries a reveal message. *)
Definition revealEvent (r : option Session * Card) : Event :=
  Session_Emit (fst r) "reveal"
    (RevealMessage (c_Suit (snd r)) (c_Rank (snd r)) (c_Order (snd r))).

(** The state after lines 120-159, from the state [w3] in which
    [WriteDatabase] returned: the query for the games on the same seed,
    answered [numSimilar], and the gameHistory message to every player. *)
Definition withHistory (w3 : World) (numSimilar : Z) : World :=
  {| w_t := w_t w3;
     w_tables := w_tables w3;
     w_trace :=
       w_trace w3
       ++ Db (Games_GetNumSimilar (g_Seed (game w3)))
       :: map (fun p =>
                 Session_Emit (p_Session p) "gameHistory"
                   (GameHistoryList
                      [gameHistory (w_t w3) (game w3) numSimilar]))
              (t_Players (w_t w3)) |}.

(** What [End] leaves alone in the game and in the table. *)
Definition gameFrame (g : Game) :=
  (g_Options g, g_Players g, g_Seed g, g_Deck g, g_DatetimeStarted g,
   g_EndCondition g, g_EndPlayer g, g_Actions2 g, g_Tags g).

Definition tableFrame (t : Table) :=
  (t_ID t, t_Options t, t_Chat t,
   map (fun p => (p_ID p, p_Name p, p_Session p)) (t_Players t)).

(** The gameHistory message an event carries. *)
Definition historyOf (e : Event)
  : option (option Session * list GameHistory) :=
  match e with
  | Session_Emit s "gameHistory" (GameHistoryList l) => Some (s, l)
  | _ => None
  end.

(** *** The stats of the users *)

(** The modifier of a game as the comment of lines 312-316 has it: 0
    without extra options, 1 with deck plays, 2 with empty clues, 3 with
    both. *)
Definition statedModifier (o : Options) : Z :=
  match o_DeckPlays o, o_EmptyClues o with
  | false, false => 0
  | true, false => 1
  | false, true => 2
  | true, true => 3
  end.

(** One round of the loop of lines 302-341 in the words of the spec, for
    the player [p] when [h] is all that has happened so far: the stats of the
    player are asked for, and when they are answered they are written back
    with the best score of the bucket [i] replaced by [replacedBest].
    Without an answer the round ends there. [None]: the stats have no
    bucket [i]. *)
Definition userStatsRound (m : Models) (variant i score modifier : Z)
    (h : list Event) (p : Player) : option (list Event) :=
  let get := Db (UserStats_Get (p_ID p) variant) in
  match m_UserStats_Get m h (p_ID p) variant with
  | Err _ => Some [get]
  | Val stats =>
      match index (us_BestScores stats) i with
      | Some stored =>
          Some [get;
                Db (UserStats_Update (p_ID p) variant
                      {| us_BestScores :=
                           <[Z.to_nat i :=
                               replacedBest score modifier stored]>
                             (us_BestScores stats) |})]
      | None => None
      end
  end.

(** The rounds for the players [ps], one after the other. *)
Fixpoint userStatsRounds (m : Models) (variant i score modifier : Z)
    (h : list Event) (ps : list Player) : option (list Event) :=
  match ps with
  | [] => Some []
  | p :: ps' =>
      match userStatsRound m variant i score modifier h p with
      | Some round =>
          match userStatsRounds m variant i score modifier (h ++ round) ps'
          with
          | Some rounds => Some (round ++ rounds)
          | None => None
          end
      | None => None
      end
  end.

(** *** Deliveries *)

(** A message pushed to a live connection. *)
Inductive Push : Type :=
| PushEmit (s : Session) (command : string) (d : Message)
| PushReplayLeader (s : Session) (t_ID : Z) (b : bool)
| PushNoteList (s : Session) (t_ID : Z).

(** Modelled from the spec: the bodies of [Session.Emit],
    [Session.NotifyReplayLeader] and [Session.NotifyNoteList] are not in
    src. The spec has each of them a best-effort push to live connections,
    where delivery to an offline user is simply skipped and never queued:
    called on a session that is nil the method returns and nothing is
    pushed, called on a live one the message is pushed to it. *)
Definition pushOf (e : Event) : option Push :=
  match e with
  | Session_Emit (Some s) command d => Some (PushEmit s command d)
  | Session_NotifyReplayLeader (Some s) t_ID b =>
      Some (PushReplayLeader s t_ID b)
  | Session_NotifyNoteList (Some s) t_ID => Some (PushNoteList s t_ID)
  | _ => None
  end.

(** The pushes to a spectator at the end of the conversion, in the words
    of the spec: to one with a live session the replay-leader state, the
    note list and the databaseID message, to one without nothing. *)
Definition spectatorPushes (tableID gameID : Z) (sp : Spectator)
  : list Push :=
  match sp_Session sp with
  | Some s =>
      [PushReplayLeader s tableID false;
       PushNoteList s tableID;
       PushEmit s "databaseID" (IDMessage tableID gameID)]
  | None => []
  end.

(** The pushes to a player after the record, in the words of the spec:
    to one with a live session the gameHistory message, to one without
    nothing. *)
Definition historyPushes (h : GameHistory) (p : Player) : list Push :=
  match p_Session p with
  | Some s => [PushEmit s "gameHistory" (GameHistoryList [h])]
  | None => []
  end.

(** The events of a run all satisfy [P]. *)
Definition emits (P : Event -> Prop) : relation World := fun w w' =>
  exists l, w_trace w' = w_trace w ++ l /\ Forall P l.

(** Lower case for the letters A to Z, which is what [strings.ToLower]
    does to a text of ASCII bytes. *)
Definition lowerByte (c : ascii) : ascii :=
  if (("A" <=? c) && (c <=? "Z"))%char
  then ascii_of_nat (nat_of_ascii c + 32)
  else c.

Fixpoint lowerASCII (s : string) : string :=
  match s with
  | String c s' => String (lowerByte c) (lowerASCII s')
  | EmptyString => EmptyString
  end.


(** * Properties *)

Section Preserve.

Context (R : relation World) `{!PreOrder R}.

Lemma preserves_ret {A : Type} (a : A) : preserves R (ret a).
Proof. intros w. simpl. reflexivity. Qed.

Lemma preserves_panic {A : Type} : preserves R (@panic A).
Proof. intros w. simpl. reflexivity. Qed.

Lemma preserves_get_t : preserves R get_t.
Proof. intros w. simpl. reflexivity. Qed.

Lemma preserves_get_g : preserves R get_g.
Proof. intros w. simpl. reflexivity. Qed.

Lemma preserves_bind {A B : Type} (c : M A) (k : A -> M B) :
  preserves R c -> (forall a, preserves R (k a)) -> preserves R (bind c k).
Proof.
  intros Hc Hk w. unfold bind. specialize (Hc w).
  destruct (c w) as [a w1|w1]; simpl in *; [|exact Hc].
  transitivity w1; [exact Hc|apply Hk].
Qed.

Lemma preserves_at_index {A : Type} (l : list A) (i : Z) :
  preserves R (at_index l i).
Proof.
  unfold at_index. destruct (index l i);
    [apply preserves_ret|apply preserves_panic].
Qed.

Lemma preserves_forEach {A : Type} (body : A -> M unit) (l : list A) :
  (forall x, preserves R (body x)) -> preserves R (forEach body l).
Proof.
  intros Hb. induction l as [|x l IH]; simpl.
  - apply preserves_ret.
  - apply preserves_bind; [apply Hb|intros _; exact IH].
Qed.

Lemma preserves_forRange {A : Type} (body : Z -> A -> M (option error))
    (i : Z) (l : list A) :
  (forall j x, preserves R (body j x)) -> preserves R (forRange body i l).
Proof.
  intros Hb. revert i. induction l as [|x l IH]; intros i; simpl.
  - apply preserves_ret.
  - apply preserves_bind; [apply Hb|].
    intros [err|]; [apply preserves_ret|apply IH].
Qed.

Lemma preserves_forFold {A S : Type} (body : S -> A -> M S) (s : S)
    (l : list A) :
  (forall s x, preserves R (body s x)) -> preserves R (forFold body s l).
Proof.
  intros Hb. revert s. induction l as [|x l IH]; intros s; simpl.
  - apply preserves_ret.
  - apply preserves_bind; [apply Hb|intros s'; apply IH].
Qed.

Lemma preserves_forBreak {A : Type} (body : A -> M bool) (l : list A) :
  (forall x, preserves R (body x)) -> preserves R (forBreak body l).
Proof.
  intros Hb. induction l as [|x l IH]; simpl.
  - apply preserves_ret.
  - apply preserves_bind; [apply Hb|].
    intros [|]; [apply preserves_ret|exact IH].
Qed.

Lemma preserves_check (c k : M (option error)) :
  preserves R c -> preserves R k -> preserves R (check c k).
Proof.
  intros Hc Hk. unfold check. apply preserves_bind; [exact Hc|].
  intros [err|]; [apply preserves_ret|exact Hk].
Qed.

End Preserve.

(** Splits a run into its steps; [prim] closes the steps that change the
    state. *)
Ltac preorder_goal :=
  lazymatch goal with
  | |- PreOrder _ => apply _
  | _ => idtac
  end.

Ltac preserve_step prim :=
  lazymatch goal with
  | |- preserves _ (ret _) => apply preserves_ret; preorder_goal
  | |- preserves _ panic => apply preserves_panic; preorder_goal
  | |- preserves _ get_t => apply preserves_get_t; preorder_goal
  | |- preserves _ get_g => apply preserves_get_g; preorder_goal
  | |- preserves _ (at_index _ _) => apply preserves_at_index; preorder_goal
  | |- preserves _ (check _ _) => apply preserves_check; preorder_goal
  | |- preserves _ (bind _ _) =>
      apply preserves_bind; preorder_goal; [|intros ?]
  | |- preserves _ (forEach _ _) =>
      apply preserves_forEach; preorder_goal; intros ?
  | |- preserves _ (forRange _ _ _) =>
      apply preserves_forRange; preorder_goal; intros ? ?
  | |- preserves _ (forFold _ _ _) =>
      apply preserves_forFold; preorder_goal; intros ? ?
  | |- preserves _ (forBreak _ _) =>
      apply preserves_forBreak; preorder_goal; intros ?
  | |- preserves _ (if ?b then _ else _) => destruct b
  | |- preserves _ (match ?x with _ => _ end) => destruct x
  | |- preserves _ _ => prim
  end.

Ltac preserve_with prim := repeat (preserve_step prim).

#[local] Instance only_db_preorder : PreOrder only_db.
Proof.
  split.
  - intros w. unfold only_db. split; [reflexivity|]. split.
    + exists (g_ID (game w)). unfold game.
      destruct (w_t w) as [? ? ? ? ? ? ? ? ? []]. reflexivity.
    + exists []. rewrite app_nil_r. auto.
  - intros w1 w2 w3 (Ht1 & [i1 Hi1] & [l1 [Hl1 Hd1]])
      (Ht2 & [i2 Hi2] & [l2 [Hl2 Hd2]]).
    split; [congruence|]. split.
    + exists i2. rewrite Hi2. unfold game. rewrite Hi1. reflexivity.
    + exists (l1 ++ l2). rewrite Hl2, Hl1, app_assoc. split; [reflexivity|].
      apply Forall_app. auto.
Qed.

#[local] Instance same_on_preorder {B : Type} (f : Game -> B) :
  PreOrder (same_on f).
Proof.
  split.
  - intros w. reflexivity.
  - intros w1 w2 w3 H1 H2. unfold same_on in *. congruence.
Qed.

#[local] Instance same_t_on_preorder {B : Type} (f : Table -> B) :
  PreOrder (same_t_on f).
Proof.
  split.
  - intros w. reflexivity.
  - intros w1 w2 w3 H1 H2. unfold same_t_on in *. congruence.
Qed.

#[local] Instance only_events_preorder : PreOrder only_events.
Proof.
  split.
  - intros w. unfold only_events. repeat split. exists [].
    symmetry. apply app_nil_r.
  - intros w1 w2 w3 (? & ? & [l1 H1]) (? & ? & [l2 H2]).
    unfold only_events. repeat split; try congruence.
    exists (l1 ++ l2). rewrite H2, H1. symmetry. apply app_assoc.
Qed.

#[local] Instance no_action_insert_preorder : PreOrder no_action_insert.
Proof.
  split.
  - intros w. unfold no_action_insert. auto.
  - intros w1 w2 w3 [? ?] [? ?]. unfold no_action_insert.
    split; congruence.
Qed.

(** *** What the steps that change the state keep *)

Lemma only_db_db {A : Type} (c : DbCall) (answer : list Event -> A) :
  preserves only_db (db c answer).
Proof.
  intros w. simpl. split; [reflexivity|]. split.
  - exists (g_ID (game w)). unfold game.
    destruct (w_t w) as [? ? ? ? ? ? ? ? ? []]. reflexivity.
  - exists [Db c]. split; [reflexivity|]. repeat constructor.
Qed.

Lemma only_db_set_g_ID (v : Z) : preserves only_db (update_g (set_g_ID v)).
Proof.
  intros w. simpl. split; [reflexivity|]. split.
  - exists v. reflexivity.
  - exists []. rewrite app_nil_r. auto.
Qed.

Section SameOn.

Context {B : Type} (f : Game -> B).

Lemma same_on_emit (e : Event) : preserves (same_on f) (emit e).
Proof. intros w. reflexivity. Qed.

Lemma same_on_db {A : Type} (c : DbCall) (answer : list Event -> A) :
  preserves (same_on f) (db c answer).
Proof. intros w. reflexivity. Qed.

Lemma same_on_delete_tables (id : Z) :
  preserves (same_on f) (delete_tables id).
Proof. intros w. reflexivity. Qed.

Lemma same_on_update_t (h : Table -> Table) :
  (forall t, t_Game (h t) = t_Game t) -> preserves (same_on f) (update_t h).
Proof. intros Hh w. unfold same_on, game. simpl. rewrite Hh. reflexivity. Qed.

Lemma same_on_update_g (h : Game -> Game) :
  (forall g, f (h g) = f g) -> preserves (same_on f) (update_g h).
Proof. intros Hh w. unfold same_on, game. simpl. apply Hh. Qed.

End SameOn.

Section SameTableOn.

Context {B : Type} (f : Table -> B).

Lemma same_t_on_emit (e : Event) : preserves (same_t_on f) (emit e).
Proof. intros w. reflexivity. Qed.

Lemma same_t_on_db {A : Type} (c : DbCall) (answer : list Event -> A) :
  preserves (same_t_on f) (db c answer).
Proof. intros w. reflexivity. Qed.

Lemma same_t_on_update_t (h : Table -> Table) :
  (forall t, f (h t) = f t) -> preserves (same_t_on f) (update_t h).
Proof. intros Hh w. unfold same_t_on. simpl. apply Hh. Qed.

Lemma same_t_on_update_g (h : Game -> Game) :
  (forall g t, f (set_t_Game g t) = f t) ->
  preserves (same_t_on f) (update_g h).
Proof. intros Hh w. unfold same_t_on. simpl. apply Hh. Qed.

End SameTableOn.

Lemma only_events_emit (e : Event) : preserves only_events (emit e).
Proof. intros w. unfold only_events. simpl. eauto. Qed.

Lemma no_action_insert_db {A : Type} (c : DbCall) (answer : list Event -> A) :
  actionInsert (Db c) = None -> preserves no_action_insert (db c answer).
Proof.
  intros Hc w. unfold no_action_insert. simpl. split; [reflexivity|].
  unfold actionInserts. rewrite omap_app. cbn [omap list_omap].
  rewrite Hc. apply app_nil_r.
Qed.

Ltac only_db_prim :=
  idtac; first [ apply only_db_db | apply only_db_set_g_ID ].

Ltac same_on_prim :=
  idtac; first
    [ apply same_on_emit
    | apply same_on_db
    | apply same_on_delete_tables
    | apply same_on_update_t; intros ?; reflexivity
    | apply same_on_update_g; intros ?; reflexivity ].

Ltac same_t_on_prim :=
  idtac; first
    [ apply same_t_on_emit
    | apply same_t_on_db
    | apply same_t_on_update_t; intros ?; reflexivity
    | apply same_t_on_update_g; intros ? ?; reflexivity ].

Ltac no_action_insert_prim :=
  idtac; apply no_action_insert_db; reflexivity.

Section Frames.

Variable E : Env.

Ltac unfold_WriteDatabase :=
  unfold WriteDatabase, insertParticipant, insertNotes, insertAction,
    insertGameOver, insertChat, insertTag, updateUserStats,
    updateVariantStats, models_Games_Insert, models_GameParticipants_Insert,
    models_GameParticipantNotes_Insert, models_GameActions_Insert,
    models_ChatLog_Insert, models_GameTags_Insert, models_UserStats_Get,
    models_UserStats_Update, models_VariantStats_Get,
    models_VariantStats_Update.

Ltac unfold_ConvertToSharedReplay :=
  unfold ConvertToSharedReplay, toSpectator, electLeader, notifySpectator.

(** [WriteDatabase] only talks to the gateway, and only sets [g.ID]. *)
Lemma WriteDatabase_only_db : preserves only_db (WriteDatabase E).
Proof. unfold_WriteDatabase. preserve_with only_db_prim. Qed.

Lemma WriteDatabase_same_log : preserves (same_on log_of) (WriteDatabase E).
Proof. unfold_WriteDatabase. preserve_with same_on_prim. Qed.

Lemma ConvertToSharedReplay_same_log :
  preserves (same_on log_of) (ConvertToSharedReplay E).
Proof. unfold_ConvertToSharedReplay. preserve_with same_on_prim. Qed.

Lemma recordAndConvert_same_log :
  preserves (same_on log_of) (recordAndConvert E).
Proof.
  unfold recordAndConvert, models_Games_GetNumSimilar.
  preserve_with ltac:(first [ apply WriteDatabase_same_log
                            | apply ConvertToSharedReplay_same_log
                            | same_on_prim ]).
Qed.

Lemma signalGameOver_same_log : preserves (same_on log_of) (signalGameOver E).
Proof.
  unfold signalGameOver, reveal, resetStatus. preserve_with same_on_prim.
Qed.

Lemma appendDeckOrder_same_score :
  preserves (same_on g_Score) appendDeckOrder.
Proof. unfold appendDeckOrder, appendAction. preserve_with same_on_prim. Qed.

Lemma announceTimes_same_score :
  preserves (same_on g_Score) (announceTimes E).
Proof.
  unfold announceTimes, announceTime, appendAction.
  preserve_with same_on_prim.
Qed.

End Frames.

(** ** The score at the end ([End], lines 20-23) *)

Section Score.

Variable E : Env.

Lemma same_log_score {A : Type} (c : M A) :
  preserves (same_on log_of) c -> preserves (same_on g_Score) c.
Proof.
  intros H w. specialize (H w). unfold same_on, log_of in *. congruence.
Qed.

Lemma same_log_actions {A : Type} (c : M A) :
  preserves (same_on log_of) c -> preserves (same_on g_Actions) c.
Proof.
  intros H w. specialize (H w). unfold same_on, log_of in *. congruence.
Qed.

Lemma finalize_spec (now : Z) (w : World) :
  exists w1,
    finalize E now w = Ok tt w1
    /\ w_trace w1 = w_trace w
    /\ w_tables w1 = w_tables w
    /\ g_Score (game w1) = finalScore E (game w)
    /\ g_Actions (game w1) = g_Actions (game w)
    /\ g_Turn (game w1) = g_Turn (game w)
    /\ g_Deck (game w1) = g_Deck (game w)
    /\ g_Options (game w1) = g_Options (game w)
    /\ g_Players (game w1) = g_Players (game w)
    /\ g_DatetimeStarted (game w1) = g_DatetimeStarted (game w)
    /\ g_DatetimeFinished (game w1) = now.
Proof.
  unfold finalize, finalScore, bind, update_g, update_t, get_g, game. simpl.
  destruct (g_EndCondition (t_Game (w_t w)) >? EndConditionNormal E);
    eexists; (split; [reflexivity|]); simpl; repeat split; reflexivity.
Qed.

(** What [End] does after [finalize]. *)
Lemma End_after_finalize (now : Z) (w w1 : World) :
  finalize E now w = Ok tt w1 -> End E now w = afterFinalize E w1.
Proof. intros H. unfold End. unfold bind at 1. rewrite H. reflexivity. Qed.

Lemma afterFinalize_same_score :
  preserves (same_on g_Score) (afterFinalize E).
Proof.
  unfold afterFinalize.
  preserve_with ltac:(first
    [ apply appendDeckOrder_same_score
    | apply announceTimes_same_score
    | apply same_log_score, signalGameOver_same_log
    | apply same_log_score, recordAndConvert_same_log ]).
Qed.

(** The score that [End] leaves, by the comparison of line 21. The score
    is set by the first step of [End], which sends nothing and calls no
    gateway, and the rest of [End], with its announcements and its record
    in the database, runs from there and does not change it any more. *)
Lemma End_score_by_code (now : Z) (w : World) :
  g_Score (game (world_of (End E now w))) =
    (if g_EndCondition (game w) >? EndConditionNormal E then 0
     else g_Score (game w))
  /\ exists w1,
       finalize E now w = Ok tt w1
       /\ w_trace w1 = w_trace w
       /\ g_Score (game w1) = g_Score (game (world_of (End E now w)))
       /\ End E now w = afterFinalize E w1.
Proof.
  destruct (finalize_spec now w) as (w1 & Hf & Htr & _ & Hs & _).
  pose proof (End_after_finalize now w w1 Hf) as Hrest.
  assert (Hend : g_Score (game (world_of (End E now w))) = g_Score (game w1)).
  { rewrite Hrest. apply afterFinalize_same_score. }
  split.
  - rewrite Hend, Hs. reflexivity.
  - exists w1. auto.
Qed.

(** C7. For a game that has ended, that is, whose end condition is Normal
    or one of the codes after it: when the end condition is not Normal,
    [End] leaves the score 0, whatever the score computed during play; when
    it is Normal, the score is left as it was. The score is set by the first
    step of [End], before anything is sent and before any call to the
    gateway, and nothing that follows, announcements and record in the
    database included, changes it any more. *)
Theorem End_score (now : Z) (w : World) :
  EndConditionNormal E <= g_EndCondition (game w) ->
  (g_EndCondition (game w) <> EndConditionNormal E ->
   g_Score (game (world_of (End E now w))) = 0)
  /\ (g_EndCondition (game w) = EndConditionNormal E ->
      g_Score (game (world_of (End E now w))) = g_Score (game w))
  /\ exists w1,
       finalize E now w = Ok tt w1
       /\ w_trace w1 = w_trace w
       /\ g_Score (game w1) = g_Score (game (world_of (End E now w)))
       /\ End E now w = afterFinalize E w1.
Proof.
  intros Hge. destruct (End_score_by_code now w) as [Hs Hrest].
  split; [|split; [|exact Hrest]]; intros Hc; rewrite Hs.
  - replace (g_EndCondition (game w) >? EndConditionNormal E) with true
      by lia.
    reflexivity.
  - replace (g_EndCondition (game w) >? EndConditionNormal E) with false
      by lia.
    reflexivity.
Qed.

End Score.

(** ** A replay ([End], lines 26-44) *)

Section Replay.

Variable E : Env.

(** C5. For a game whose options mark it as a replay, [End] appends the
    deck-order action (every card of the deck, in order), notifies the table
    of it, and returns: the action log grows by exactly that action, the
    only event is that notification (so no text about a time, no call to the
    gateway, no stats written), the turn and the registry of tables are
    unchanged, and in the table nothing but the game has changed. *)
Theorem End_replay (now : Z) (w : World) :
  o_Replay (g_Options (game w)) = true ->
  exists w',
    End E now w = Ok tt w'
    /\ g_Actions (game w') = g_Actions (game w) ++ [deckOrder (game w)]
    /\ deckOrder (game w) =
         ActionDeckOrder "deckOrder"
           (map (fun c => {| sc_Suit := c_Suit c; sc_Rank := c_Rank c |})
                (g_Deck (game w)))
    /\ w_trace w' = w_trace w ++ [NotifyGameAction]
    /\ g_Turn (game w') = g_Turn (game w)
    /\ w_tables w' = w_tables w
    /\ w_t w' = set_t_Game (game w') (w_t w).
Proof.
  intros Hr.
  unfold End, afterFinalize, finalize, appendDeckOrder, appendAction, bind,
    update_g,
    update_t, get_g, emit, game in *. simpl.
  destruct (g_EndCondition (t_Game (w_t w)) >? EndConditionNormal E);
    simpl; rewrite Hr; eexists; (split; [reflexivity|]); simpl;
    repeat split; reflexivity.
Qed.

End Replay.

(** ** The texts about the times ([End], lines 46-72) *)

Lemma wrap64_small (z : Z) : in_int64 z -> wrap64 z = z.
Proof.
  unfold in_int64, min_int64, max_int64, wrap64. intros H.
  rewrite Z.mod_small; lia.
Qed.

(** Go's [x * -1] on a 64-bit integer. *)
Lemma wrap64_negate (z : Z) :
  in_int64 z ->
  wrap64 (z * -1) = if z =? min_int64 then min_int64 else - z.
Proof.
  intros H. destruct (Z.eqb_spec z min_int64) as [->|Hne].
  - reflexivity.
  - replace (z * -1) with (- z) by lia. apply wrap64_small.
    unfold in_int64, min_int64, max_int64 in *. lia.
Qed.

Section Times.

Variable E : Env.

Lemma appendAction_spec (a : Action) (w : World) :
  appendAction a w = Ok tt (add_action w a).
Proof. reflexivity. Qed.

Lemma fold_add_action_game (l : list Action) (w : World) :
  let w' := fold_left add_action l w in
  g_Actions (game w') = g_Actions (game w) ++ l
  /\ g_Options (game w') = g_Options (game w)
  /\ g_Players (game w') = g_Players (game w)
  /\ g_DatetimeStarted (game w') = g_DatetimeStarted (game w)
  /\ g_DatetimeFinished (game w') = g_DatetimeFinished (game w).
Proof.
  revert w. induction l as [|a l IH]; intros w; simpl.
  - rewrite app_nil_r. auto.
  - destruct (IH (add_action w a)) as (H1 & H2 & H3 & H4 & H5).
    rewrite H1, H2, H3, H4, H5. simpl. rewrite <- app_assoc.
    repeat split; reflexivity.
Qed.

Lemma forEach_announceTime (ps : list GamePlayer) (w : World) :
  forEach (announceTime E) ps w =
    Ok tt (fold_left add_action
             (map (fun p => ActionText "text"
                              (timeText E (o_Timed (g_Options (game w))) p))
                  ps)
             w).
Proof.
  revert w. induction ps as [|p ps IH]; intros w; simpl.
  - reflexivity.
  - unfold bind. unfold announceTime at 1. unfold bind, get_g.
    rewrite appendAction_spec. rewrite IH. reflexivity.
Qed.

Lemma announceTimes_spec (w : World) :
  announceTimes E w =
    Ok tt (fold_left add_action
             (map (fun p => ActionText "text"
                              (timeText E (o_Timed (g_Options (game w))) p))
                  (g_Players (game w))
              ++ [ActionText "text" (totalText E (game w))])
             w).
Proof.
  unfold announceTimes. unfold bind at 1. unfold get_g at 1.
  unfold bind at 1. fold (game w). rewrite forEach_announceTime.
  unfold bind, get_g. rewrite appendAction_spec, fold_left_app. simpl.
  match goal with
  | |- context [ t_Game (w_t ?x) ] => change (t_Game (w_t x)) with (game x)
  end.
  match goal with
  | |- context [ totalText E (game (fold_left add_action ?l w)) ] =>
      destruct (fold_add_action_game l w) as (_ & _ & _ & H4 & H5);
      unfold totalText; rewrite H4, H5
  end.
  reflexivity.
Qed.

(** The actions that [End] appends in a live game: the deck order, then
    the text of lines 49-55 for each player, in the order of the players,
    then the text about the whole game. *)
Lemma End_actions (now : Z) (w : World) :
  o_Replay (g_Options (game w)) = false ->
  g_Actions (game (world_of (End E now w))) =
    g_Actions (game w)
    ++ [deckOrder (game w)]
    ++ map (fun p => ActionText "text"
                       (timeText E (o_Timed (g_Options (game w))) p))
           (g_Players (game w))
    ++ [ActionText "text"
          ("The total game duration was: " +:+
           durationToString E (Time_Sub now (g_DatetimeStarted (game w))))].
Proof.
  intros Hr.
  destruct (finalize_spec E now w)
    as (w1 & Hf & _ & _ & _ & Ha & _ & Hd & Ho & Hp & Hs & Hn).
  rewrite (End_after_finalize E now w w1 Hf). unfold afterFinalize.
  unfold bind at 1. unfold appendDeckOrder at 1. unfold bind at 1.
  unfold get_g at 1. rewrite appendAction_spec.
  unfold bind at 1. unfold get_g at 1.
  set (w2 := add_action w1 (deckOrder (t_Game (w_t w1)))).
  change (t_Game (w_t w2)) with (game w2).
  assert (Ho2 : g_Options (game w2) = g_Options (game w)) by exact Ho.
  rewrite Ho2, Hr. unfold bind at 1. rewrite announceTimes_spec.
  match goal with
  | |- context [ fold_left add_action ?l w2 ] =>
      set (l3 := l); set (w3 := fold_left add_action l3 w2)
  end.
  transitivity (g_Actions (game w3)).
  { apply (same_log_actions _ (preserves_bind _ _ _
             (signalGameOver_same_log E)
             (fun _ => recordAndConvert_same_log E))). }
  destruct (fold_add_action_game l3 w2) as (H1 & _).
  fold w3 in H1. rewrite H1. subst l3.
  assert (Ha2 : g_Actions (game w2)
                = g_Actions (game w) ++ [deckOrder (game w)]).
  { unfold w2, game. simpl. fold (game w1). rewrite Ha.
    unfold deckOrder. fold (game w1). rewrite Hd. reflexivity. }
  assert (Hp2 : g_Players (game w2) = g_Players (game w)) by exact Hp.
  rewrite Ha2, Ho2, Hp2, <- app_assoc. f_equal. f_equal. f_equal.
  unfold totalText.
  assert (Hs2 : g_DatetimeStarted (game w2) = g_DatetimeStarted (game w))
    by exact Hs.
  assert (Hn2 : g_DatetimeFinished (game w2) = now) by exact Hn.
  rewrite Hs2, Hn2. reflexivity.
Qed.

(** The text of lines 49-55 is the text in the words of the spec, for a
    [durationToString] that reads its argument as the 64-bit integer a
    [time.Duration] is. *)
Lemma timeText_stated (timed : bool) (p : GamePlayer) :
  (forall d, durationToString E d = durationToString E (wrap64 d)) ->
  timeText E timed p = statedTimeAnnouncement E timed p.
Proof.
  intros Hd. unfold timeText, statedTimeAnnouncement.
  destruct timed; [reflexivity|].
  rewrite <- Hd. replace (gp_Time p * -1) with (- gp_Time p) by lia.
  reflexivity.
Qed.

(** C9. In a live game, the actions that [End] appends are the deck
    order, then one text per player, in the order of the players, then the
    text about the whole game. In a timed game the text of a player reports
    the stored clock as it is; in an untimed game it reports the negation
    of the stored value. The clocks and what [durationToString] is given
    are values of [time.Duration], a 64-bit integer: what it prints depends
    on its argument as such an integer only. *)
Theorem End_time_announcements (now : Z) (w : World) :
  (forall d, durationToString E d = durationToString E (wrap64 d)) ->
  o_Replay (g_Options (game w)) = false ->
  g_Actions (game (world_of (End E now w))) =
    g_Actions (game w)
    ++ [deckOrder (game w)]
    ++ map (fun p => ActionText "text"
                       (statedTimeAnnouncement E
                          (o_Timed (g_Options (game w))) p))
           (g_Players (game w))
    ++ [ActionText "text"
          ("The total game duration was: " +:+
           durationToString E (Time_Sub now (g_DatetimeStarted (game w))))].
Proof.
  intros Hd Hr. rewrite (End_actions now w Hr). do 2 f_equal.
  f_equal. apply map_ext. intros p. f_equal. apply timeText_stated, Hd.
Qed.

End Times.

(** ** The stats ([WriteDatabase], lines 301-373) *)

Lemma index_Some_insert {A : Type} (l : list A) (i : Z) (x y : A) :
  index l i = Some x -> index (<[Z.to_nat i := y]> l) i = Some y.
Proof.
  unfold index. destruct (i <? 0); [discriminate|]. intros H.
  apply list_lookup_insert_eq. eapply lookup_lt_Some, H.
Qed.

Lemma userBestScore_replacedBest (score modifier : Z) (stored : BestScore) :
  userBestScore score modifier stored = replacedBest score modifier stored.
Proof.
  unfold userBestScore, replacedBest.
  destruct (Z.compare_spec score (bs_Score stored)) as [H|H|H].
  - rewrite H, Z.eqb_refl.
    replace (bs_Score stored >? bs_Score stored) with false by lia.
    reflexivity.
  - replace (score >? bs_Score stored) with false by lia.
    replace (score =? bs_Score stored) with false by lia.
    reflexivity.
  - replace (score >? bs_Score stored) with true by lia.
    reflexivity.
Qed.

Lemma replacedBest_monotonic (score modifier : Z) (stored : BestScore) :
  let b := replacedBest score modifier stored in
  bs_Score stored <= bs_Score b
  /\ (bs_Score b = bs_Score stored -> bs_Modifier b <= bs_Modifier stored).
Proof.
  unfold replacedBest.
  destruct (Z.compare_spec score (bs_Score stored)) as [H|H|H]; simpl.
  - destruct (Z.ltb_spec modifier (bs_Modifier stored)); simpl; lia.
  - lia.
  - lia.
Qed.

Section Stats.

Variable E : Env.

(** The modifier of a game: 0 without extra options, 1 with deck plays, 2
    with empty clues, 3 with both. *)
Lemma modifier_of_values (o : Options) :
  modifier_of o =
    match o_DeckPlays o, o_EmptyClues o with
    | false, false => 0
    | true, false => 1
    | false, true => 2
    | true, true => 3
    end.
Proof.
  unfold modifier_of. destruct (o_DeckPlays o), (o_EmptyClues o); reflexivity.
Qed.


End Stats.

(** ** The actions in the database ([WriteDatabase], lines 244-280) *)

Lemma bind_Ok_inv {A B : Type} (c : M A) (k : A -> M B) (w w' : World)
    (b : B) :
  bind c k w = Ok b w' -> exists a w1, c w = Ok a w1 /\ k a w1 = Ok b w'.
Proof.
  unfold bind. destruct (c w) as [a w1|w1]; [|discriminate].
  intros H. exists a, w1. auto.
Qed.

Lemma check_None_inv (c k : M (option error)) (w w' : World) :
  check c k w = Ok None w' ->
  exists w1, c w = Ok None w1 /\ k w1 = Ok None w'.
Proof.
  unfold check. intros H. apply bind_Ok_inv in H as (r & w1 & Hc & Hk).
  destruct r as [err|]; [discriminate|]. exists w1. auto.
Qed.

Lemma preserves_Ok (R : relation World) {A : Type} (c : M A) (w w' : World)
    (a : A) :
  preserves R c -> c w = Ok a w' -> R w w'.
Proof. intros H Hc. specialize (H w). rewrite Hc in H. exact H. Qed.

Section Actions.

Variable E : Env.

Lemma participants_no_action_insert (i : Z) (l : list GamePlayer) :
  preserves no_action_insert (forRange (insertParticipant E) i l).
Proof.
  unfold insertParticipant, models_GameParticipants_Insert.
  preserve_with no_action_insert_prim.
Qed.

Lemma notes_no_action_insert (i : Z) (l : list GamePlayer) :
  preserves no_action_insert (forRange (insertNotes E) i l).
Proof.
  unfold insertNotes, models_GameParticipantNotes_Insert.
  preserve_with no_action_insert_prim.
Qed.

Lemma chat_no_action_insert (i : Z) (l : list ChatMessage) :
  preserves no_action_insert (forRange (fun _ => insertChat E) i l).
Proof.
  unfold insertChat, models_ChatLog_Insert.
  preserve_with no_action_insert_prim.
Qed.

Lemma tags_no_action_insert (i : Z) (l : list string) :
  preserves no_action_insert (forRange (fun _ => insertTag E) i l).
Proof.
  unfold insertTag, models_GameTags_Insert.
  preserve_with no_action_insert_prim.
Qed.

Lemma userStats_no_action_insert (i : Z) (l : list Player) :
  preserves no_action_insert (forRange (fun _ => updateUserStats E) i l).
Proof.
  unfold updateUserStats, models_UserStats_Get, models_UserStats_Update.
  preserve_with no_action_insert_prim.
Qed.

Lemma variantStats_no_action_insert :
  preserves no_action_insert (updateVariantStats E).
Proof.
  unfold updateVariantStats, models_VariantStats_Get,
    models_VariantStats_Update.
  preserve_with no_action_insert_prim.
Qed.

(** The loop over [g.Actions2], when no insertion fails. *)
Lemma insertAction_loop (l : list GameAction) (i : Z) (w w' : World) :
  forRange (insertAction E) i l w = Ok None w' ->
  game w' = game w
  /\ actionInserts (w_trace w') =
       actionInserts (w_trace w)
       ++ imap (fun k a => (g_ID (game w), i + Z.of_nat k, a)) l.
Proof.
  revert i w. induction l as [|a l IH]; intros i w H; simpl in H.
  - injection H as <-. simpl. rewrite app_nil_r. auto.
  - apply bind_Ok_inv in H as (r & w1 & Hb & Hk).
    unfold insertAction, bind, get_g, models_GameActions_Insert, db in Hb.
    injection Hb as Hr <-. destruct r as [err|]; [discriminate|].
    apply IH in Hk as [Hg Ha]. split; [exact Hg|].
    rewrite Ha. simpl. unfold actionInserts at 1. rewrite omap_app.
    cbn [omap list_omap actionInsert]. rewrite <- app_assoc. simpl.
    f_equal. f_equal.
    + f_equal. f_equal. lia.
    + apply imap_ext. intros k x _. simpl. f_equal. f_equal. lia.
Qed.

(** The game-over action, when its insertion does not fail. *)
Lemma insertGameOver_spec (w w' : World) :
  insertGameOver E w = Ok None w' ->
  game w' = game w
  /\ actionInserts (w_trace w') =
       actionInserts (w_trace w)
       ++ match gameOverAction E (game w) with
          | Some a => [(g_ID (game w), len (g_Actions2 (game w)), a)]
          | None => []
          end.
Proof.
  unfold insertGameOver, bind, get_g. fold (game w).
  destruct (gameOverAction E (game w)) as [a|].
  - unfold models_GameActions_Insert, db. intros H. injection H as _ <-.
    split; [reflexivity|]. simpl. unfold actionInserts. rewrite omap_app.
    reflexivity.
  - intros H. injection H as <-. rewrite app_nil_r. auto.
Qed.

(** There is a game-over action exactly for the three end conditions. *)
Lemma gameOverAction_is_Some (g : Game) :
  is_Some (gameOverAction E g) <->
  g_EndCondition g = EndConditionTimeout E
  \/ g_EndCondition g = EndConditionTerminated E
  \/ g_EndCondition g = EndConditionIdleTimeout E.
Proof.
  unfold gameOverAction.
  destruct (Z.eqb_spec (g_EndCondition g) (EndConditionTimeout E));
    [split; eauto|].
  destruct (Z.eqb_spec (g_EndCondition g) (EndConditionTerminated E));
    [split; eauto|].
  destruct (Z.eqb_spec (g_EndCondition g) (EndConditionIdleTimeout E));
    [split; eauto|].
  split; [intros [? ?]; discriminate|]. intros [?|[?|?]]; contradiction.
Qed.

(** C8. When [WriteDatabase] returns without an error, the calls it made
    to [models.GameActions.Insert] are, in this order: one for each action
    of the persisted action log [g.Actions2], with the position of the
    action in the log as index; then, exactly when the end condition is
    Timeout, Terminated or IdleTimeout, one for a game-over action, with the
    length of that log as index. The game-over action is in neither of the
    action logs of the game, which are as they were. *)
Theorem WriteDatabase_actions (w w' : World) :
  WriteDatabase E w = Ok None w' ->
  let g := game w in
  actionInserts (w_trace w') =
    actionInserts (w_trace w)
    ++ persistedActions (g_ID (game w')) (g_Actions2 g) (gameOverAction E g)
  /\ persistedActions (g_ID (game w')) (g_Actions2 g) (gameOverAction E g) =
       imap (fun i a => (g_ID (game w'), Z.of_nat i, a)) (g_Actions2 g)
       ++ match gameOverAction E g with
          | Some a => [(g_ID (game w'), len (g_Actions2 g), a)]
          | None => []
          end
  /\ (is_Some (gameOverAction E g) <->
      g_EndCondition g = EndConditionTimeout E
      \/ g_EndCondition g = EndConditionTerminated E
      \/ g_EndCondition g = EndConditionIdleTimeout E)
  /\ (forall a, gameOverAction E g = Some a ->
      ga_Type a = ActionTypeGameOver E /\ ga_Value a = g_EndCondition g)
  /\ g_Actions2 (game w') = g_Actions2 g
  /\ g_Actions (game w') = g_Actions g.
Proof.
  intros H g.
  unfold WriteDatabase in H.
  apply bind_Ok_inv in H as (t & w0 & Ht & H). injection Ht as <- <-.
  apply bind_Ok_inv in H as (g0 & w0 & Hg & H). injection Hg as <- <-.
  apply bind_Ok_inv in H as (r & w1 & Hr & H).
  unfold models_Games_Insert, db in Hr. injection Hr as Hr <-.
  destruct r as [v|err]; [|discriminate]. clear Hr.
  apply bind_Ok_inv in H as ([] & w2 & Hu & H). injection Hu as <-.
  match type of H with _ ?x = _ => set (w2 := x) in * end.
  assert (Hg2 : game w2 = set_g_ID v g) by reflexivity.
  assert (Ha2 : actionInserts (w_trace w2) = actionInserts (w_trace w)).
  { unfold w2. simpl. unfold actionInserts. rewrite omap_app.
    apply app_nil_r. }
  apply check_None_inv in H as (w3 & H3 & H).
  apply (preserves_Ok no_action_insert) in H3 as [Hg3 Ha3];
    [|apply participants_no_action_insert].
  apply check_None_inv in H as (w4 & H4 & H).
  apply (preserves_Ok no_action_insert) in H4 as [Hg4 Ha4];
    [|apply notes_no_action_insert].
  apply check_None_inv in H as (w5 & H5 & H).
  apply insertAction_loop in H5 as [Hg5 Ha5].
  apply check_None_inv in H as (w6 & H6 & H).
  apply insertGameOver_spec in H6 as [Hg6 Ha6].
  apply check_None_inv in H as (w7 & H7 & H).
  apply (preserves_Ok no_action_insert) in H7 as [Hg7 Ha7];
    [|apply chat_no_action_insert].
  apply check_None_inv in H as (w8 & H8 & H).
  apply (preserves_Ok no_action_insert) in H8 as [Hg8 Ha8];
    [|apply tags_no_action_insert].
  apply check_None_inv in H as (w9 & H9 & H).
  apply (preserves_Ok no_action_insert) in H9 as [Hg9 Ha9];
    [|apply userStats_no_action_insert].
  apply (preserves_Ok no_action_insert) in H as [Hg10 Ha10];
    [|apply variantStats_no_action_insert].
  assert (Hgw : game w' = set_g_ID v g) by congruence.
  assert (Hg5' : game w5 = set_g_ID v g) by congruence.
  assert (Hg4' : game w4 = set_g_ID v g) by congruence.
  split; [|split; [reflexivity|split; [apply gameOverAction_is_Some|]]].
  - rewrite Ha10, Ha9, Ha8, Ha7, Ha6, Ha5, Ha4, Ha3, Ha2, Hg5', Hg4', Hgw.
    unfold persistedActions. rewrite <- app_assoc. simpl.
    reflexivity.
  - split; [|rewrite Hgw; split; reflexivity].
    intros a. unfold gameOverAction.
    destruct (Z.eqb_spec (g_EndCondition g) (EndConditionTimeout E));
      [intros [= <-]; simpl; auto|].
    destruct (Z.eqb_spec (g_EndCondition g) (EndConditionTerminated E));
      [intros [= <-]; simpl; auto|].
    destruct (Z.eqb_spec (g_EndCondition g) (EndConditionIdleTimeout E));
      [intros [= <-]; simpl; auto|discriminate].
Qed.

End Actions.

(** ** A failed record in the database ([End], lines 115-127) *)

Section FailedWrite.

Variable E : Env.

Lemma finalize_same_options (now : Z) :
  preserves (same_on g_Options) (finalize E now).
Proof. unfold finalize. preserve_with same_on_prim. Qed.

Lemma appendDeckOrder_same_options :
  preserves (same_on g_Options) appendDeckOrder.
Proof. unfold appendDeckOrder, appendAction. preserve_with same_on_prim. Qed.

Lemma finalize_same_players (now : Z) :
  preserves (same_t_on t_Players) (finalize E now).
Proof. unfold finalize. preserve_with same_t_on_prim. Qed.

Lemma appendDeckOrder_same_players :
  preserves (same_t_on t_Players) appendDeckOrder.
Proof. unfold appendDeckOrder, appendAction. preserve_with same_t_on_prim. Qed.

Lemma announceTimes_same_players :
  preserves (same_t_on t_Players) (announceTimes E).
Proof.
  unfold announceTimes, announceTime, appendAction.
  preserve_with same_t_on_prim.
Qed.

(** A live game: [End] is [beforeWrite] followed by [recordAndConvert]. *)
Lemma End_live (now : Z) (w w2 : World) :
  o_Replay (g_Options (game w)) = false ->
  beforeWrite E now w = Ok tt w2 ->
  End E now w = recordAndConvert E w2.
Proof.
  intros Hr H. unfold beforeWrite in H.
  apply bind_Ok_inv in H as ([] & wa & Ha & H).
  apply bind_Ok_inv in H as ([] & wb & Hb & H).
  apply bind_Ok_inv in H as ([] & wc & Hc & H).
  assert (Ho : g_Options (game wb) = g_Options (game w)).
  { transitivity (g_Options (game wa)).
    - eapply (preserves_Ok (same_on g_Options)), Hb.
      apply appendDeckOrder_same_options.
    - eapply (preserves_Ok (same_on g_Options)), Ha.
      apply finalize_same_options. }
  unfold End, afterFinalize.
  unfold bind at 1. rewrite Ha. unfold bind at 1. rewrite Hb.
  unfold bind at 1. unfold get_g at 1. fold (game wb). rewrite Ho, Hr.
  unfold bind at 1. rewrite Hc. unfold bind at 1. rewrite H. reflexivity.
Qed.

Lemma reveal_only_events (l : list GamePlayer) :
  preserves only_events (forEach reveal l).
Proof. unfold reveal. preserve_with ltac:(idtac; apply only_events_emit). Qed.

Lemma forEach_resetStatus (ps : list Player) (w : World) :
  forEach (resetStatus E) ps w =
    Ok tt {| w_t := w_t w; w_tables := w_tables w;
             w_trace := w_trace w ++ statusResets E ps |}.
Proof.
  revert w. induction ps as [|p ps IH]; intros w; simpl.
  - rewrite app_nil_r. destruct w. reflexivity.
  - unfold bind. unfold resetStatus at 1.
    destruct (p_Session p) as [s|]; simpl.
    + rewrite IH. simpl. rewrite <- !app_assoc. reflexivity.
    + rewrite IH. reflexivity.
Qed.

(** What [signalGameOver] sends, when it returns. *)
Lemma signalGameOver_trace (w w2 : World) :
  signalGameOver E w = Ok tt w2 ->
  exists reveals,
    w_trace w2 =
      w_trace w ++ [NotifyTurn; NotifyGameOver] ++ reveals
      ++ [notifyAllTableGone] ++ statusResets E (t_Players (w_t w)).
Proof.
  unfold signalGameOver. intros H.
  apply bind_Ok_inv in H as (g & w0 & Hg & H). injection Hg as <- <-.
  apply bind_Ok_inv in H as ([] & w0 & Hu & H). injection Hu as <-.
  apply bind_Ok_inv in H as ([] & w0 & Hu & H). injection Hu as <-.
  apply bind_Ok_inv in H as ([] & w0 & Hu & H). injection Hu as <-.
  apply bind_Ok_inv in H as ([] & w1 & Hrev & H).
  apply (preserves_Ok only_events) in Hrev as (Ht1 & _ & [reveals Hl]);
    [|apply reveal_only_events].
  apply bind_Ok_inv in H as ([] & w0 & Hu & H). injection Hu as <-.
  apply bind_Ok_inv in H as (t & w0 & Hu & H). injection Hu as <- <-.
  rewrite forEach_resetStatus in H. injection H as <-. simpl.
  exists reveals. rewrite Ht1, Hl. simpl. rewrite <- !app_assoc. reflexivity.
Qed.

(** C3. In a live game, when [WriteDatabase] returns an error, or returns
    without one and the query for the number of games on the same seed
    fails, [End] returns and all that happened after the write began are
    calls to the gateway: no message is sent to any player (so no
    gameHistory) and nothing of [ConvertToSharedReplay] takes place (the
    table, its spectators, its owner and the registry are as they were; only
    the id of the game may be set). What was sent before the write is still
    there, in the same order: the game-over signal, the table-gone notice
    and the status resets of the players. *)
Theorem End_failed_write (now : Z) (w w2 w3 : World) (r : option error) :
  o_Replay (g_Options (game w)) = false ->
  beforeWrite E now w = Ok tt w2 ->
  WriteDatabase E w2 = Ok r w3 ->
  is_Some r
  \/ (exists err, m_Games_GetNumSimilar (models E) (w_trace w3)
                    (g_Seed (game w3)) = Err err) ->
  exists (w' : World) (calls before reveals : list Event),
    End E now w = Ok tt w'
    /\ w_trace w' = w_trace w2 ++ calls
    /\ Forall isDb calls
    /\ w_tables w' = w_tables w2
    /\ (exists id, w_t w' = set_t_Game (set_g_ID id (game w2)) (w_t w2))
    /\ w_trace w2 =
         before ++ [NotifyTurn; NotifyGameOver] ++ reveals
         ++ [notifyAllTableGone] ++ statusResets E (t_Players (w_t w)).
Proof.
  intros Hr Hb Hw Hfail.
  rewrite (End_live now w w2 Hr Hb).
  pose proof (preserves_Ok only_db _ _ _ _ (WriteDatabase_only_db E) Hw)
    as (Htab & [id Hid] & [l [Hl Hdb]]).
  assert (Htrace : exists before reveals,
    w_trace w2 =
      before ++ [NotifyTurn; NotifyGameOver] ++ reveals
      ++ [notifyAllTableGone] ++ statusResets E (t_Players (w_t w))).
  { unfold beforeWrite in Hb.
    apply bind_Ok_inv in Hb as ([] & wa & Ha & Hb).
    apply bind_Ok_inv in Hb as ([] & wb & Hb' & Hb).
    apply bind_Ok_inv in Hb as ([] & wc & Hc & Hb).
    apply signalGameOver_trace in Hb as [reveals Hb].
    exists (w_trace wc), reveals. rewrite Hb.
    cut (t_Players (w_t wc) = t_Players (w_t w)); [intros ->; reflexivity|].
    transitivity (t_Players (w_t wb)).
    { eapply (preserves_Ok (same_t_on t_Players)), Hc.
      apply announceTimes_same_players. }
    transitivity (t_Players (w_t wa)).
    { eapply (preserves_Ok (same_t_on t_Players)), Hb'.
      apply appendDeckOrder_same_players. }
    eapply (preserves_Ok (same_t_on t_Players)), Ha.
    apply finalize_same_players. }
  destruct Htrace as (before & reveals & Htrace).
  unfold recordAndConvert. unfold bind at 1. rewrite Hw.
  destruct r as [err|].
  - exists w3, l, before, reveals. repeat split; eauto.
  - destruct Hfail as [[? Hx]|[err Herr]]; [discriminate|].
    unfold bind, get_g, models_Games_GetNumSimilar, db. fold (game w3).
    rewrite Herr. eexists _, (l ++ [Db (Games_GetNumSimilar _)]), before, reveals.
    split; [reflexivity|]. simpl. rewrite Hl, <- app_assoc.
    split; [reflexivity|]. split.
    { apply Forall_app. split; [exact Hdb|]. repeat constructor. }
    split; [exact Htab|]. split; [exists id; exact Hid|exact Htrace].
Qed.

End FailedWrite.

(** ** The shared replay ([ConvertToSharedReplay]) *)

Section Convert.

Variable E : Env.

(** The loop that turns the players into spectators. *)
Lemma toSpectator_loop (ps : list Player) (b : bool) (w : World) :
  forFold (toSpectator E) b ps w =
    Ok (b || existsb (isOfflineOwner (t_Owner (w_t w))) ps)
       {| w_t := set_t_Spectators
                   (t_Spectators (w_t w)
                    ++ newSpectators E (t_Options (w_t w)) (game w) ps)
                   (w_t w);
          w_tables := w_tables w;
          w_trace := w_trace w |}.
Proof.
  revert b w. induction ps as [|p ps IH]; intros b w; simpl.
  - rewrite app_nil_r, orb_false_r. destruct w as [[] ? ?]. reflexivity.
  - unfold bind at 1. unfold toSpectator at 1. unfold bind, get_t, get_g.
    unfold isOfflineOwner at 1. fold (game w).
    destruct (p_Present p); simpl.
    + destruct (g_EndCondition (game w) =? EndConditionIdleTimeout E); simpl.
      * rewrite IH. reflexivity.
      * rewrite IH. simpl. unfold game. simpl. rewrite <- app_assoc.
        reflexivity.
    + destruct (p_ID p =? t_Owner (w_t w)); simpl.
      * destruct (match p_Session p with
                  | Some s => s_IsClosed s
                  | None => true
                  end); simpl; rewrite IH; [|reflexivity].
        rewrite orb_true_r. reflexivity.
      * rewrite IH. reflexivity.
Qed.

(** The loop that looks for the first present player. *)
Lemma firstPresent_loop (ps : list Player) (w : World) :
  forBreak
    (fun p =>
       if p_Present p then update_t (set_t_Owner (p_ID p)) ;; ret true
       else ret false)
    ps w =
  Ok tt match find p_Present ps with
        | Some p =>
            {| w_t := set_t_Owner (p_ID p) (w_t w);
               w_tables := w_tables w; w_trace := w_trace w |}
        | None => w
        end.
Proof.
  induction ps as [|p ps IH]; simpl.
  - reflexivity.
  - unfold bind at 1. destruct (p_Present p); simpl.
    + reflexivity.
    + exact IH.
Qed.

(** The election, when there is a spectator. *)
Lemma electLeader_spec (w : World) (sp0 : Spectator) (sps : list Spectator) :
  t_Spectators (w_t w) = sp0 :: sps ->
  electLeader w =
    Ok tt {| w_t := set_t_Owner (electedOwner (t_Players (w_t w)) sp0) (w_t w);
             w_tables := w_tables w; w_trace := w_trace w |}.
Proof.
  intros Hs. unfold electLeader, electedOwner.
  unfold bind at 1. unfold update_t at 1. unfold bind at 1.
  unfold get_t at 1. simpl w_t. unfold bind at 1.
  rewrite firstPresent_loop. simpl t_Players.
  destruct (find p_Present (t_Players (w_t w))) as [p|].
  - unfold bind, get_t. simpl.
    destruct (Z.eqb_spec (p_ID p) (-1)) as [Hp|Hp]; simpl.
    + rewrite Hp. reflexivity.
    + unfold at_index, index. simpl. rewrite Hs. reflexivity.
  - reflexivity.
Qed.

(** The loop over the spectators. *)
Lemma notifySpectator_loop (sps : list Spectator) (w : World) :
  forEach (notifySpectator E) sps w =
    Ok tt {| w_t := w_t w; w_tables := w_tables w;
             w_trace :=
               w_trace w
               ++ flat_map (spectatorEvents E (t_ID (w_t w)) (g_ID (game w)))
                    sps |}.
Proof.
  revert w. induction sps as [|sp sps IH]; intros w; simpl.
  - rewrite app_nil_r. destruct w. reflexivity.
  - unfold bind at 1. unfold notifySpectator at 1, spectatorEvents at 1.
    unfold bind, get_t, get_g, emit.
    destruct (sp_Session sp) as [s|]; simpl; rewrite IH; simpl;
      rewrite <- ?app_assoc; reflexivity.
Qed.

(** [ConvertToSharedReplay] always returns, in the state [converted]. *)
Lemma ConvertToSharedReplay_spec (w : World) :
  ConvertToSharedReplay E w = Ok tt (converted E w).
Proof.
  unfold ConvertToSharedReplay, converted.
  unfold bind at 1. unfold get_g at 1.
  unfold bind at 1. unfold update_t at 1.
  unfold bind at 1. unfold update_t at 1.
  unfold bind at 1. unfold update_g at 1, update_t at 1.
  unfold bind at 1. unfold update_g at 1, update_t at 1.
  unfold bind at 1. unfold update_t at 1.
  unfold bind at 1. unfold get_t at 1.
  unfold bind at 1. rewrite toSpectator_loop.
  unfold bind at 1. unfold get_t at 1. unfold game. simpl.
  match goal with
  | |- context [ newSpectators E ?o (set_g_Turn ?a (set_g_EndTurn ?b ?g)) ?ps ] =>
      change (newSpectators E o (set_g_Turn a (set_g_EndTurn b g)) ps)
        with (newSpectators E o g ps)
  end.
  destruct (t_Spectators (w_t w)
            ++ newSpectators E (t_Options (w_t w)) (t_Game (w_t w))
                 (t_Players (w_t w))) as [|sp0 sps] eqn:Hs.
  - reflexivity.
  - replace (len (sp0 :: sps) =? 0) with false
      by (symmetry; apply Z.eqb_neq; unfold len; simpl length; lia).
    destruct (existsb (isOfflineOwner (t_Owner (w_t w))) (t_Players (w_t w))).
    + unfold bind at 1. erewrite electLeader_spec by reflexivity.
      unfold bind, update_t, emit, get_t. simpl.
      change (notifySpectator E sp0 ;; forEach (notifySpectator E) sps)
        with (forEach (notifySpectator E) (sp0 :: sps)).
      rewrite notifySpectator_loop. simpl. rewrite <- !app_assoc.
      reflexivity.
    + unfold bind, update_t, emit, get_t. simpl.
      change (notifySpectator E sp0 ;; forEach (notifySpectator E) sps)
        with (forEach (notifySpectator E) (sp0 :: sps)).
      rewrite notifySpectator_loop. simpl. rewrite <- !app_assoc.
      reflexivity.
Qed.

End Convert.

Section Idle.

Variable E : Env.

Lemma newSpectators_idle (o : Options) (g : Game) (ps : list Player) :
  g_EndCondition g = EndConditionIdleTimeout E ->
  newSpectators E o g ps = [].
Proof.
  intros H. unfold newSpectators. rewrite H, Z.eqb_refl.
  induction ps as [|p ps IH]; simpl; [reflexivity|].
  rewrite andb_false_r. exact IH.
Qed.

(** Without a spectator the table leaves the registry and nothing is
    sent, whatever the end condition. *)
Lemma converted_no_spectator (w : World) :
  t_Spectators (w_t w)
  ++ newSpectators E (t_Options (w_t w)) (game w) (t_Players (w_t w)) = [] ->
  w_tables (converted E w) = w_tables w ∖ {[ t_ID (w_t w) ]}
  /\ w_trace (converted E w) = w_trace w
  /\ t_Spectators (w_t (converted E w)) = [].
Proof. intros H. unfold converted. rewrite H. simpl. auto. Qed.

(** The spectators of the table after the conversion. *)
Lemma converted_spectators (w : World) :
  t_Spectators (w_t (converted E w)) =
    t_Spectators (w_t w)
    ++ newSpectators E (t_Options (w_t w)) (game w) (t_Players (w_t w)).
Proof.
  unfold converted.
  destruct (t_Spectators (w_t w)
            ++ newSpectators E (t_Options (w_t w)) (game w)
                 (t_Players (w_t w))) as [|sp0 sps]; [reflexivity|].
  destruct (existsb (isOfflineOwner (t_Owner (w_t w))) (t_Players (w_t w)));
    reflexivity.
Qed.

(** C6. When the end condition is IdleTimeout, [ConvertToSharedReplay]
    returns and has made no player a spectator, present or not: the
    spectators of the table are those it had. Whenever that leaves the table
    without a spectator, the table is removed from the registry of tables
    and the conversion stops there, with nothing sent. *)
Theorem ConvertToSharedReplay_idle (w : World) :
  g_EndCondition (game w) = EndConditionIdleTimeout E ->
  exists w',
    ConvertToSharedReplay E w = Ok tt w'
    /\ newSpectators E (t_Options (w_t w)) (game w) (t_Players (w_t w)) = []
    /\ t_Spectators (w_t w') = t_Spectators (w_t w)
    /\ (t_Spectators (w_t w') = [] ->
        w_tables w' = w_tables w ∖ {[ t_ID (w_t w) ]}
        /\ (t_ID (w_t w) ∉ w_tables w')
        /\ w_trace w' = w_trace w).
Proof.
  intros Hidle. exists (converted E w).
  pose proof (newSpectators_idle (t_Options (w_t w)) (game w)
                (t_Players (w_t w)) Hidle) as Hnew.
  split; [apply ConvertToSharedReplay_spec|]. split; [exact Hnew|].
  assert (Hs : t_Spectators (w_t (converted E w)) = t_Spectators (w_t w)).
  { rewrite converted_spectators, Hnew. apply app_nil_r. }
  split; [exact Hs|]. intros Hnil.
  destruct (converted_no_spectator w) as (Ht & Htr & _).
  { rewrite Hnew, app_nil_r, <- Hs. exact Hnil. }
  rewrite Ht. split; [reflexivity|]. split; [|exact Htr].
  rewrite elem_of_difference, elem_of_singleton. intros [_ Hne].
  apply Hne. reflexivity.
Qed.

End Idle.

(** ** The leader of the shared replay (lines 471-490) *)

Section Leader.

Variable E : Env.

(** The owner of the table after the conversion, when a new leader is
    needed and there is a spectator. *)
Lemma converted_owner (w : World) (sp0 : Spectator) (sps : list Spectator) :
  existsb (isOfflineOwner (t_Owner (w_t w))) (t_Players (w_t w)) = true ->
  t_Spectators (w_t w)
  ++ newSpectators E (t_Options (w_t w)) (game w) (t_Players (w_t w))
  = sp0 :: sps ->
  t_Owner (w_t (converted E w)) = electedOwner (t_Players (w_t w)) sp0.
Proof. intros Hoff Hs. unfold converted. rewrite Hs, Hoff. reflexivity. Qed.

(** With no player present, the election leaves the table without a
    leader. *)
Lemma electedOwner_nobody_present (ps : list Player) (sp0 : Spectator) :
  find p_Present ps = None -> electedOwner ps sp0 = -1.
Proof. intros H. unfold electedOwner. rewrite H. reflexivity. Qed.

(** With a player present, the election takes the first spectator of the
    table, not the player. *)
Lemma electedOwner_somebody_present (ps : list Player) (sp0 : Spectator)
    (p : Player) :
  find p_Present ps = Some p -> p_ID p <> -1 ->
  electedOwner ps sp0 = sp_ID sp0.
Proof.
  intros H Hp. unfold electedOwner. rewrite H.
  destruct (Z.eqb_spec (p_ID p) (-1)); [contradiction|reflexivity].
Qed.

End Leader.

(** C1 (the code at the failing inputs). alice owns the table and is
    offline, and carol was watching the game, so a new leader is needed and
    there is a spectator. With bob in the lobby, no player is present: the
    spec makes carol, the first spectator, the leader, and the code leaves
    the table without a leader ([t.Owner] is -1). With bob at the table, the
    spec makes bob, the first present player, the leader, and the code takes
    carol. *)
Theorem ConvertToSharedReplay_leader :
  let E := Sample.env false in
  let away := Sample.allAway in
  let away' := world_of (ConvertToSharedReplay E away) in
  let present := Sample.ownerAway in
  let present' := world_of (ConvertToSharedReplay E present) in
  (existsb (isOfflineOwner (t_Owner (w_t away))) (t_Players (w_t away)) = true
   /\ find p_Present (t_Players (w_t away)) = None
   /\ map sp_ID (t_Spectators (w_t away')) = [13]
   /\ t_Owner (w_t away') = -1)
  /\ (existsb (isOfflineOwner (t_Owner (w_t present)))
        (t_Players (w_t present)) = true
      /\ (p_ID <$> find p_Present (t_Players (w_t present))) = Some 12
      /\ map sp_ID (t_Spectators (w_t present')) = [13; 12]
      /\ t_Owner (w_t present') = 13).
Proof.
  intros E away away' present present'.
  repeat apply conj; vm_compute; reflexivity.
Qed.

(** ** Messages to single sessions (lines 157-159 and 500-522) *)

(** The loop of lines 157-159 calls [Emit] on the session of every player
    of the table, whatever the session is. *)
Lemma gameHistory_loop (d : Message) (ps : list Player) (w : World) :
  forEach (fun p => emit (Session_Emit (p_Session p) "gameHistory" d)) ps w =
    Ok tt {| w_t := w_t w; w_tables := w_tables w;
             w_trace :=
               w_trace w
               ++ map (fun p => Session_Emit (p_Session p) "gameHistory" d)
                    ps |}.
Proof.
  revert w. induction ps as [|p ps IH]; intros w; simpl.
  - rewrite app_nil_r. destruct w. reflexivity.
  - unfold bind, emit. rewrite IH. simpl. rewrite <- app_assoc. reflexivity.
Qed.

(** ** The theorems at the sample inputs *)

Lemma End_score_witness :
  g_Score (game (world_of (End (Sample.env false) 5000 Sample.timedOut))) = 0
  /\ g_Score (game (world_of (End (Sample.env false) 5000 Sample.live))) = 20.
Proof.
  split.
  - apply (End_score (Sample.env false) 5000 Sample.timedOut).
    + vm_compute. discriminate.
    + vm_compute. discriminate.
  - apply (End_score (Sample.env false) 5000 Sample.live).
    + vm_compute. discriminate.
    + reflexivity.
Defined.

Lemma wrap64_in_int64 (z : Z) : in_int64 (wrap64 z).
Proof.
  unfold in_int64, min_int64, max_int64, wrap64.
  pose proof (Z.mod_pos_bound (z + 2 ^ 63) (2 ^ 64)). lia.
Qed.

Lemma End_time_announcements_witness :
  g_Actions (game (world_of (End int64Env 5000 Sample.live))) =
    [ActionDeckOrder "deckOrder"
       [{| sc_Suit := 1; sc_Rank := 2 |}; {| sc_Suit := 3; sc_Rank := 4 |}];
     ActionText "text" "alice took: 5";
     ActionText "text" "bob took: 7";
     ActionText "text" "The total game duration was: 4000"].
Proof.
  rewrite (End_time_announcements int64Env 5000 Sample.live).
  - vm_compute. reflexivity.
  - intros d. cbn [durationToString int64Env].
    rewrite (wrap64_small (wrap64 d)) by apply wrap64_in_int64. reflexivity.
  - reflexivity.
Defined.

Lemma End_replay_witness :
  exists w',
    End (Sample.env false) 5000 Sample.replay = Ok tt w'
    /\ w_trace w' = [NotifyGameAction]
    /\ g_Turn (game w') = 10.
Proof.
  destruct (End_replay (Sample.env false) 5000 Sample.replay)
    as (w' & H1 & _ & _ & H4 & H5 & _).
  - reflexivity.
  - exists w'. split; [exact H1|]. split; [exact H4|exact H5].
Defined.


Lemma WriteDatabase_actions_witness :
  actionInserts
    (w_trace (world_of (WriteDatabase (Sample.env false) Sample.timedOut))) =
  [(100, 0, {| ga_Type := 0; ga_Target := 1; ga_Value := 2 |});
   (100, 1, {| ga_Type := 1; ga_Target := 0; ga_Value := 3 |});
   (100, 2, {| ga_Type := 4; ga_Target := 1; ga_Value := 3 |})].
Proof.
  destruct (WriteDatabase_actions (Sample.env false) Sample.timedOut
              (world_of (WriteDatabase (Sample.env false) Sample.timedOut)))
    as (H1 & _).
  - vm_compute. reflexivity.
  - rewrite H1. vm_compute. reflexivity.
Defined.

Lemma End_failed_write_witness :
  let E := Sample.env true in
  let w2 := world_of (beforeWrite E 5000 Sample.live) in
  exists w' calls,
    End E 5000 Sample.live = Ok tt w'
    /\ w_trace w' = w_trace w2 ++ calls
    /\ Forall isDb calls
    /\ w_tables w' = w_tables w2.
Proof.
  intros E w2.
  destruct (End_failed_write E 5000 Sample.live w2
              (world_of (WriteDatabase E w2))
              (Some "the database is down"%string))
    as (w' & calls & before & reveals & H1 & H2 & H3 & H4 & _).
  - reflexivity.
  - vm_compute. reflexivity.
  - vm_compute. reflexivity.
  - left. eexists. reflexivity.
  - exists w', calls. repeat apply conj; assumption.
Defined.

Lemma ConvertToSharedReplay_idle_witness :
  exists w',
    ConvertToSharedReplay (Sample.env false) Sample.idle = Ok tt w'
    /\ t_Spectators (w_t w') = [].
Proof.
  destruct (ConvertToSharedReplay_idle (Sample.env false) Sample.idle)
    as (w' & H1 & _ & H3 & _).
  - reflexivity.
  - exists w'. split; [exact H1|exact H3].
Defined.

(** * More of [game_end.go] *)

(** ** The announcement ([GetAnnouncementString], lines 379-418) *)

Lemma string_app_String (x : ascii) (a b : string) :
  String x a +:+ b = String x (a +:+ b).
Proof. reflexivity. Qed.

Lemma string_app_Empty (b : string) : "" +:+ b = b.
Proof. reflexivity. Qed.

Lemma string_app_assoc (a b c : string) : (a +:+ b) +:+ c = a +:+ (b +:+ c).
Proof.
  induction a as [|x a IH]; [reflexivity|].
  change (String x ((a +:+ b) +:+ c) = String x (a +:+ (b +:+ c))).
  f_equal. exact IH.
Qed.

Lemma string_app_nil_r (a : string) : a +:+ "" = a.
Proof.
  induction a as [|x a IH]; [reflexivity|].
  change (String x (a +:+ "") = String x a). f_equal. exact IH.
Qed.

(** [spanDigits] splits its argument, the first part is made of digits and
    the second does not start with one. *)
Lemma spanDigits_spec (s a b : string) :
  spanDigits s = (a, b) ->
  s = a +:+ b
  /\ allDigits a = true
  /\ match b with
     | String c _ => isDigit c = false
     | EmptyString => True
     end.
Proof.
  revert a b. induction s as [|c s IH]; intros a b H; simpl in H.
  - injection H as <- <-. auto.
  - destruct (isDigit c) eqn:Hc.
    + destruct (spanDigits s) as [ds r]. injection H as <- <-.
      destruct (IH ds r eq_refl) as (-> & Hd & Hr). simpl. rewrite Hc, Hd.
      auto.
    + injection H as <- <-. simpl. auto.
Qed.

(** Digits in front of a text are taken by [spanDigits]. *)
Lemma spanDigits_app (v r : string) :
  allDigits v = true ->
  spanDigits (v +:+ r) = (v +:+ fst (spanDigits r), snd (spanDigits r)).
Proof.
  induction v as [|c v IH]; simpl; intros H.
  - rewrite !string_app_Empty. destruct (spanDigits r). reflexivity.
  - apply andb_true_iff in H as [Hc Hv]. rewrite !string_app_String. simpl.
    rewrite Hc, (IH Hv). reflexivity.
Qed.

Lemma seedMatchHere_sound (s m : string) :
  seedMatchHere s = Some m ->
  exists (d : ascii) (v post : string),
    s = seedText d v (m +:+ post)
    /\ isDigit d = true
    /\ v <> EmptyString /\ allDigits v = true
    /\ m <> EmptyString /\ allDigits m = true.
Proof.
  unfold seedMatchHere. intros H.
  destruct s as [|c0 [|d [|c2 r]]]; try discriminate;
    try (destruct c0 as [[] [] [] [] [] [] [] []]; discriminate).
  destruct (Ascii.eqb_spec c0 "p") as [->|Hp];
    [|destruct c0 as [[] [] [] [] [] [] [] []]; try discriminate;
      contradiction Hp; reflexivity].
  destruct (Ascii.eqb_spec c2 "v") as [->|Hv];
    [|destruct c2 as [[] [] [] [] [] [] [] []]; try discriminate;
      contradiction Hv; reflexivity].
  destruct (isDigit d) eqn:Hd; [|discriminate].
  destruct (spanDigits r) as [v r1] eqn:Hr.
  destruct v as [|cv v]; [discriminate|].
  destruct r1 as [|c3 r']; [discriminate|].
  destruct (Ascii.eqb_spec c3 "s") as [->|Hs];
    [|destruct c3 as [[] [] [] [] [] [] [] []]; try discriminate;
      contradiction Hs; reflexivity].
  destruct (spanDigits r') as [n post] eqn:Hn.
  destruct n as [|cn n]; [discriminate|]. injection H as <-.
  apply spanDigits_spec in Hr as (-> & Hdv & _).
  apply spanDigits_spec in Hn as (-> & Hdn & _).
  exists d, (String cv v), post. unfold seedText.
  repeat split; try assumption; discriminate.
Qed.

Lemma seedMatchHere_complete (d : ascii) (v n post : string) :
  isDigit d = true ->
  v <> EmptyString -> allDigits v = true ->
  n <> EmptyString -> allDigits n = true ->
  exists m, seedMatchHere (seedText d v (n +:+ post)) = Some m.
Proof.
  intros Hd Hv Hdv Hn Hdn. unfold seedText, seedMatchHere. rewrite Hd.
  rewrite (spanDigits_app v _ Hdv). simpl.
  destruct v as [|cv v]; [contradiction|]. simpl.
  rewrite (spanDigits_app n post Hdn).
  destruct n as [|cn n]; [contradiction|]. simpl. eauto.
Qed.

(** A seed in the usual form is matched at its first byte, and the group
    is the number after [s]. *)
Lemma seedMatchHere_seedText (d : ascii) (v n : string) :
  isDigit d = true ->
  v <> EmptyString -> allDigits v = true ->
  n <> EmptyString -> allDigits n = true ->
  seedMatchHere (seedText d v n) = Some n.
Proof.
  intros Hd Hv Hdv Hn Hdn. unfold seedText, seedMatchHere. rewrite Hd.
  rewrite (spanDigits_app v _ Hdv). simpl.
  destruct v as [|cv v]; [contradiction|]. simpl.
  rewrite <- (string_app_nil_r n) at 1. rewrite (spanDigits_app n "" Hdn).
  simpl. rewrite string_app_nil_r.
  destruct n as [|cn n]; [contradiction|]. reflexivity.
Qed.

(** [seedRegexp] finds a match exactly in the texts that have one. *)
Lemma seedRegexp_FindStringSubmatch_None (s : string) :
  seedRegexp_FindStringSubmatch s = None <-> ~ hasSeedMatch s.
Proof.
  split.
  - intros H (pre & d & v & n & post & -> & Hd & Hv & Hdv & Hn & Hdn).
    induction pre as [|c pre IH].
    + destruct (seedMatchHere_complete d v n post Hd Hv Hdv Hn Hdn)
        as [m Hm].
      rewrite string_app_Empty in H. unfold seedText in H, Hm.
      cbn [seedRegexp_FindStringSubmatch] in H.
      rewrite Hm in H. discriminate.
    + apply IH. rewrite string_app_String in H.
      cbn [seedRegexp_FindStringSubmatch] in H.
      destruct (seedMatchHere (String c _)); [discriminate|exact H].
  - intros H. induction s as [|c s IH].
    + reflexivity.
    + cbn [seedRegexp_FindStringSubmatch].
      destruct (seedMatchHere (String c s)) as [m|] eqn:Hm.
      * exfalso. apply H.
        apply seedMatchHere_sound in Hm
          as (d & v & post & -> & Hd & Hv & Hdv & Hn & Hdn).
        exists EmptyString, d, v, m, post.
        rewrite string_app_Empty. repeat split; assumption.
      * apply IH. intros (pre & d & v & n & post & -> & Hrest).
        apply H. exists (String c pre), d, v, n, post.
        rewrite string_app_String. split; [reflexivity|exact Hrest].
Qed.

Lemma seedRegexp_FindStringSubmatch_here (s m : string) :
  seedMatchHere s = Some m -> seedRegexp_FindStringSubmatch s = Some m.
Proof.
  intros H. destruct s as [|c s]; [discriminate|].
  cbn [seedRegexp_FindStringSubmatch]. rewrite H. reflexivity.
Qed.

Lemma string_app_nonempty (a b : string) : a <> "" -> a +:+ b <> "".
Proof. destruct a; [contradiction|discriminate]. Qed.

Section AnnouncementFacts.

Variable E : Env.
Variable strings_ToLower : string -> string.

(** X1. For a seed in the usual form, [p], a digit, [v], digits, [s],
    digits, the announcement ends with the number after the [s] and not
    with the whole seed. *)
Theorem GetAnnouncementString_seed_number (g : Game) (d : ascii)
    (v n : string) :
  strings_ToLower (o_Variant (g_Options g)) <> EmptyString ->
  g_Seed g = seedText d v n ->
  isDigit d = true ->
  v <> EmptyString -> allDigits v = true ->
  n <> EmptyString -> allDigits n = true ->
  exists msg,
    GetAnnouncementString E strings_ToLower g
    = Some (msg +:+ "seed: " +:+ n +:+ ")").
Proof.
  intros Hl Hs Hd Hv Hdv Hn Hdn. unfold GetAnnouncementString.
  destruct (strings_ToLower (o_Variant (g_Options g))) as [|c r];
    [contradiction|].
  rewrite Hs, (seedRegexp_FindStringSubmatch_here _ n)
    by (apply seedMatchHere_seedText; assumption).
  eexists. reflexivity.
Qed.

(** X2. The announcement is the empty text exactly when the seed has no
    part of the form [p], digit, [v], digits, [s], digits. *)
Theorem GetAnnouncementString_empty (g : Game) :
  strings_ToLower (o_Variant (g_Options g)) <> EmptyString ->
  GetAnnouncementString E strings_ToLower g = Some EmptyString
  <-> ~ hasSeedMatch (g_Seed g).
Proof.
  intros Hl. rewrite <- seedRegexp_FindStringSubmatch_None.
  unfold GetAnnouncementString.
  destruct (strings_ToLower (o_Variant (g_Options g))) as [|c r];
    [contradiction|].
  destruct (seedRegexp_FindStringSubmatch (g_Seed g)) as [m|].
  - split; [|discriminate]. intros H. exfalso. injection H as H. revert H.
    repeat first
      [ apply string_app_nonempty
      | match goal with
        | |- context [ if ?b then _ else _ ] => destruct b
        end ].
    all: discriminate.
  - split; reflexivity.
Qed.

(** X3. The announcement of a terminated game does not depend on the
    score. *)
Theorem GetAnnouncementString_terminated (g : Game) (score : Z) :
  g_EndCondition g = EndConditionTerminated E ->
  GetAnnouncementString E strings_ToLower (set_g_Score score g)
  = GetAnnouncementString E strings_ToLower g.
Proof.
  intros H. unfold GetAnnouncementString. simpl. rewrite H, Z.eqb_refl.
  reflexivity.
Qed.

End AnnouncementFacts.

Lemma GetAnnouncementString_seed_number_witness :
  exists msg,
    GetAnnouncementString (Sample.env false) lowerASCII (game Sample.live)
    = Some (msg +:+ "seed: " +:+ "1" +:+ ")").
Proof.
  apply (GetAnnouncementString_seed_number (Sample.env false) lowerASCII
           (game Sample.live) "2" "0" "1").
  - vm_compute. discriminate.
  - reflexivity.
  - reflexivity.
  - discriminate.
  - reflexivity.
  - discriminate.
  - reflexivity.
Defined.

Lemma GetAnnouncementString_empty_witness :
  GetAnnouncementString (Sample.env false) lowerASCII (game Sample.live)
  = Some EmptyString
  <-> ~ hasSeedMatch (g_Seed (game Sample.live)).
Proof.
  apply (GetAnnouncementString_empty (Sample.env false) lowerASCII
           (game Sample.live)).
  vm_compute. discriminate.
Defined.

Lemma GetAnnouncementString_terminated_witness :
  GetAnnouncementString (Sample.env false) lowerASCII
    (set_g_Score 25 (Sample.game_of 4 (-5) false))
  = GetAnnouncementString (Sample.env false) lowerASCII
      (Sample.game_of 4 (-5) false).
Proof.
  apply (GetAnnouncementString_terminated (Sample.env false) lowerASCII
           (Sample.game_of 4 (-5) false) 25).
  reflexivity.
Defined.

(** ** The record of a game ([WriteDatabase], lines 166-299) *)

Lemma add_calls_app (w : World) (cs1 cs2 : list DbCall) :
  add_calls (add_calls w cs1) cs2 = add_calls w (cs1 ++ cs2).
Proof. unfold add_calls. simpl. rewrite map_app, app_assoc. reflexivity. Qed.

Lemma add_calls_nil (w : World) : add_calls w [] = w.
Proof. destruct w. unfold add_calls. simpl. rewrite app_nil_r. reflexivity. Qed.

Lemma bind_Ok {A B : Type} (c : M A) (k : A -> M B) (w w1 : World) (a : A) :
  c w = Ok a w1 -> bind c k w = k a w1.
Proof. intros H. unfold bind. rewrite H. reflexivity. Qed.

Section RecordCalls.

Variable E : Env.

(** One participant, when the loop goes on. *)
Lemma insertParticipant_None (i : Z) (gp : GamePlayer) (w w' : World) :
  insertParticipant E i gp w = Ok None w' ->
  exists p c,
    index (t_Players (w_t w)) (gp_Index gp) = Some p
    /\ characterID E (t_Options (w_t w)) gp = Val c
    /\ w' = add_calls w
              [GameParticipants_Insert (g_ID (game w)) (p_ID p) (gp_Index gp)
                 c (gp_CharacterMetadata gp)].
Proof.
  unfold insertParticipant, bind, get_t, get_g, at_index.
  destruct (index (t_Players (w_t w)) (gp_Index gp)) as [p|];
    [|discriminate].
  simpl. fold (characterID E (t_Options (w_t w)) gp).
  destruct (characterID E (t_Options (w_t w)) gp) as [c|err];
    [|discriminate].
  unfold models_GameParticipants_Insert, db. intros H.
  injection H as _ <-. exists p, c. auto.
Qed.

Lemma participants_loop (gps : list GamePlayer) (i : Z) (w w' : World) :
  forRange (insertParticipant E) i gps w = Ok None w' ->
  w' = add_calls w (participantCalls E (w_t w) (g_ID (game w)) gps)
  /\ Forall (fun gp =>
               is_Some (index (t_Players (w_t w)) (gp_Index gp))
               /\ exists c, characterID E (t_Options (w_t w)) gp = Val c)
            gps.
Proof.
  revert i w. induction gps as [|gp gps IH]; intros i w H; simpl in H.
  - injection H as <-. simpl. rewrite add_calls_nil. auto.
  - apply bind_Ok_inv in H as (r & w1 & Hb & Hk).
    destruct r as [err|]; [discriminate|].
    apply insertParticipant_None in Hb as (p & c & Hp & Hc & ->).
    apply IH in Hk as [-> Hall]. simpl in *. unfold participantCalls at 2.
    simpl. rewrite Hp, Hc. fold (participantCalls E (w_t w) (g_ID (game w)) gps).
    rewrite add_calls_app. split; [reflexivity|].
    constructor; [split; eauto|exact Hall].
Qed.

(** The notes of one player: the loop always goes on. *)
Lemma notes_inner_loop (userID id : Z) (notes : list string) (j : Z)
    (w : World) :
  forRange
    (fun j note =>
       if String.eqb note "" then ret None
       else
         _ <- models_GameParticipantNotes_Insert E userID id j note ;;
         ret None)
    j notes w
  = Ok None (add_calls w (noteCallsFrom userID id j notes)).
Proof.
  revert j w. induction notes as [|note notes IH]; intros j w.
  - simpl. rewrite add_calls_nil. reflexivity.
  - cbn [forRange noteCallsFrom].
    rewrite (bind_Ok _ _ w
               (add_calls w
                  (if String.eqb note "" then []
                   else [GameParticipantNotes_Insert userID id j note]))
               None).
    + rewrite IH, add_calls_app. reflexivity.
    + destruct (String.eqb note "").
      * rewrite add_calls_nil. reflexivity.
      * reflexivity.
Qed.

Lemma notes_loop (gps : list GamePlayer) (i : Z) (w w' : World) :
  forRange (insertNotes E) i gps w = Ok None w' ->
  w' = add_calls w (noteCalls (w_t w) (g_ID (game w)) gps).
Proof.
  revert i w. induction gps as [|gp gps IH]; intros i w H; simpl in H.
  - injection H as <-. simpl. rewrite add_calls_nil. reflexivity.
  - apply bind_Ok_inv in H as (r & w1 & Hb & Hk).
    destruct r as [err|]; [discriminate|].
    unfold insertNotes in Hb.
    apply bind_Ok_inv in Hb as (t & w0 & Ht & Hb). injection Ht as <- <-.
    apply bind_Ok_inv in Hb as (g & w0 & Hg & Hb). injection Hg as <- <-.
    apply bind_Ok_inv in Hb as (p & w0 & Hp & Hb). unfold at_index in Hp.
    unfold noteCalls. simpl.
    destruct (index (t_Players (w_t w)) (gp_Index gp)) as [p'|];
      [|discriminate].
    injection Hp as <- <-.
    rewrite notes_inner_loop in Hb. injection Hb as <-.
    apply IH in Hk as ->. rewrite add_calls_app. reflexivity.
Qed.

Lemma actions_loop (l : list GameAction) (i : Z) (w w' : World) :
  forRange (insertAction E) i l w = Ok None w' ->
  w' = add_calls w (actionCallsFrom (g_ID (game w)) i l).
Proof.
  revert i w. induction l as [|a l IH]; intros i w H; simpl in H.
  - injection H as <-. unfold actionCallsFrom. simpl.
    rewrite add_calls_nil. reflexivity.
  - apply bind_Ok_inv in H as (r & w1 & Hb & Hk).
    unfold insertAction, bind, get_g, models_GameActions_Insert, db in Hb.
    injection Hb as Hr <-. destruct r as [err|]; [discriminate|].
    apply IH in Hk as ->.
    change (add_calls
              (add_calls w [GameActions_Insert (g_ID (game w)) i a])
              (actionCallsFrom (g_ID (game w)) (i + 1) l)
            = add_calls w (actionCallsFrom (g_ID (game w)) i (a :: l))).
    rewrite add_calls_app. unfold actionCallsFrom. simpl. f_equal. f_equal.
    + f_equal. lia.
    + apply imap_ext. intros k x _. simpl. f_equal. lia.
Qed.

Lemma gameOver_step (w w' : World) :
  insertGameOver E w = Ok None w' ->
  w' = add_calls w (gameOverCalls E (g_ID (game w)) (game w)).
Proof.
  unfold insertGameOver, gameOverCalls, bind, get_g. fold (game w).
  destruct (gameOverAction E (game w)) as [a|].
  - unfold models_GameActions_Insert, db. intros H. injection H as _ <-.
    reflexivity.
  - intros H. injection H as <-. symmetry. apply add_calls_nil.
Qed.

Lemma chat_loop (l : list ChatMessage) (i : Z) (w : World) :
  forRange (fun _ => insertChat E) i l w
  = Ok None (add_calls w (chatCalls (w_t w) l)).
Proof.
  revert i w. induction l as [|m l IH]; intros i w.
  - simpl. rewrite add_calls_nil. reflexivity.
  - cbn [forRange].
    rewrite (bind_Ok _ _ w (add_calls w (chatCalls (w_t w) [m])) None)
      by reflexivity.
    rewrite IH, add_calls_app. reflexivity.
Qed.

Lemma tags_loop (l : list string) (i : Z) (w : World) :
  forRange (fun _ => insertTag E) i l w
  = Ok None (add_calls w (tagCalls (g_ID (game w)) l)).
Proof.
  revert i w. induction l as [|tag l IH]; intros i w.
  - simpl. rewrite add_calls_nil. reflexivity.
  - cbn [forRange].
    rewrite (bind_Ok _ _ w (add_calls w (tagCalls (g_ID (game w)) [tag]))
               None) by reflexivity.
    rewrite IH, add_calls_app. reflexivity.
Qed.

End RecordCalls.

#[local] Instance emits_preorder (P : Event -> Prop) : PreOrder (emits P).
Proof.
  split.
  - intros w. exists []. rewrite app_nil_r. auto.
  - intros w1 w2 w3 [l1 [H1 F1]] [l2 [H2 F2]]. exists (l1 ++ l2).
    rewrite H2, H1, app_assoc. split; [reflexivity|].
    apply Forall_app. auto.
Qed.

Section Emits.

Context (P : Event -> Prop).

Lemma emits_db {A : Type} (c : DbCall) (answer : list Event -> A) :
  P (Db c) -> preserves (emits P) (db c answer).
Proof. intros H w. exists [Db c]. simpl. auto. Qed.

Lemma emits_emit (e : Event) : P e -> preserves (emits P) (emit e).
Proof. intros H w. exists [e]. simpl. auto. Qed.

Lemma emits_update_t (f : Table -> Table) : preserves (emits P) (update_t f).
Proof. intros w. exists []. simpl. rewrite app_nil_r. auto. Qed.

Lemma emits_update_g (f : Game -> Game) : preserves (emits P) (update_g f).
Proof. apply emits_update_t. Qed.

Lemma emits_delete_tables (id : Z) : preserves (emits P) (delete_tables id).
Proof. intros w. exists []. simpl. rewrite app_nil_r. auto. Qed.

End Emits.

Ltac emits_prim :=
  idtac; first
    [ apply emits_db; exact I
    | apply emits_emit; exact I
    | apply emits_update_t
    | apply emits_update_g
    | apply emits_delete_tables ].

Section RecordTrace.

Variable E : Env.

Lemma userStats_loop_stats (i : Z) (l : list Player) :
  preserves (emits isStatsCall) (forRange (fun _ => updateUserStats E) i l).
Proof.
  unfold updateUserStats, models_UserStats_Get, models_UserStats_Update.
  preserve_with emits_prim.
Qed.

Lemma userStats_loop_table (i : Z) (l : list Player) :
  preserves (same_t_on (fun t => t))
    (forRange (fun _ => updateUserStats E) i l).
Proof.
  unfold updateUserStats, models_UserStats_Get, models_UserStats_Update.
  preserve_with same_t_on_prim.
Qed.

Lemma variantStats_stats : preserves (emits isStatsCall) (updateVariantStats E).
Proof.
  unfold updateVariantStats, models_VariantStats_Get,
    models_VariantStats_Update.
  preserve_with emits_prim.
Qed.

Lemma variantStats_table :
  preserves (same_t_on (fun t => t)) (updateVariantStats E).
Proof.
  unfold updateVariantStats, models_VariantStats_Get,
    models_VariantStats_Update.
  preserve_with same_t_on_prim.
Qed.

(** [WriteDatabase], when it returns without an error. *)
Lemma WriteDatabase_success (w w' : World) :
  WriteDatabase E w = Ok None w' ->
  exists stats,
    m_Games_Insert (models E) (w_trace w) (gameRow E (w_t w) (game w))
    = Val (g_ID (game w'))
    /\ w_t w' = set_t_Game (set_g_ID (g_ID (game w')) (game w)) (w_t w)
    /\ w_trace w' =
         w_trace w
         ++ map Db (recordCalls E (w_t w) (game w) (g_ID (game w')))
         ++ stats
    /\ Forall isStatsCall stats
    /\ Forall (fun gp =>
                 is_Some (index (t_Players (w_t w)) (gp_Index gp))
                 /\ exists c, characterID E (t_Options (w_t w)) gp = Val c)
              (g_Players (game w)).
Proof.
  intros H. unfold WriteDatabase in H.
  apply bind_Ok_inv in H as (t & w0 & Ht & H). injection Ht as <- <-.
  apply bind_Ok_inv in H as (g & w0 & Hg & H). injection Hg as <- <-.
  apply bind_Ok_inv in H as (r & w1 & Hr & H).
  unfold models_Games_Insert, db in Hr. injection Hr as Hr <-.
  destruct r as [v|err]; [|discriminate].
  apply bind_Ok_inv in H as ([] & w2 & Hu & H). injection Hu as <-.
  match type of H with _ ?x = _ => set (w2 := x) in * end.
  apply check_None_inv in H as (w3 & H3 & H).
  apply participants_loop in H3 as [-> Hall].
  apply check_None_inv in H as (w4 & H4 & H).
  apply notes_loop in H4 as ->.
  apply check_None_inv in H as (w5 & H5 & H).
  apply actions_loop in H5 as ->.
  apply check_None_inv in H as (w6 & H6 & H).
  apply gameOver_step in H6 as ->.
  apply check_None_inv in H as (w7 & H7 & H).
  rewrite chat_loop in H7. injection H7 as <-.
  apply check_None_inv in H as (w8 & H8 & H).
  rewrite tags_loop in H8. injection H8 as <-.
  rewrite !add_calls_app in H.
  match type of H with
  | context [ add_calls w2 ?cs ] => set (calls := cs) in *
  end.
  apply check_None_inv in H as (w9 & H9 & H).
  pose proof (preserves_Ok _ _ _ _ _ (userStats_loop_stats _ _) H9)
    as [l1 [Hl1 F1]].
  pose proof (preserves_Ok _ _ _ _ _ (userStats_loop_table _ _) H9) as Ht1.
  pose proof (preserves_Ok _ _ _ _ _ variantStats_stats H) as [l2 [Hl2 F2]].
  pose proof (preserves_Ok _ _ _ _ _ variantStats_table H) as Ht2.
  unfold same_t_on in Ht1, Ht2. simpl in Ht1, Hl1.
  assert (Hw' : w_t w' = set_t_Game (set_g_ID v (t_Game (w_t w))) (w_t w))
    by congruence.
  assert (Hid : g_ID (game w') = v) by (unfold game; rewrite Hw'; reflexivity).
  exists (l1 ++ l2). rewrite Hid. split; [exact Hr|]. split; [exact Hw'|].
  split.
  - rewrite Hl2, Hl1. unfold recordCalls. simpl. subst calls.
    rewrite <- !app_assoc. reflexivity.
  - split; [apply Forall_app; auto|exact Hall].
Qed.

End RecordTrace.

(** What kind of call each part of the record is. *)
Lemma participantCalls_kind (E : Env) (t : Table) (id : Z)
    (gps : list GamePlayer) :
  Forall (fun c => ~ isNoteCall c) (participantCalls E t id gps).
Proof.
  unfold participantCalls. induction gps as [|gp gps IH]; simpl.
  - constructor.
  - apply Forall_app. split; [|exact IH].
    destruct (index (t_Players t) (gp_Index gp)); [|constructor].
    destruct (characterID E (t_Options t) gp); repeat constructor; auto.
Qed.

Lemma actionCallsFrom_kind (id i : Z) (l : list GameAction) :
  Forall (fun c => ~ isNoteCall c) (actionCallsFrom id i l).
Proof.
  unfold actionCallsFrom. apply Forall_forall. intros c Hc.
  apply elem_of_lookup_imap in Hc
    as (k & a & -> & _). simpl. auto.
Qed.

Lemma gameOverCalls_kind (E : Env) (id : Z) (g : Game) :
  Forall (fun c => ~ isNoteCall c) (gameOverCalls E id g).
Proof.
  unfold gameOverCalls. destruct (gameOverAction E g); repeat constructor.
  simpl. auto.
Qed.

Lemma chatCalls_kind (t : Table) (l : list ChatMessage) :
  Forall (fun c => ~ isNoteCall c) (chatCalls t l).
Proof. unfold chatCalls. induction l; simpl; constructor; auto. Qed.

Lemma tagCalls_kind (id : Z) (l : list string) :
  Forall (fun c => ~ isNoteCall c) (tagCalls id l).
Proof. unfold tagCalls. induction l; simpl; constructor; auto. Qed.

(** The notes that [noteCallsFrom] lists: those that are not empty, each
    with its position. *)
Lemma In_noteCallsFrom (userID id j0 : Z) (notes : list string)
    (c : DbCall) :
  In c (noteCallsFrom userID id j0 notes) <->
  exists (k : nat) (note : string),
    notes !! k = Some note
    /\ note <> EmptyString
    /\ c = GameParticipantNotes_Insert userID id (j0 + Z.of_nat k) note.
Proof.
  revert j0. induction notes as [|n notes IH]; intros j0; simpl.
  - split; [contradiction|]. intros (k & note & Hk & _). discriminate.
  - rewrite in_app_iff, IH. split.
    + intros [H|(k & note & Hk & Hne & ->)].
      * destruct (String.eqb_spec n ""); [contradiction|].
        destruct H as [<-|[]]. exists 0%nat, n.
        rewrite Z.add_0_r. auto.
      * exists (S k), note. repeat split; auto. f_equal. lia.
    + intros (k & note & Hk & Hne & ->). destruct k as [|k]; simpl in Hk.
      * injection Hk as ->. left.
        destruct (String.eqb_spec note ""); [contradiction|].
        left. rewrite Z.add_0_r. reflexivity.
      * right. exists k, note. repeat split; auto. f_equal. lia.
Qed.

Lemma Forall_In {A : Type} (P : A -> Prop) (l : list A) (x : A) :
  Forall P l -> In x l -> P x.
Proof.
  intros H Hx. rewrite Forall_forall in H. apply H, list_elem_of_In, Hx.
Qed.

Lemma In_map_Db (c : DbCall) (l : list DbCall) : In (Db c) (map Db l) <-> In c l.
Proof.
  rewrite in_map_iff. split.
  - intros (c' & Hc & Hin). injection Hc as ->. exact Hin.
  - intros H. exists c. auto.
Qed.

Lemma In_noteCalls (t : Table) (id : Z) (gps : list GamePlayer)
    (userID gameID order : Z) (note : string) :
  In (GameParticipantNotes_Insert userID gameID order note)
     (noteCalls t id gps) <->
  gameID = id
  /\ note <> EmptyString
  /\ exists gp p,
       In gp gps
       /\ index (t_Players t) (gp_Index gp) = Some p
       /\ p_ID p = userID
       /\ index (gp_Notes gp) order = Some note.
Proof.
  unfold noteCalls. rewrite in_flat_map. split.
  - intros (gp & Hgp & Hin).
    destruct (index (t_Players t) (gp_Index gp)) as [p|] eqn:Hp;
      [|contradiction].
    apply In_noteCallsFrom in Hin as (k & n & Hk & Hne & Heq).
    injection Heq as -> -> -> ->.
    split; [reflexivity|]. split; [exact Hne|].
    exists gp, p. repeat split; auto.
    unfold index. rewrite Z.add_0_l, Nat2Z.id.
    destruct (Z.ltb_spec (Z.of_nat k) 0); [lia|exact Hk].
  - intros (-> & Hne & gp & p & Hgp & Hp & <- & Hn).
    exists gp. split; [exact Hgp|]. rewrite Hp.
    apply In_noteCallsFrom. unfold index in Hn.
    destruct (Z.ltb_spec order 0); [discriminate|].
    exists (Z.to_nat order), note. repeat split; auto.
    f_equal. lia.
Qed.

(** ** The stats of the users ([WriteDatabase], lines 301-341) *)

Section UserStats.

Variable E : Env.

(** One round of the loop over the players of the table. *)
Lemma updateUserStats_round (p : Player) (w w' : World) (r : option error) :
  updateUserStats E p w = Ok r w' ->
  r = None
  /\ exists round,
       userStatsRound (models E)
         (v_ID (variants E (o_Variant (g_Options (game w)))))
         (len (g_Players (game w)) - 2) (g_Score (game w))
         (statedModifier (g_Options (game w))) (w_trace w) p
       = Some round
       /\ w' = {| w_t := w_t w; w_tables := w_tables w;
                  w_trace := w_trace w ++ round |}.
Proof.
  unfold updateUserStats, userStatsRound. intros H.
  apply bind_Ok_inv in H as (g & w0 & Hg & H). injection Hg as <- <-.
  fold (game w) in H.
  apply bind_Ok_inv in H as (a & w1 & Ha & H).
  unfold models_UserStats_Get, db in Ha. injection Ha as <- <-.
  destruct (m_UserStats_Get _ _ _ _) as [stats|err].
  - apply bind_Ok_inv in H as (stored & w2 & Hs & H).
    unfold at_index in Hs.
    destruct (index (us_BestScores stats) _) as [stored0|]; [|discriminate].
    injection Hs as -> <-.
    apply bind_Ok_inv in H as (u & w3 & Hu & H).
    unfold models_UserStats_Update, db in Hu. injection Hu as _ <-.
    injection H as <- <-. split; [reflexivity|].
    eexists. split; [reflexivity|]. cbn [w_t w_tables w_trace].
    rewrite <- app_assoc, userBestScore_replacedBest, modifier_of_values.
    reflexivity.
  - injection H as <- <-. split; [reflexivity|].
    eexists. split; reflexivity.
Qed.

(** The loop over the players of the table. *)
Lemma userStats_loop_rounds (ps : list Player) (j : Z) (w w' : World) :
  forRange (fun _ => updateUserStats E) j ps w = Ok None w' ->
  exists rounds,
    userStatsRounds (models E)
      (v_ID (variants E (o_Variant (g_Options (game w)))))
      (len (g_Players (game w)) - 2) (g_Score (game w))
      (statedModifier (g_Options (game w))) (w_trace w) ps
    = Some rounds
    /\ w' = {| w_t := w_t w; w_tables := w_tables w;
               w_trace := w_trace w ++ rounds |}.
Proof.
  revert j w. induction ps as [|p ps IH]; intros j w H; cbn [forRange] in H.
  - injection H as <-. exists []. split; [reflexivity|].
    rewrite app_nil_r. destruct w. reflexivity.
  - apply bind_Ok_inv in H as (r & w1 & H1 & H).
    apply updateUserStats_round in H1 as (-> & round & Hround & ->).
    apply IH in H as (rounds & Hrounds & ->).
    cbn [w_t w_tables w_trace] in *.
    change (game {| w_t := w_t w; w_tables := w_tables w;
                    w_trace := w_trace w ++ round |})
      with (game w) in Hrounds.
    exists (round ++ rounds). cbn [userStatsRounds].
    rewrite Hround, Hrounds, app_assoc. split; reflexivity.
Qed.

(** The stats of the variant, when they are updated without an error. *)
Lemma updateVariantStats_calls (w w' : World) :
  updateVariantStats E w = Ok None w' ->
  let variant := variants E (o_Variant (g_Options (game w))) in
  exists stats',
    w' = {| w_t := w_t w; w_tables := w_tables w;
            w_trace :=
              w_trace w
              ++ [Db (VariantStats_Get (v_ID variant));
                  Db (VariantStats_Update (v_ID variant) (v_MaxScore variant)
                        stats')] |}.
Proof.
  unfold updateVariantStats. intros H.
  apply bind_Ok_inv in H as (g & w0 & Hg & H). injection Hg as <- <-.
  fold (game w) in H.
  apply bind_Ok_inv in H as (a & w1 & Ha & H).
  unfold models_VariantStats_Get, db in Ha. injection Ha as <- <-.
  destruct (m_VariantStats_Get _ _ _) as [stats|err]; [|discriminate].
  apply bind_Ok_inv in H as (stats' & w2 & Hs & H).
  assert (Hw2 : w2 = {| w_t := w_t w; w_tables := w_tables w;
                        w_trace :=
                          w_trace w
                          ++ [Db (VariantStats_Get
                                    (v_ID (variants E
                                             (o_Variant
                                                (g_Options (game w))))))] |}).
  { destruct (_ && _).
    - apply bind_Ok_inv in Hs as (b & w3 & Hb & Hs).
      unfold at_index in Hb. destruct (index _ _); [|discriminate].
      injection Hb as _ <-. injection Hs as _ <-. reflexivity.
    - injection Hs as _ <-. reflexivity. }
  subst w2. unfold models_VariantStats_Update, db in H.
  injection H as _ <-. cbn [w_t w_tables w_trace].
  exists stats'. rewrite <- app_assoc. reflexivity.
Qed.

(** [WriteDatabase] up to the stats, when it returns without an error. *)
Lemma WriteDatabase_record_stage (w w' : World) :
  WriteDatabase E w = Ok None w' ->
  exists (id : Z) (w8 : World),
    w_t w8 = set_t_Game (set_g_ID id (game w)) (w_t w)
    /\ w_trace w8 = w_trace w ++ map Db (recordCalls E (w_t w) (game w) id)
    /\ check (forRange (fun _ => updateUserStats E) 0 (t_Players (w_t w)))
         (updateVariantStats E) w8
       = Ok None w'.
Proof.
  intros H. unfold WriteDatabase in H.
  apply bind_Ok_inv in H as (t & w0 & Ht & H). injection Ht as <- <-.
  apply bind_Ok_inv in H as (g & w0 & Hg & H). injection Hg as <- <-.
  apply bind_Ok_inv in H as (r & w1 & Hr & H).
  unfold models_Games_Insert, db in Hr. injection Hr as Hr <-.
  destruct r as [v|err]; [|discriminate].
  apply bind_Ok_inv in H as ([] & w2 & Hu & H). injection Hu as <-.
  match type of H with _ ?x = _ => set (w2 := x) in * end.
  apply check_None_inv in H as (w3 & H3 & H).
  apply participants_loop in H3 as [-> Hall].
  apply check_None_inv in H as (w4 & H4 & H).
  apply notes_loop in H4 as ->.
  apply check_None_inv in H as (w5 & H5 & H).
  apply actions_loop in H5 as ->.
  apply check_None_inv in H as (w6 & H6 & H).
  apply gameOver_step in H6 as ->.
  apply check_None_inv in H as (w7 & H7 & H).
  rewrite chat_loop in H7. injection H7 as <-.
  apply check_None_inv in H as (w8 & H8 & H).
  rewrite tags_loop in H8. injection H8 as <-.
  rewrite !add_calls_app in H.
  match type of H with
  | context [ add_calls w2 ?cs ] => set (calls := cs) in *
  end.
  exists v, (add_calls w2 calls). split; [reflexivity|]. split; [|exact H].
  unfold recordCalls. simpl. subst calls. rewrite <- !app_assoc.
  reflexivity.
Qed.

(** C2. When [WriteDatabase] returns without an error, what it has sent to
    the gateway after the record of the game is, for every player of the
    table in turn, the request for the stats of that player and, when the
    gateway answers it, the update of those stats, and then the two calls
    for the stats of the variant. The stats of a player are written back
    with one change at most, in the bucket of the number of players of the
    game: a strictly higher score of the game replaces the stored best
    score, with the modifier of the game (0 without extra options, 1 with
    deck plays, 2 with empty clues, 3 with both); an equal score replaces
    it only when the modifier of the game is strictly lower than the stored
    one; a lower score never replaces it. The stored pair never gets
    worse. *)
Theorem WriteDatabase_user_best_score (w w' : World) :
  WriteDatabase E w = Ok None w' ->
  let g := game w in
  let variant := variants E (o_Variant (g_Options g)) in
  let i := len (g_Players g) - 2 in
  let score := g_Score g in
  let modifier := statedModifier (g_Options g) in
  let new := {| bs_Score := score; bs_Modifier := modifier |} in
  let before :=
    w_trace w ++ map Db (recordCalls E (w_t w) g (g_ID (game w'))) in
  exists (rounds : list Event) (stats' : VariantStatsRow),
    userStatsRounds (models E) (v_ID variant) i score modifier before
      (t_Players (w_t w))
    = Some rounds
    /\ w_trace w' =
         before ++ rounds
         ++ [Db (VariantStats_Get (v_ID variant));
             Db (VariantStats_Update (v_ID variant) (v_MaxScore variant)
                   stats')]
    /\ forall stored : BestScore,
         let best := replacedBest score modifier stored in
         (score > bs_Score stored -> best = new)
         /\ (score = bs_Score stored -> modifier < bs_Modifier stored ->
             best = new)
         /\ (score = bs_Score stored -> modifier >= bs_Modifier stored ->
             best = stored)
         /\ (score < bs_Score stored -> best = stored)
         /\ bs_Score stored <= bs_Score best
         /\ (bs_Score best = bs_Score stored ->
             bs_Modifier best <= bs_Modifier stored).
Proof.
  intros H g variant i score modifier new before.
  apply WriteDatabase_record_stage in H as (id & w8 & Ht8 & Htr8 & H).
  apply check_None_inv in H as (w9 & H9 & H).
  apply userStats_loop_rounds in H9 as (rounds & Hrounds & Hw9).
  apply updateVariantStats_calls in H as (stats' & Hw').
  assert (Hg8 : game w8 = set_g_ID id g)
    by (unfold game at 1; rewrite Ht8; reflexivity).
  assert (Hg9 : game w9 = game w8) by (rewrite Hw9; reflexivity).
  assert (Hid : g_ID (game w') = id).
  { rewrite Hw'. unfold game at 1. cbn [w_t]. fold (game w9).
    rewrite Hg9, Hg8. reflexivity. }
  exists rounds, stats'. subst before. rewrite Hid.
  rewrite Hg8, Htr8 in Hrounds.
  split; [exact Hrounds|]. split.
  { rewrite Hw'. cbn [w_trace]. rewrite Hg9, Hg8, Hw9. cbn [w_trace].
    rewrite Htr8, <- !app_assoc. reflexivity. }
  intros stored best.
  pose proof (replacedBest_monotonic score modifier stored) as Hm.
  subst best. unfold replacedBest in *. fold new in Hm |- *.
  destruct (Z.compare_spec score (bs_Score stored)) as [Hc|Hc|Hc];
    try destruct (Z.ltb_spec modifier (bs_Modifier stored));
    simpl in *; repeat split; intros; try reflexivity; try lia.
Qed.

End UserStats.

Section RecordFacts.

Variable E : Env.

(** X4. When [WriteDatabase] returns without an error, its calls to the
    gateway are, in this order: the row of the game; one row for each
    player of the game, in their order; the notes; the actions and the
    game-over action; the chat messages, each for the room of the table;
    the tags; and after them calls for the stats and no others. The id that
    the participants, notes, actions and tags carry is the one that the
    insertion of the game answered, which is [g.ID] from then on. *)
Theorem WriteDatabase_call_order (w w' : World) :
  WriteDatabase E w = Ok None w' ->
  exists stats,
    m_Games_Insert (models E) (w_trace w) (gameRow E (w_t w) (game w))
    = Val (g_ID (game w'))
    /\ w_trace w' =
         w_trace w
         ++ map Db (recordCalls E (w_t w) (game w) (g_ID (game w')))
         ++ stats
    /\ Forall isStatsCall stats
    /\ length (participantCalls E (w_t w) (g_ID (game w'))
                 (g_Players (game w)))
       = length (g_Players (game w)).
Proof.
  intros H.
  destruct (WriteDatabase_success E w w' H)
    as (stats & Hid & _ & Htr & Hst & Hall).
  exists stats. repeat split; try assumption.
  unfold participantCalls. clear -Hall.
  induction Hall as [|gp gps [[p Hp] [c Hc]] _ IH]; simpl; [reflexivity|].
  rewrite Hp, Hc. simpl. rewrite IH. reflexivity.
Qed.

(** X5. When [WriteDatabase] returns without an error, the notes it has
    sent to the gateway are exactly the notes of the players of the game
    that are not empty, each with the id of the game, the id of the user at
    the seat of the player and its own position among the notes of that
    player. *)
Theorem WriteDatabase_notes (w w' : World) :
  WriteDatabase E w = Ok None w' ->
  forall (userID gameID order : Z) (note : string),
    In (Db (GameParticipantNotes_Insert userID gameID order note))
       (drop (length (w_trace w)) (w_trace w'))
    <-> gameID = g_ID (game w')
        /\ note <> EmptyString
        /\ exists gp p,
             In gp (g_Players (game w))
             /\ index (t_Players (w_t w)) (gp_Index gp) = Some p
             /\ p_ID p = userID
             /\ index (gp_Notes gp) order = Some note.
Proof.
  intros H userID gameID order note.
  destruct (WriteDatabase_success E w w' H)
    as (stats & _ & _ & Htr & Hst & _).
  rewrite Htr, drop_app_length, <- In_noteCalls, in_app_iff, In_map_Db.
  unfold recordCalls. set (c := GameParticipantNotes_Insert _ _ _ _).
  assert (Hk : isNoteCall c) by exact I.
  split.
  - intros [Hin|Hin].
    + destruct Hin as [Hin|Hin]; [discriminate|].
      rewrite !in_app_iff in Hin. destruct Hin as [Hin|[Hin|[Hin|[Hin|[Hin|Hin]]]]].
      * exfalso. exact (Forall_In _ _ _ (participantCalls_kind _ _ _ _) Hin Hk).
      * exact Hin.
      * exfalso. exact (Forall_In _ _ _ (actionCallsFrom_kind _ _ _) Hin Hk).
      * exfalso. exact (Forall_In _ _ _ (gameOverCalls_kind _ _ _) Hin Hk).
      * exfalso. exact (Forall_In _ _ _ (chatCalls_kind _ _) Hin Hk).
      * exfalso. exact (Forall_In _ _ _ (tagCalls_kind _ _) Hin Hk).
    + exfalso. exact (Forall_In _ _ _ Hst Hin).
  - intros Hin. left. right. rewrite !in_app_iff. auto.
Qed.

End RecordFacts.

(** ** Failures in [WriteDatabase] *)

(** As [preserve_with], but [prim] is tried before a step is split. *)
Ltac preserve_blocks prim :=
  repeat first [ prim | preserve_step prim ].

Lemma check_inv (c k : M (option error)) (w w' : World) (r : option error) :
  check c k w = Ok r w' ->
  (exists err, c w = Ok (Some err) w' /\ r = Some err)
  \/ (exists w1, c w = Ok None w1 /\ k w1 = Ok r w').
Proof.
  unfold check. intros H. apply bind_Ok_inv in H as (r0 & w1 & Hc & Hk).
  destruct r0 as [err|].
  - injection Hk as <- <-. left. eauto.
  - right. eauto.
Qed.

Lemma never_err_forRange {A : Type} (body : Z -> A -> M (option error))
    (i : Z) (l : list A) :
  (forall j x, never_err (body j x)) -> never_err (forRange body i l).
Proof.
  intros Hb. revert i. induction l as [|x l IH]; intros i w r w' H;
    simpl in H.
  - injection H as <- _. reflexivity.
  - apply bind_Ok_inv in H as (r0 & w1 & H0 & Hk).
    rewrite (Hb _ _ _ _ _ H0) in Hk. eapply IH, Hk.
Qed.

Lemma noteCallsFrom_okNote (userID id j : Z) (notes : list string) :
  Forall okNote (map Db (noteCallsFrom userID id j notes)).
Proof.
  revert j. induction notes as [|n notes IH]; intros j; simpl.
  - constructor.
  - rewrite map_app. apply Forall_app. split; [|apply IH].
    destruct (String.eqb_spec n ""); repeat constructor. exact n0.
Qed.

Section Failures.

Variable E : Env.

Lemma notes_block_okNote (i : Z) (l : list GamePlayer) :
  preserves (emits okNote) (forRange (insertNotes E) i l).
Proof.
  apply preserves_forRange; [apply _|]. intros j gp w.
  unfold insertNotes.
  rewrite (bind_Ok _ _ w w (w_t w)) by reflexivity.
  rewrite (bind_Ok _ _ w w (game w)) by reflexivity.
  destruct (index (t_Players (w_t w)) (gp_Index gp)) as [p|] eqn:Hp.
  - rewrite (bind_Ok _ _ w w p)
      by (unfold at_index; rewrite Hp; reflexivity).
    rewrite notes_inner_loop. simpl. eexists. split; [reflexivity|].
    apply noteCallsFrom_okNote.
  - unfold bind at 1. unfold at_index. rewrite Hp. reflexivity.
Qed.

Lemma WriteDatabase_okNote : preserves (emits okNote) (WriteDatabase E).
Proof.
  unfold WriteDatabase, insertParticipant, insertAction,
    insertGameOver, insertChat, insertTag, updateUserStats,
    updateVariantStats, models_Games_Insert, models_GameParticipants_Insert,
    models_GameActions_Insert,
    models_ChatLog_Insert, models_GameTags_Insert, models_UserStats_Get,
    models_UserStats_Update, models_VariantStats_Get,
    models_VariantStats_Update.
  preserve_blocks ltac:(first [ apply notes_block_okNote | emits_prim ]).
Qed.

(** X6. However [WriteDatabase] ends, with or without an error or in a
    panic, it has not sent an empty note to the gateway. *)
Theorem WriteDatabase_no_empty_note (w : World) :
  exists l,
    w_trace (world_of (WriteDatabase E w)) = w_trace w ++ l
    /\ forall userID gameID order : Z,
         ~ In (Db (GameParticipantNotes_Insert userID gameID order ""))
              l.
Proof.
  destruct (WriteDatabase_okNote w) as [l [Hl Hok]]. exists l.
  split; [exact Hl|]. intros userID gameID order Hin.
  exact (Forall_In _ _ _ Hok Hin eq_refl).
Qed.

(** X7. When the insertion of the row of the game fails, [WriteDatabase]
    returns that error after this one call: nothing else goes to the
    gateway, and the game keeps the id it had. *)
Theorem WriteDatabase_game_row_fails (w : World) (err : error) :
  m_Games_Insert (models E) (w_trace w) (gameRow E (w_t w) (game w))
  = Err err ->
  WriteDatabase E w
  = Ok (Some err) (add_calls w [Games_Insert (gameRow E (w_t w) (game w))]).
Proof.
  intros H. unfold WriteDatabase, bind, get_t, get_g, models_Games_Insert, db.
  fold (game w). fold (gameRow E (w_t w) (game w)). rewrite H. reflexivity.
Qed.

Lemma participants_never_err (gps : list GamePlayer) (i : Z)
    (w w' : World) (r : option error) :
  (forall h a b c d e,
     m_GameParticipants_Insert (models E) h a b c d e = None) ->
  o_CharacterAssignments (t_Options (w_t w)) = false ->
  forRange (insertParticipant E) i gps w = Ok r w' -> r = None.
Proof.
  intros Hins. revert i w. induction gps as [|gp gps IH]; intros i w Hc H;
    simpl in H.
  - injection H as <- _. reflexivity.
  - apply bind_Ok_inv in H as (r0 & w1 & H0 & Hk).
    unfold insertParticipant, bind, get_t, get_g, at_index in H0.
    destruct (index (t_Players (w_t w)) (gp_Index gp)) as [p|];
      [|discriminate].
    simpl in H0. rewrite Hc in H0.
    unfold models_GameParticipants_Insert, db in H0.
    injection H0 as <- <-. rewrite Hins in Hk. eapply IH, Hk. exact Hc.
Qed.

Lemma insertNotes_never_err (j : Z) (gp : GamePlayer) :
  never_err (insertNotes E j gp).
Proof.
  intros w r w' H. unfold insertNotes in H.
  apply bind_Ok_inv in H as (t & w0 & Ht & H). injection Ht as <- <-.
  apply bind_Ok_inv in H as (g & w0 & Hg & H). injection Hg as <- <-.
  apply bind_Ok_inv in H as (p & w0 & Hp & H).
  rewrite notes_inner_loop in H. injection H as <- _. reflexivity.
Qed.

Lemma updateUserStats_never_err (p : Player) : never_err (updateUserStats E p).
Proof.
  intros w r w' H. unfold updateUserStats in H.
  apply bind_Ok_inv in H as (g & w0 & Hg & H). injection Hg as <- <-.
  apply bind_Ok_inv in H as (s & w0 & Hs & H).
  destruct s as [stats|err].
  - apply bind_Ok_inv in H as (b & w1 & Hb & H).
    apply bind_Ok_inv in H as (u & w2 & Hu & H).
    injection H as <- _. reflexivity.
  - injection H as <- _. reflexivity.
Qed.

(** X8. The steps that the code treats as best effort cannot make
    [WriteDatabase] fail: on a gateway whose insertions of games,
    participants and actions and whose calls for the stats of the variant
    always succeed, and for a table without character assignments,
    [WriteDatabase] returns no error, whatever the gateway answers when a
    note, a chat message or a tag is inserted or the stats of a user are
    read or written. *)
Theorem WriteDatabase_best_effort (w w' : World) (r : option error) :
  (forall h row, exists id, m_Games_Insert (models E) h row = Val id) ->
  (forall h a b c d e,
     m_GameParticipants_Insert (models E) h a b c d e = None) ->
  (forall h a b c, m_GameActions_Insert (models E) h a b c = None) ->
  (forall h v, exists stats, m_VariantStats_Get (models E) h v = Val stats) ->
  (forall h a b c, m_VariantStats_Update (models E) h a b c = None) ->
  o_CharacterAssignments (t_Options (w_t w)) = false ->
  WriteDatabase E w = Ok r w' ->
  r = None.
Proof.
  intros Hg Hp Ha Hvg Hvu Hc H. unfold WriteDatabase in H.
  apply bind_Ok_inv in H as (t & w0 & Ht & H). injection Ht as <- <-.
  apply bind_Ok_inv in H as (g & w0 & Hg0 & H). injection Hg0 as <- <-.
  apply bind_Ok_inv in H as (r0 & w1 & Hr & H).
  unfold models_Games_Insert, db in Hr. injection Hr as Hr <-.
  destruct (Hg (w_trace w)
              {| gr_Name := t_Name (w_t w);
                 gr_NumPlayers := len (g_Players (t_Game (w_t w)));
                 gr_Variant :=
                   v_ID (variants E (o_Variant (g_Options (t_Game (w_t w)))));
                 gr_Timed := o_Timed (g_Options (t_Game (w_t w)));
                 gr_TimeBase := o_TimeBase (g_Options (t_Game (w_t w)));
                 gr_TimePerTurn := o_TimePerTurn (g_Options (t_Game (w_t w)));
                 gr_Speedrun := o_Speedrun (g_Options (t_Game (w_t w)));
                 gr_CardCycle := o_CardCycle (g_Options (t_Game (w_t w)));
                 gr_DeckPlays := o_DeckPlays (g_Options (t_Game (w_t w)));
                 gr_EmptyClues := o_EmptyClues (g_Options (t_Game (w_t w)));
                 gr_CharacterAssignments :=
                   o_CharacterAssignments (g_Options (t_Game (w_t w)));
                 gr_Seed := g_Seed (t_Game (w_t w));
                 gr_Score := g_Score (t_Game (w_t w));
                 gr_NumTurns := g_Turn (t_Game (w_t w));
                 gr_EndCondition := g_EndCondition (t_Game (w_t w));
                 gr_DatetimeStarted := g_DatetimeStarted (t_Game (w_t w));
                 gr_DatetimeFinished := g_DatetimeFinished (t_Game (w_t w)) |})
    as [id Hid].
  rewrite Hid in Hr. subst r0.
  apply bind_Ok_inv in H as ([] & w2 & Hu & H). injection Hu as <-.
  apply check_inv in H as [(err & H1 & _)|(w3 & _ & H)].
  { apply participants_never_err in H1; [discriminate|exact Hp|exact Hc]. }
  apply check_inv in H as [(err & H1 & _)|(w4 & _ & H)].
  { apply never_err_forRange in H1; [discriminate|].
    apply insertNotes_never_err. }
  apply check_inv in H as [(err & H1 & _)|(w5 & _ & H)].
  { apply never_err_forRange in H1; [discriminate|].
    intros j a w6 r6 w6' H6.
    unfold insertAction, bind, get_g, models_GameActions_Insert, db in H6.
    injection H6 as <- _. apply Ha. }
  apply check_inv in H as [(err & H1 & _)|(w6 & _ & H)].
  { unfold insertGameOver, bind, get_g in H1.
    destruct (gameOverAction E (t_Game (w_t w5))).
    - unfold models_GameActions_Insert, db in H1. injection H1 as H1 _.
      rewrite Ha in H1. discriminate.
    - discriminate. }
  apply check_inv in H as [(err & H1 & _)|(w7 & _ & H)].
  { rewrite chat_loop in H1. discriminate. }
  apply check_inv in H as [(err & H1 & _)|(w8 & _ & H)].
  { rewrite tags_loop in H1. discriminate. }
  apply check_inv in H as [(err & H1 & _)|(w9 & _ & H)].
  { apply never_err_forRange in H1; [discriminate|].
    intros j p. apply updateUserStats_never_err. }
  unfold updateVariantStats in H.
  apply bind_Ok_inv in H as (g9 & w0 & Hg9 & H). injection Hg9 as <- <-.
  apply bind_Ok_inv in H as (s & w10 & Hs & H).
  unfold models_VariantStats_Get, db in Hs. injection Hs as Hs <-.
  destruct (Hvg (w_trace w9)
              (v_ID (variants E (o_Variant (g_Options (t_Game (w_t w9)))))))
    as [stats Hstats].
  rewrite Hstats in Hs. subst s.
  apply bind_Ok_inv in H as (s' & w11 & _ & H).
  unfold models_VariantStats_Update, db in H. injection H as <- _.
  apply Hvu.
Qed.

End Failures.

Section Integrity.

Variable E : Env.

Lemma participants_block_record (i : Z) (l : list GamePlayer) :
  preserves (emits isRecordCall) (forRange (insertParticipant E) i l).
Proof.
  unfold insertParticipant, models_GameParticipants_Insert.
  preserve_with emits_prim.
Qed.

Lemma characterID_unknown (o : Options) (gp : GamePlayer) :
  o_CharacterAssignments o = true ->
  gp_Character gp <> "n/a"%string ->
  characters E !! gp_Character gp = None ->
  exists err, characterID E o gp = Err err.
Proof.
  intros Ho Hn Hc. unfold characterID. rewrite Ho, Hc.
  destruct (String.eqb_spec (gp_Character gp) "n/a"); [contradiction|].
  eauto.
Qed.

(** X9. With character assignments, a player whose character is neither
    n/a nor in the map of the characters makes [WriteDatabase] fail: it
    never returns without an error, and however it ends, what has gone to
    the gateway by then is the row of the game and rows of participants,
    nothing else. *)
Theorem WriteDatabase_unknown_character (w : World) (gp : GamePlayer) :
  o_CharacterAssignments (t_Options (w_t w)) = true ->
  In gp (g_Players (game w)) ->
  gp_Character gp <> "n/a"%string ->
  characters E !! gp_Character gp = None ->
  (forall w', WriteDatabase E w <> Ok None w')
  /\ exists l,
       w_trace (world_of (WriteDatabase E w)) = w_trace w ++ l
       /\ Forall isRecordCall l.
Proof.
  intros Ho Hin Hn Hc.
  destruct (characterID_unknown (t_Options (w_t w)) gp Ho Hn Hc)
    as [err Herr].
  assert (Hloop : forall i w2 w3,
            t_Options (w_t w2) = t_Options (w_t w) ->
            forRange (insertParticipant E) i (g_Players (game w)) w2
            <> Ok None w3).
  { intros i w2 w3 Ho2 H. apply participants_loop in H as [_ Hall].
    apply (Forall_In _ _ _ Hall) in Hin as [_ [c Hval]].
    rewrite Ho2, Herr in Hval. discriminate. }
  split.
  - intros w' H. unfold WriteDatabase in H.
    apply bind_Ok_inv in H as (t & w0 & Ht & H). injection Ht as <- <-.
    apply bind_Ok_inv in H as (g & w0 & Hg & H). injection Hg as <- <-.
    apply bind_Ok_inv in H as (r & w1 & Hr & H).
    destruct r as [v|e]; [|discriminate].
    unfold models_Games_Insert, db in Hr. injection Hr as _ <-.
    apply bind_Ok_inv in H as ([] & w2 & Hu & H). injection Hu as <-.
    apply check_None_inv in H as (w3 & H3 & _).
    eapply Hloop; [|exact H3]. reflexivity.
  - unfold WriteDatabase.
    rewrite (bind_Ok _ _ w w (w_t w)) by reflexivity.
    rewrite (bind_Ok _ _ w w (game w)) by reflexivity.
    unfold bind at 1. unfold models_Games_Insert at 1, db at 1.
    match goal with
    | |- context [ m_Games_Insert (models E) (w_trace w) ?row ] =>
        destruct (m_Games_Insert (models E) (w_trace w) row) as [v|e]
    end.
    + unfold bind at 1. unfold update_g at 1, update_t at 1.
      match goal with
      | |- context [ check _ _ ?x ] => set (w2 := x)
      end.
      pose proof (participants_block_record 0 (g_Players (game w)) w2)
        as [l [Hl Hrec]].
      unfold check at 1. unfold bind at 1.
      destruct (forRange (insertParticipant E) 0 (g_Players (game w)) w2)
        as [[e|] w3|w3] eqn:Hrun.
      * simpl in *. exists (Db (Games_Insert (gameRow E (w_t w) (game w))) :: l).
        rewrite Hl. simpl. rewrite <- app_assoc. split; [reflexivity|].
        constructor; [exact I|exact Hrec].
      * exfalso. eapply Hloop; [|exact Hrun]. reflexivity.
      * simpl in *. exists (Db (Games_Insert (gameRow E (w_t w) (game w))) :: l).
        rewrite Hl. simpl. rewrite <- app_assoc. split; [reflexivity|].
        constructor; [exact I|exact Hrec].
    + simpl. eexists. split; [reflexivity|]. repeat constructor.
Qed.

(** X10. However [WriteDatabase] ends, it has only talked to the gateway:
    no session and no table is notified, the registry of tables is as it
    was, and in the table nothing has changed but, at most, the id of the
    game. *)
Theorem WriteDatabase_frame (w : World) :
  let w' := world_of (WriteDatabase E w) in
  w_tables w' = w_tables w
  /\ (exists id, w_t w' = set_t_Game (set_g_ID id (game w)) (w_t w))
  /\ exists l, w_trace w' = w_trace w ++ l /\ Forall isDb l.
Proof. exact (WriteDatabase_only_db E w). Qed.

End Integrity.

(** ** More on the shared replay ([ConvertToSharedReplay]) *)

Lemma find_filter {A : Type} (f : A -> bool) (l : list A) (x : A) :
  find f l = Some x -> exists rest, List.filter f l = x :: rest.
Proof.
  induction l as [|y l IH]; simpl; [discriminate|].
  destruct (f y) eqn:Hy.
  - intros [= ->]. eauto.
  - exact IH.
Qed.

Section Spectators.

Variable E : Env.

Lemma newSpectators_not_idle (o : Options) (g : Game) (ps : list Player) :
  g_EndCondition g <> EndConditionIdleTimeout E ->
  newSpectators E o g ps = map (newSpectator E o g) (List.filter p_Present ps).
Proof.
  intros H. unfold newSpectators.
  apply Z.eqb_neq in H. rewrite H.
  induction ps as [|p ps IH]; cbn [flat_map List.filter map];
    [reflexivity|].
  rewrite IH. destruct (p_Present p); reflexivity.
Qed.

(** X11. Unless the game ended for idleness, [ConvertToSharedReplay]
    returns and has appended to the spectators of the table one spectator
    for each present player, in the order of the players: with the id, the
    name and the session of the player, and with as many notes, all empty,
    as there are cards in the deck and suits in the variant. Players who
    are not present are not made spectators. *)
Theorem ConvertToSharedReplay_spectators (w : World) :
  g_EndCondition (game w) <> EndConditionIdleTimeout E ->
  exists w',
    ConvertToSharedReplay E w = Ok tt w'
    /\ t_Spectators (w_t w') =
         t_Spectators (w_t w)
         ++ map (fun p =>
                   {| sp_ID := p_ID p;
                      sp_Name := p_Name p;
                      sp_Session := p_Session p;
                      sp_Notes :=
                        replicate
                          (length (g_Deck (game w))
                           + length
                               (v_Suits
                                  (variants E
                                     (o_Variant (t_Options (w_t w))))))%nat
                          EmptyString |})
                (List.filter p_Present (t_Players (w_t w))).
Proof.
  intros H. exists (converted E w).
  split; [apply ConvertToSharedReplay_spec|].
  rewrite converted_spectators, newSpectators_not_idle by exact H.
  reflexivity.
Qed.

(** X12. The owner of the table stays the leader of the replay unless a
    player with the id of the owner is away from the table and has no open
    session: an owner who is at the table, or in the lobby with a session
    that is not closed, keeps the replay. *)
Theorem ConvertToSharedReplay_owner_kept (w : World) :
  (forall p, In p (t_Players (w_t w)) -> p_ID p = t_Owner (w_t w) ->
             p_Present p = true
             \/ exists s, p_Session p = Some s /\ s_IsClosed s = false) ->
  exists w',
    ConvertToSharedReplay E w = Ok tt w'
    /\ t_Owner (w_t w') = t_Owner (w_t w).
Proof.
  intros H. exists (converted E w).
  split; [apply ConvertToSharedReplay_spec|].
  assert (Hoff : existsb (isOfflineOwner (t_Owner (w_t w)))
                   (t_Players (w_t w)) = false).
  { destruct (existsb _ _) eqn:Hex; [|reflexivity]. exfalso.
    apply existsb_exists in Hex as (p & Hin & Hp).
    unfold isOfflineOwner in Hp.
    apply andb_true_iff in Hp as [Hp Hclosed].
    apply andb_true_iff in Hp as [Hpres Hid].
    apply Z.eqb_eq in Hid.
    destruct (H p Hin Hid) as [Hp|(s & Hs & Hopen)].
    - rewrite Hp in Hpres. discriminate.
    - rewrite Hs, Hopen in Hclosed. discriminate. }
  unfold converted. rewrite Hoff.
  destruct (t_Spectators (w_t w) ++ _); reflexivity.
Qed.

(** X13. At a table that nobody was watching, and unless the game ended
    for idleness: when the owner is away without an open session, the new
    leader is the first present player in the order of the players (whose
    id is not -1). *)
Theorem ConvertToSharedReplay_first_present (w : World) (p : Player) :
  t_Spectators (w_t w) = [] ->
  g_EndCondition (game w) <> EndConditionIdleTimeout E ->
  existsb (isOfflineOwner (t_Owner (w_t w))) (t_Players (w_t w)) = true ->
  find p_Present (t_Players (w_t w)) = Some p ->
  p_ID p <> -1 ->
  exists w',
    ConvertToSharedReplay E w = Ok tt w'
    /\ t_Owner (w_t w') = p_ID p.
Proof.
  intros Hs Hidle Hoff Hfind Hid. exists (converted E w).
  split; [apply ConvertToSharedReplay_spec|].
  destruct (find_filter _ _ _ Hfind) as [rest Hrest].
  rewrite (converted_owner E w (newSpectator E (t_Options (w_t w)) (game w) p)
             (map (newSpectator E (t_Options (w_t w)) (game w)) rest)).
  - rewrite (electedOwner_somebody_present _ _ p Hfind Hid). reflexivity.
  - exact Hoff.
  - rewrite Hs, newSpectators_not_idle, Hrest by exact Hidle. reflexivity.
Qed.

End Spectators.

Lemma databaseIDOf_spectatorEvents (E : Env) (tableID gameID : Z)
    (sps : list Spectator) :
  omap databaseIDOf (flat_map (spectatorEvents E tableID gameID) sps)
  = map (fun sp => (sp_Session sp, tableID, gameID)) sps.
Proof.
  induction sps as [|sp sps IH]; [reflexivity|].
  cbn [flat_map map]. rewrite omap_app, IH. unfold spectatorEvents.
  destruct (sp_Session sp); reflexivity.
Qed.

Lemma spectatorEvents_not_db (E : Env) (tableID gameID : Z)
    (sps : list Spectator) :
  Forall (fun e => ~ isDb e)
    (flat_map (spectatorEvents E tableID gameID) sps).
Proof.
  induction sps as [|sp sps IH]; [constructor|].
  cbn [flat_map]. apply Forall_app. split; [|exact IH].
  unfold spectatorEvents.
  destruct (sp_Session sp); repeat constructor; simpl; auto.
Qed.

Section Replay2.

Variable E : Env.

(** X14. [ConvertToSharedReplay] returns with the turn of the game one
    less than it was (in 64 bits) and the old turn as the end turn. If the
    table has a spectator afterwards, it is still in the registry of
    tables, is marked as a replay with the progress 100, has the name
    "Shared replay for game #" followed by the id of the game, and each of
    its players is marked present and otherwise as before. *)
Theorem ConvertToSharedReplay_table (w : World) :
  exists w',
    ConvertToSharedReplay E w = Ok tt w'
    /\ g_EndTurn (game w') = g_Turn (game w)
    /\ g_Turn (game w') = wrap64 (g_Turn (game w) - 1)
    /\ (t_Spectators (w_t w') <> [] ->
        w_tables w' = w_tables w
        /\ t_Replay (w_t w') = true
        /\ t_Progress (w_t w') = 100
        /\ t_Name (w_t w')
           = "Shared replay for game #" +:+ Itoa (g_ID (game w))
        /\ t_Players (w_t w')
           = map (fun p =>
                    {| p_ID := p_ID p; p_Name := p_Name p; p_Present := true;
                       p_Session := p_Session p |})
                 (t_Players (w_t w))).
Proof.
  exists (converted E w). split; [apply ConvertToSharedReplay_spec|].
  unfold converted. cbv zeta.
  destruct (t_Spectators (w_t w) ++ _) as [|sp0 sps].
  - simpl. split; [reflexivity|]. split; [reflexivity|].
    intros Hne. contradiction.
  - destruct (existsb (isOfflineOwner (t_Owner (w_t w))) (t_Players (w_t w)));
      simpl; (split; [reflexivity|]); (split; [reflexivity|]); intros _;
      repeat split; reflexivity.
Qed.

(** X15. [ConvertToSharedReplay] makes no call to the gateway, and the
    databaseID messages it sends are one for each spectator that the table
    has afterwards, in their order, to the session of the spectator, nil or
    not, with the id of the table and the id of the game. *)
Theorem ConvertToSharedReplay_messages (w : World) :
  exists w' l,
    ConvertToSharedReplay E w = Ok tt w'
    /\ w_trace w' = w_trace w ++ l
    /\ Forall (fun e => ~ isDb e) l
    /\ omap databaseIDOf l
       = map (fun sp => (sp_Session sp, t_ID (w_t w), g_ID (game w)))
             (t_Spectators (w_t w')).
Proof.
  exists (converted E w). generalize (ConvertToSharedReplay_spec E w).
  unfold converted. cbv zeta.
  destruct (t_Spectators (w_t w) ++ _) as [|sp0 sps]; intros Hc.
  - exists []. split; [exact Hc|]. simpl.
    rewrite app_nil_r. repeat split. constructor.
  - eexists. split; [exact Hc|].
    split; [reflexivity|]. split.
    + apply Forall_app. split; [repeat constructor; simpl; auto|].
      apply Forall_app. split; [apply spectatorEvents_not_db|].
      repeat constructor; simpl; auto.
    + rewrite !omap_app, databaseIDOf_spectatorEvents. simpl.
      rewrite app_nil_r.
      destruct (existsb (isOfflineOwner (t_Owner (w_t w)))
                  (t_Players (w_t w))); reflexivity.
Qed.

End Replay2.

(** ** [End] as a whole *)

(** One turn forward and one turn back is the turn itself, also at the
    largest 64-bit value. *)
Lemma wrap64_turn (z : Z) : in_int64 z -> wrap64 (wrap64 (z + 1) - 1) = z.
Proof.
  unfold in_int64, min_int64, max_int64. intros H.
  destruct (Z.eq_dec z (2 ^ 63 - 1)) as [->|Hne].
  - reflexivity.
  - rewrite (wrap64_small (z + 1))
      by (unfold in_int64, min_int64, max_int64; lia).
    replace (z + 1 - 1) with z by lia. apply wrap64_small.
    unfold in_int64, min_int64, max_int64. lia.
Qed.

Section Whole.

Variable E : Env.

Ltac unfold_beforeWrite :=
  unfold finalize, appendDeckOrder, appendAction, announceTimes, announceTime,
    signalGameOver, reveal, resetStatus.

Ltac unfold_End :=
  unfold End, afterFinalize, recordAndConvert, models_Games_GetNumSimilar;
  unfold_beforeWrite;
  unfold WriteDatabase, insertParticipant, insertNotes, insertAction,
    insertGameOver, insertChat, insertTag, updateUserStats,
    updateVariantStats, models_Games_Insert, models_GameParticipants_Insert,
    models_GameParticipantNotes_Insert, models_GameActions_Insert,
    models_ChatLog_Insert, models_GameTags_Insert, models_UserStats_Get,
    models_UserStats_Update, models_VariantStats_Get,
    models_VariantStats_Update;
  unfold ConvertToSharedReplay, toSpectator, electLeader, notifySpectator.

Ltac tableFrame_prim :=
  idtac; first
    [ same_t_on_prim
    | apply same_t_on_update_t; intros ?; unfold tableFrame; simpl;
      rewrite ?map_map; reflexivity
    | intros ?; reflexivity ].

Lemma End_gameFrame (now : Z) : preserves (same_on gameFrame) (End E now).
Proof. unfold_End. preserve_with same_on_prim. Qed.

Lemma End_tableFrame (now : Z) : preserves (same_t_on tableFrame) (End E now).
Proof.
  unfold_End.
  preserve_with tableFrame_prim.
Qed.

(** X16. However [End] ends, it has left alone: in the game, the
    options, the players with their hands and notes, the seed, the deck,
    the start time, the end condition, the end player, the persisted
    action log and the tags; in the table, the id, the options, the chat,
    and the id, the name and the session of every player. *)
Theorem End_frame (now : Z) (w : World) :
  let g := game w in
  let g' := game (world_of (End E now w)) in
  let t := w_t w in
  let t' := w_t (world_of (End E now w)) in
  g_Options g' = g_Options g
  /\ g_Players g' = g_Players g
  /\ g_Seed g' = g_Seed g
  /\ g_Deck g' = g_Deck g
  /\ g_DatetimeStarted g' = g_DatetimeStarted g
  /\ g_EndCondition g' = g_EndCondition g
  /\ g_EndPlayer g' = g_EndPlayer g
  /\ g_Actions2 g' = g_Actions2 g
  /\ g_Tags g' = g_Tags g
  /\ t_ID t' = t_ID t
  /\ t_Options t' = t_Options t
  /\ t_Chat t' = t_Chat t
  /\ map (fun p => (p_ID p, p_Name p, p_Session p)) (t_Players t')
     = map (fun p => (p_ID p, p_Name p, p_Session p)) (t_Players t).
Proof.
  intros g g' t t'.
  pose proof (End_gameFrame now w) as Hg.
  pose proof (End_tableFrame now w) as Ht.
  unfold same_on, gameFrame in Hg. unfold same_t_on, tableFrame in Ht.
  fold g g' in Hg. fold t t' in Ht.
  injection Hg as -> -> -> -> -> -> -> -> ->.
  injection Ht as -> -> -> ->. repeat split; reflexivity.
Qed.

End Whole.

Lemma omap_silent {A : Type} (f : Event -> option A) (l : list Event) :
  Forall (fun e => f e = None) l -> omap f l = [].
Proof.
  induction 1 as [|e l He _ IH]; [reflexivity|].
  cbn [omap list_omap]. rewrite He. exact IH.
Qed.

Lemma Forall_isDb_silent {A : Type} (f : Event -> option A) (l : list Event) :
  (forall c, f (Db c) = None) -> Forall isDb l ->
  Forall (fun e => f e = None) l.
Proof.
  intros Hf H. induction H as [|e l He _ IH]; constructor; [|exact IH].
  destruct e; try contradiction. apply Hf.
Qed.

Lemma forEach_emit {A : Type} (f : A -> Event) (l : list A) (w : World) :
  forEach (fun x => emit (f x)) l w =
    Ok tt {| w_t := w_t w; w_tables := w_tables w;
             w_trace := w_trace w ++ map f l |}.
Proof.
  revert w. induction l as [|x l IH]; intros w; simpl.
  - rewrite app_nil_r. destruct w. reflexivity.
  - unfold bind, emit. rewrite IH. simpl. rewrite <- app_assoc. reflexivity.
Qed.

Lemma omap_revealEvent (l : list (option Session * Card)) :
  omap revealOf (map revealEvent l) = l.
Proof.
  induction l as [|[s [su ra o]] l IH]; [reflexivity|].
  cbn [map omap list_omap]. cbn [revealEvent revealOf fst snd c_Suit c_Rank c_Order].
  simpl. f_equal. exact IH.
Qed.

Lemma omap_history (h : list GameHistory) (ps : list Player) :
  omap historyOf
    (map (fun p => Session_Emit (p_Session p) "gameHistory"
                     (GameHistoryList h)) ps)
  = map (fun p => (p_Session p, h)) ps.
Proof.
  induction ps as [|p ps IH]; [reflexivity|].
  cbn [map omap list_omap]. simpl. f_equal. exact IH.
Qed.

Lemma statusResets_silent {A : Type} (f : Event -> option A) (E : Env)
    (ps : list Player) :
  (forall s k v, f (Session_Set s k v) = None) ->
  (forall s, f (notifyAllUser s) = None) ->
  omap f (statusResets E ps) = [].
Proof.
  intros H1 H2. apply omap_silent. unfold statusResets.
  induction ps as [|p ps IH]; [constructor|].
  cbn [flat_map]. apply Forall_app. split; [|exact IH].
  destruct (p_Session p); repeat constructor; auto.
Qed.

Ltac silent_prim :=
  idtac; first
    [ apply emits_db; reflexivity
    | apply emits_emit; reflexivity
    | apply emits_update_t
    | apply emits_update_g
    | apply emits_delete_tables ].

Section Whole2.

Variable E : Env.

Ltac unfold_record :=
  unfold recordAndConvert, models_Games_GetNumSimilar;
  unfold WriteDatabase, insertParticipant, insertNotes, insertAction,
    insertGameOver, insertChat, insertTag, updateUserStats,
    updateVariantStats, models_Games_Insert, models_GameParticipants_Insert,
    models_GameParticipantNotes_Insert, models_GameActions_Insert,
    models_ChatLog_Insert, models_GameTags_Insert, models_UserStats_Get,
    models_UserStats_Update, models_VariantStats_Get,
    models_VariantStats_Update;
  unfold ConvertToSharedReplay, toSpectator, electLeader, notifySpectator.

Lemma beforeWrite_no_history (now : Z) :
  preserves (emits (fun e => historyOf e = None)) (beforeWrite E now).
Proof.
  unfold beforeWrite, finalize, appendDeckOrder, appendAction, announceTimes,
    announceTime, signalGameOver, reveal, resetStatus.
  preserve_with silent_prim.
Qed.

Lemma ConvertToSharedReplay_no_history :
  preserves (emits (fun e => historyOf e = None)) (ConvertToSharedReplay E).
Proof.
  unfold ConvertToSharedReplay, toSpectator, electLeader, notifySpectator.
  preserve_with silent_prim.
Qed.

Lemma recordAndConvert_no_reveal :
  preserves (emits (fun e => revealOf e = None)) (recordAndConvert E).
Proof. unfold_record. preserve_with silent_prim. Qed.

Lemma middle_no_reveal :
  preserves (emits (fun e => revealOf e = None))
    (appendDeckOrder ;; announceTimes E).
Proof.
  unfold appendDeckOrder, appendAction, announceTimes, announceTime.
  preserve_with silent_prim.
Qed.

Lemma reveal_loop (gps : list GamePlayer) (w w' : World) :
  forEach reveal gps w = Ok tt w' ->
  w' = {| w_t := w_t w; w_tables := w_tables w;
          w_trace := w_trace w ++ map revealEvent (reveals (w_t w) gps) |}.
Proof.
  revert w. induction gps as [|gp gps IH]; intros w H; simpl in H.
  - injection H as <-. simpl. rewrite app_nil_r. destruct w. reflexivity.
  - apply bind_Ok_inv in H as ([] & w1 & H1 & H).
    apply IH in H. subst w'.
    unfold reveal in H1.
    apply bind_Ok_inv in H1 as (t & w0 & Ht & H1). injection Ht as <- <-.
    apply bind_Ok_inv in H1 as (p & w0 & Hp & H1). unfold at_index in Hp.
    unfold reveals. cbn [flat_map].
    destruct (index (t_Players (w_t w)) (gp_Index gp)) as [p0|];
      [|discriminate].
    injection Hp as -> <-.
    destruct (p_Present p).
    + rewrite (forEach_emit
                 (fun c => Session_Emit (p_Session p) "reveal"
                             (RevealMessage (c_Suit c) (c_Rank c)
                                (c_Order c)))) in H1.
      injection H1 as <-. simpl. rewrite map_app, map_map, <- app_assoc.
      reflexivity.
    + injection H1 as <-. reflexivity.
Qed.

Lemma signalGameOver_spec (w w2 : World) :
  signalGameOver E w = Ok tt w2 ->
  w_t w2 = set_t_Game (set_g_Turn (wrap64 (g_Turn (game w) + 1)) (game w))
             (w_t w)
  /\ w_trace w2 =
       w_trace w ++ [NotifyTurn; NotifyGameOver]
       ++ map revealEvent (reveals (w_t w) (g_Players (game w)))
       ++ [notifyAllTableGone] ++ statusResets E (t_Players (w_t w)).
Proof.
  unfold signalGameOver. intros H.
  apply bind_Ok_inv in H as (g & w0 & Hg & H). injection Hg as <- <-.
  apply bind_Ok_inv in H as ([] & w0 & Hu & H). injection Hu as <-.
  apply bind_Ok_inv in H as ([] & w0 & Hu & H). injection Hu as <-.
  apply bind_Ok_inv in H as ([] & w0 & Hu & H). injection Hu as <-.
  apply bind_Ok_inv in H as ([] & w1 & Hrev & H).
  apply reveal_loop in Hrev. subst w1.
  apply bind_Ok_inv in H as ([] & w0 & Hu & H). injection Hu as <-.
  apply bind_Ok_inv in H as (t & w0 & Hu & H). injection Hu as <- <-.
  rewrite forEach_resetStatus in H. injection H as <-. simpl.
  split; [reflexivity|]. rewrite <- !app_assoc. reflexivity.
Qed.

Lemma beforeWrite_same_on {B : Type} (f : Game -> B) (now : Z) :
  (forall g z, f (set_g_Turn z g) = f g) ->
  (forall g l, f (set_g_Actions l g) = f g) ->
  (forall g z, f (set_g_Score z g) = f g) ->
  (forall g z, f (set_g_DatetimeFinished z g) = f g) ->
  preserves (same_on f) (beforeWrite E now).
Proof.
  intros Ht Ha Hs Hd.
  unfold beforeWrite, finalize, appendDeckOrder, appendAction, announceTimes,
    announceTime, signalGameOver, reveal, resetStatus.
  preserve_with ltac:(idtac; first
    [ apply same_on_update_g; intros ?;
      first [apply Ht | apply Ha | apply Hs | apply Hd]
    | same_on_prim ]).
Qed.

Lemma beforeWrite_players (now : Z) :
  preserves (same_t_on t_Players) (beforeWrite E now).
Proof.
  unfold beforeWrite, finalize, appendDeckOrder, appendAction, announceTimes,
    announceTime, signalGameOver, reveal, resetStatus.
  preserve_with same_t_on_prim.
Qed.

Lemma middle_same_on {B : Type} (f : Game -> B) :
  (forall g l, f (set_g_Actions l g) = f g) ->
  preserves (same_on f) (appendDeckOrder ;; announceTimes E).
Proof.
  intros Ha.
  unfold appendDeckOrder, appendAction, announceTimes, announceTime.
  preserve_with ltac:(idtac; first
    [ apply same_on_update_g; intros ?; apply Ha | same_on_prim ]).
Qed.

Lemma middle_players :
  preserves (same_t_on t_Players) (appendDeckOrder ;; announceTimes E).
Proof.
  unfold appendDeckOrder, appendAction, announceTimes, announceTime.
  preserve_with same_t_on_prim.
Qed.

(** Everything before the write: the turn, the score and the finish time
    are set, the rest of what the record reads is as it was, and the
    reveal messages are those of the hands of the players present. *)
Lemma beforeWrite_spec (now : Z) (w w2 : World) :
  beforeWrite E now w = Ok tt w2 ->
  g_Turn (game w2) = wrap64 (g_Turn (game w) + 1)
  /\ g_Score (game w2) = finalScore E (game w)
  /\ g_DatetimeFinished (game w2) = now
  /\ gameFrame (game w2) = gameFrame (game w)
  /\ g_ID (game w2) = g_ID (game w)
  /\ t_Players (w_t w2) = t_Players (w_t w)
  /\ exists l, w_trace w2 = w_trace w ++ l
       /\ omap revealOf l = reveals (w_t w) (g_Players (game w))
       /\ omap historyOf l = [].
Proof.
  intros H.
  pose proof (preserves_Ok _ _ _ _ _
                (beforeWrite_same_on gameFrame now
                   (fun _ _ => eq_refl) (fun _ _ => eq_refl)
                   (fun _ _ => eq_refl) (fun _ _ => eq_refl)) H) as HF.
  pose proof (preserves_Ok _ _ _ _ _
                (beforeWrite_same_on g_ID now
                   (fun _ _ => eq_refl) (fun _ _ => eq_refl)
                   (fun _ _ => eq_refl) (fun _ _ => eq_refl)) H) as HI.
  pose proof (preserves_Ok _ _ _ _ _ (beforeWrite_players now) H) as HP.
  pose proof (preserves_Ok _ _ _ _ _ (beforeWrite_no_history now) H)
    as (l & Hl & Hh).
  unfold same_on in HF, HI. unfold same_t_on in HP.
  unfold beforeWrite in H.
  destruct (finalize_spec E now w)
    as (w1 & Hfin & Htr1 & _ & Hs & _ & Ht & _ & _ & Hgp & _ & Hf).
  unfold bind at 1 in H. rewrite Hfin in H.
  assert (Hp1 : t_Players (w_t w1) = t_Players (w_t w)).
  { revert Hfin. unfold finalize, bind, update_g, update_t, get_g. simpl.
    destruct (_ >? _); intros Hw1; injection Hw1 as <-; reflexivity. }
  change (((appendDeckOrder ;; announceTimes E) ;; signalGameOver E) w1
          = Ok tt w2) in H.
  apply bind_Ok_inv in H as ([] & wc & Hc & H).
  pose proof (preserves_Ok _ _ _ _ _
                (middle_same_on
                   (fun g => (g_Turn g, g_Score g, g_DatetimeFinished g,
                              g_Players g))
                   (fun _ _ => eq_refl)) Hc) as HM.
  pose proof (preserves_Ok _ _ _ _ _ middle_players Hc) as HMp.
  pose proof (preserves_Ok _ _ _ _ _ middle_no_reveal Hc) as (lc & Hlc & HN).
  unfold same_on in HM. injection HM as HMt HMs HMd HMg.
  unfold same_t_on in HMp.
  apply signalGameOver_spec in H as [Ht2 Htr2].
  assert (Hg2 : game w2
                = set_g_Turn (wrap64 (g_Turn (game wc) + 1)) (game wc)).
  { unfold game at 1. rewrite Ht2. reflexivity. }
  split; [rewrite Hg2; simpl; congruence|].
  split; [rewrite Hg2; simpl; congruence|].
  split; [rewrite Hg2; simpl; congruence|].
  split; [exact HF|]. split; [exact HI|]. split; [exact HP|].
  exists l. split; [exact Hl|]. split; [|apply omap_silent, Hh].
  rewrite Hlc, Htr1, <- app_assoc in Htr2. rewrite Hl in Htr2.
  apply app_inv_head in Htr2. subst l.
  rewrite !omap_app, (omap_silent _ lc HN), omap_revealEvent.
  rewrite statusResets_silent by reflexivity.
  cbn [omap list_omap revealOf app]. rewrite app_nil_r.
  unfold reveals. rewrite HMg, Hgp, HMp, Hp1. reflexivity.
Qed.

Lemma recordAndConvert_success (w2 w3 : World) (n : Z) :
  WriteDatabase E w2 = Ok None w3 ->
  m_Games_GetNumSimilar (models E) (w_trace w3) (g_Seed (game w3)) = Val n ->
  recordAndConvert E w2 = Ok tt (converted E (withHistory w3 n)).
Proof.
  intros Hw Hn. unfold recordAndConvert.
  unfold bind at 1. rewrite Hw.
  unfold bind at 1. unfold get_g at 1. fold (game w3).
  unfold bind at 1. unfold models_Games_GetNumSimilar, db. rewrite Hn.
  unfold bind at 1. unfold get_t at 1. cbn [w_t].
  unfold bind at 1.
  rewrite (forEach_emit
             (fun p => Session_Emit (p_Session p) "gameHistory"
                         (GameHistoryList
                            [gameHistory (w_t w3) (game w3) n]))).
  cbn [w_t w_tables w_trace].
  rewrite ConvertToSharedReplay_spec. unfold withHistory.
  rewrite <- app_assoc. reflexivity.
Qed.

(** From a live game to the shared replay: the state in which [End]
    returns when the write and the query after it succeed. *)
Lemma End_success (now : Z) (w w2 w3 : World) (n : Z) :
  o_Replay (g_Options (game w)) = false ->
  beforeWrite E now w = Ok tt w2 ->
  WriteDatabase E w2 = Ok None w3 ->
  m_Games_GetNumSimilar (models E) (w_trace w3) (g_Seed (game w3)) = Val n ->
  End E now w = Ok tt (converted E (withHistory w3 n))
  /\ game w3 = set_g_ID (g_ID (game w3)) (game w2)
  /\ t_Players (w_t w3) = t_Players (w_t w)
  /\ m_Games_Insert (models E) (w_trace w2) (gameRow E (w_t w2) (game w2))
     = Val (g_ID (game w3))
  /\ exists l2,
       w_trace w3
       = w_trace w2 ++ Db (Games_Insert (gameRow E (w_t w2) (game w2))) :: l2
       /\ Forall isDb l2.
Proof.
  intros Hr Hb Hw Hn.
  split.
  { rewrite (End_live E now w w2 Hr Hb).
    apply recordAndConvert_success; assumption. }
  pose proof (preserves_Ok _ _ _ _ _ (WriteDatabase_only_db E) Hw)
    as (_ & _ & (l & Hl & Hdb)).
  destruct (WriteDatabase_success E w2 w3 Hw)
    as (stats & Hid & Ht & Htr & _ & _).
  destruct (beforeWrite_spec now w w2 Hb) as (_ & _ & _ & _ & _ & Hp & _).
  split; [unfold game at 1; rewrite Ht; reflexivity|].
  split; [rewrite Ht; exact Hp|].
  split; [exact Hid|].
  unfold recordCalls in Htr. cbn [map app] in Htr.
  rewrite Htr in Hl. apply app_inv_head in Hl.
  destruct l as [|e l]; [discriminate|]. injection Hl as He Hl.
  exists l. split.
  - rewrite Htr. cbn [app]. rewrite <- Hl. reflexivity.
  - inversion Hdb; assumption.
Qed.

(** X17. In a live game whose record is written and whose count of games
    on the same seed is answered, [End] returns with the turn counter
    where it was when [End] began (for a counter in the range of a 64-bit
    integer): the turn added for the finishing times is taken back by the
    conversion, the end turn of the replay is the turn count with that
    added turn, and so is the turn count of the row stored for the
    game. *)
Theorem End_turns (now : Z) (w w2 w3 : World) (n : Z) :
  o_Replay (g_Options (game w)) = false ->
  beforeWrite E now w = Ok tt w2 ->
  WriteDatabase E w2 = Ok None w3 ->
  m_Games_GetNumSimilar (models E) (w_trace w3) (g_Seed (game w3)) = Val n ->
  in_int64 (g_Turn (game w)) ->
  exists (w' : World) (row : GameRow),
    End E now w = Ok tt w'
    /\ Db (Games_Insert row) ∈ w_trace w'
    /\ gr_NumTurns row = wrap64 (g_Turn (game w) + 1)
    /\ g_EndTurn (game w') = wrap64 (g_Turn (game w) + 1)
    /\ g_Turn (game w') = g_Turn (game w).
Proof.
  intros Hr Hb Hw Hn Hin.
  destruct (End_success now w w2 w3 n Hr Hb Hw Hn)
    as (HE & Hg3 & _ & _ & (l2 & Htr & _)).
  destruct (beforeWrite_spec now w w2 Hb) as (Ht & _).
  pose proof (preserves_Ok _ _ _ _ _ (ConvertToSharedReplay_no_history)
                (ConvertToSharedReplay_spec E (withHistory w3 n)))
    as (l & Hl & _).
  assert (Hturn : g_Turn (game (withHistory w3 n))
                  = wrap64 (g_Turn (game w) + 1)).
  { unfold withHistory, game at 1. cbn [w_t]. fold (game w3).
    rewrite Hg3. simpl. exact Ht. }
  assert (Hgame : game (converted E (withHistory w3 n))
                  = set_g_Turn (wrap64 (g_Turn (game (withHistory w3 n)) - 1))
                      (set_g_EndTurn (g_Turn (game (withHistory w3 n)))
                         (game (withHistory w3 n)))).
  { unfold converted. cbv zeta.
    destruct (t_Spectators _ ++ _); [reflexivity|].
    destruct (existsb _ _); reflexivity. }
  exists (converted E (withHistory w3 n)), (gameRow E (w_t w2) (game w2)).
  split; [exact HE|]. split.
  { rewrite Hl. unfold withHistory. cbn [w_trace]. rewrite Htr.
    rewrite !elem_of_app. left. left. right. constructor. }
  split; [exact Ht|].
  rewrite Hgame, Hturn. simpl. split; [reflexivity|].
  apply wrap64_turn, Hin.
Qed.

(** X18. In a live game whose record is written and whose count of games
    on the same seed is answered, the gameHistory messages of the whole
    run of [End] are one to every player of the table, in the order of
    the table and whether or not the player has a session, all with the
    same single entry: the id that the insert of the game answered, the
    final score, the turn count with the turn added for the finishing
    times, the finish time, the answered count, and the seed, the end
    condition, the number of players and the sorted names of the
    players. *)
Theorem End_gameHistory (now : Z) (w w2 w3 : World) (n : Z) :
  o_Replay (g_Options (game w)) = false ->
  beforeWrite E now w = Ok tt w2 ->
  WriteDatabase E w2 = Ok None w3 ->
  m_Games_GetNumSimilar (models E) (w_trace w3) (g_Seed (game w3)) = Val n ->
  exists (w' : World) (l : list Event) (h : GameHistory),
    End E now w = Ok tt w'
    /\ w_trace w' = w_trace w ++ l
    /\ omap historyOf l = map (fun p => (p_Session p, [h])) (t_Players (w_t w))
    /\ m_Games_Insert (models E) (w_trace w2) (gameRow E (w_t w2) (game w2))
       = Val (gh_ID h)
    /\ gh_Score h = finalScore E (game w)
    /\ gh_NumTurns h = wrap64 (g_Turn (game w) + 1)
    /\ gh_DatetimeFinished h = now
    /\ gh_NumSimilar h = n
    /\ gh_Seed h = g_Seed (game w)
    /\ gh_EndCondition h = g_EndCondition (game w)
    /\ gh_NumPlayers h = len (g_Players (game w))
    /\ gh_PlayerNames h
       = strings_Join (sort_Strings (map p_Name (t_Players (w_t w)))) ", ".
Proof.
  intros Hr Hb Hw Hn.
  destruct (End_success now w w2 w3 n Hr Hb Hw Hn)
    as (HE & Hg3 & Hp3 & Hid & (l2 & Htr & Hdb)).
  destruct (beforeWrite_spec now w w2 Hb)
    as (Ht & Hs & Hf & HF & _ & _ & (l1 & Hl1 & _ & Hh1)).
  pose proof (preserves_Ok _ _ _ _ _ (ConvertToSharedReplay_no_history)
                (ConvertToSharedReplay_spec E (withHistory w3 n)))
    as (l4 & Hl4 & Hh4).
  unfold gameFrame in HF.
  injection HF as _ Hgp Hseed _ _ Hec _ _ _.
  exists (converted E (withHistory w3 n)),
    (l1 ++ (Db (Games_Insert (gameRow E (w_t w2) (game w2))) :: l2)
        ++ (Db (Games_GetNumSimilar (g_Seed (game w3)))
            :: map (fun p =>
                      Session_Emit (p_Session p) "gameHistory"
                        (GameHistoryList
                           [gameHistory (w_t w3) (game w3) n]))
                 (t_Players (w_t w3)))
        ++ l4),
    (gameHistory (w_t w3) (game w3) n).
  split; [exact HE|]. split.
  { rewrite Hl4. unfold withHistory. cbn [w_trace]. rewrite Htr, Hl1.
    rewrite <- !app_assoc. reflexivity. }
  split.
  { rewrite !omap_app, Hh1, (omap_silent _ l4 Hh4).
    cbn [omap list_omap historyOf].
    rewrite (omap_silent historyOf l2)
      by (apply Forall_isDb_silent; [reflexivity|exact Hdb]).
    rewrite omap_history, Hp3, app_nil_r. reflexivity. }
  unfold gameHistory. cbn. rewrite Hg3. cbn. rewrite Hp3.
  repeat split; try assumption; try congruence.
Qed.

(** X19. In a live game, whatever becomes of the write that follows, the
    reveal messages of the whole run of [End] are these and in this
    order: for each player of the game in turn whose player of the table
    is present, one message for each card of the hand, sent on the
    session of that player of the table. A player who is away is sent
    none. *)
Theorem End_reveals (now : Z) (w w2 : World) :
  o_Replay (g_Options (game w)) = false ->
  beforeWrite E now w = Ok tt w2 ->
  exists l : list Event,
    w_trace (world_of (End E now w)) = w_trace w ++ l
    /\ omap revealOf l = reveals (w_t w) (g_Players (game w)).
Proof.
  intros Hr Hb.
  destruct (beforeWrite_spec now w w2 Hb)
    as (_ & _ & _ & _ & _ & _ & (l1 & Hl1 & Hr1 & _)).
  rewrite (End_live E now w w2 Hr Hb).
  destruct (recordAndConvert_no_reveal w2) as (l2 & Hl2 & Hn2).
  exists (l1 ++ l2). split.
  - rewrite Hl2, Hl1, app_assoc. reflexivity.
  - rewrite omap_app, Hr1, (omap_silent _ l2 Hn2), app_nil_r. reflexivity.
Qed.

End Whole2.

(** ** Who is sent a direct message *)

Lemma pushOf_spectatorEvents (E : Env) (tableID gameID : Z)
    (sps : list Spectator) :
  omap pushOf (flat_map (spectatorEvents E tableID gameID) sps)
  = flat_map (spectatorPushes tableID gameID) sps.
Proof.
  induction sps as [|sp sps IH]; [reflexivity|].
  cbn [flat_map]. rewrite omap_app, IH. f_equal.
  unfold spectatorEvents, spectatorPushes.
  destruct (sp_Session sp); reflexivity.
Qed.

Lemma pushOf_history (h : GameHistory) (ps : list Player) :
  omap pushOf
    (map (fun p => Session_Emit (p_Session p) "gameHistory"
                     (GameHistoryList [h])) ps)
  = flat_map (historyPushes h) ps.
Proof.
  induction ps as [|p ps IH]; [reflexivity|].
  cbn [map flat_map omap list_omap]. unfold historyPushes at 1.
  destruct (p_Session p); cbn [pushOf app]; rewrite IH; reflexivity.
Qed.

(** The pushes of the conversion. *)
Lemma converted_pushes (E : Env) (w : World) :
  t_ID (w_t (converted E w)) = t_ID (w_t w)
  /\ g_ID (game (converted E w)) = g_ID (game w)
  /\ exists l,
       w_trace (converted E w) = w_trace w ++ l
       /\ omap pushOf l
          = flat_map (spectatorPushes (t_ID (w_t w)) (g_ID (game w)))
              (t_Spectators (w_t (converted E w))).
Proof.
  pose proof (converted_spectators E w) as Hsp. revert Hsp.
  unfold converted. cbv zeta.
  destruct (t_Spectators (w_t w) ++ _) as [|sp0 sps]; intros Hsp.
  - split; [reflexivity|]. split; [reflexivity|].
    exists []. rewrite Hsp, app_nil_r. split; reflexivity.
  - split; [destruct (existsb _ _); reflexivity|].
    split; [destruct (existsb _ _); reflexivity|].
    eexists. split; [reflexivity|]. rewrite Hsp.
    cbn [app omap list_omap pushOf].
    rewrite omap_app, pushOf_spectatorEvents. cbn [omap list_omap pushOf].
    rewrite app_nil_r. reflexivity.
Qed.

Section Direct.

Variable E : Env.

(** C10. The direct messages of the end of a game go to live sessions
    only. [ConvertToSharedReplay] always returns, and what its calls have
    pushed is, for each spectator of the table it leaves who has a live
    session, in their order: the replay-leader state, the note list and
    the databaseID message; a spectator whose session is nil is skipped.
    In a live game whose record is written and whose count of games on the
    same seed is answered, [End] returns, and what has been pushed after
    the record is the gameHistory message to each player of the table who
    has a live session, in their order, and then the pushes of the
    conversion; a player whose session is nil is skipped. *)
Theorem direct_messages_live_only :
  (forall w : World,
     exists (w' : World) (l : list Event),
       ConvertToSharedReplay E w = Ok tt w'
       /\ w_trace w' = w_trace w ++ l
       /\ omap pushOf l
          = flat_map (spectatorPushes (t_ID (w_t w')) (g_ID (game w')))
              (t_Spectators (w_t w')))
  /\ (forall (now : Z) (w w2 w3 : World) (n : Z),
        o_Replay (g_Options (game w)) = false ->
        beforeWrite E now w = Ok tt w2 ->
        WriteDatabase E w2 = Ok None w3 ->
        m_Games_GetNumSimilar (models E) (w_trace w3) (g_Seed (game w3))
        = Val n ->
        exists (w' : World) (l : list Event) (h : GameHistory),
          End E now w = Ok tt w'
          /\ w_trace w' = w_trace w3 ++ l
          /\ omap pushOf l
             = flat_map (historyPushes h) (t_Players (w_t w))
               ++ flat_map
                    (spectatorPushes (t_ID (w_t w')) (g_ID (game w')))
                    (t_Spectators (w_t w'))).
Proof.
  split.
  - intros w. destruct (converted_pushes E w) as (Ht & Hg & l & Hl & Hp).
    exists (converted E w), l. rewrite Ht, Hg.
    split; [apply ConvertToSharedReplay_spec|]. split; [exact Hl|exact Hp].
  - intros now w w2 w3 n Hr Hb Hw Hn.
    destruct (End_success E now w w2 w3 n Hr Hb Hw Hn)
      as (HE & _ & Hp3 & _ & _).
    destruct (converted_pushes E (withHistory w3 n))
      as (Ht & Hg & l & Hl & Hp).
    exists (converted E (withHistory w3 n)),
      (Db (Games_GetNumSimilar (g_Seed (game w3)))
       :: map (fun p =>
                 Session_Emit (p_Session p) "gameHistory"
                   (GameHistoryList
                      [gameHistory (w_t w3) (game w3) n]))
            (t_Players (w_t w3)) ++ l),
      (gameHistory (w_t w3) (game w3) n).
    split; [exact HE|]. split.
    + rewrite Hl. unfold withHistory. cbn [w_trace].
      rewrite <- app_assoc. reflexivity.
    + cbn [omap list_omap pushOf].
      rewrite omap_app, pushOf_history, Hp, Hp3, Ht, Hg. reflexivity.
Qed.

End Direct.

(** ** The best score that is not there *)

Section BestScoreIndex.

Variable E : Env.

(** When [WriteDatabase] returns without an error, the stats of the
    variant were updated for the players and the options the game had. *)
Lemma WriteDatabase_variant_step (w w' : World) :
  WriteDatabase E w = Ok None w' ->
  exists w9,
    updateVariantStats E w9 = Ok None w'
    /\ g_Players (game w9) = g_Players (game w)
    /\ g_Options (game w9) = g_Options (game w).
Proof.
  intros H. unfold WriteDatabase in H.
  apply bind_Ok_inv in H as (t & w0 & Ht & H). injection Ht as <- <-.
  apply bind_Ok_inv in H as (g & w0 & Hg & H). injection Hg as <- <-.
  apply bind_Ok_inv in H as (r & w1 & Hr & H).
  unfold models_Games_Insert, db in Hr. injection Hr as Hr <-.
  destruct r as [v|err]; [|discriminate].
  apply bind_Ok_inv in H as ([] & w2 & Hu & H). injection Hu as <-.
  match type of H with _ ?x = _ => set (w2 := x) in * end.
  assert (H2 : same_on (fun g => (g_Players g, g_Options g)) w w2)
    by reflexivity.
  apply check_None_inv in H as (w3 & H3 & H).
  apply (preserves_Ok (same_on (fun g => (g_Players g, g_Options g))))
    in H3; [|unfold insertParticipant, models_GameParticipants_Insert;
             preserve_with same_on_prim].
  apply check_None_inv in H as (w4 & H4 & H).
  apply (preserves_Ok (same_on (fun g => (g_Players g, g_Options g))))
    in H4; [|unfold insertNotes, models_GameParticipantNotes_Insert;
             preserve_with same_on_prim].
  apply check_None_inv in H as (w5 & H5 & H).
  apply (preserves_Ok (same_on (fun g => (g_Players g, g_Options g))))
    in H5; [|unfold insertAction, models_GameActions_Insert;
             preserve_with same_on_prim].
  apply check_None_inv in H as (w6 & H6 & H).
  apply (preserves_Ok (same_on (fun g => (g_Players g, g_Options g))))
    in H6; [|unfold insertGameOver, insertAction, models_GameActions_Insert;
             preserve_with same_on_prim].
  apply check_None_inv in H as (w7 & H7 & H).
  apply (preserves_Ok (same_on (fun g => (g_Players g, g_Options g))))
    in H7; [|unfold insertChat, models_ChatLog_Insert;
             preserve_with same_on_prim].
  apply check_None_inv in H as (w8 & H8 & H).
  apply (preserves_Ok (same_on (fun g => (g_Players g, g_Options g))))
    in H8; [|unfold insertTag, models_GameTags_Insert;
             preserve_with same_on_prim].
  apply check_None_inv in H as (w9 & H9 & H).
  apply (preserves_Ok (same_on (fun g => (g_Players g, g_Options g))))
    in H9; [|unfold updateUserStats, models_UserStats_Get,
               models_UserStats_Update;
             preserve_with same_on_prim].
  exists w9. split; [exact H|].
  unfold same_on in *.
  assert (Hall : (g_Players (game w9), g_Options (game w9))
                 = (g_Players (game w), g_Options (game w)))
    by congruence.
  injection Hall as -> ->. split; reflexivity.
Qed.

(** X20. A game played without deck plays and without empty clues is not
    recorded without an error when the stats of the variant have no best
    score at the position that is the number of players less two, which
    is so for every game of fewer than two players: [WriteDatabase] then
    returns an error or panics at the index. *)
Theorem WriteDatabase_no_best_score (w : World) :
  o_DeckPlays (g_Options (game w)) = false ->
  o_EmptyClues (g_Options (game w)) = false ->
  (forall h v stats,
     m_VariantStats_Get (models E) h v = Val stats ->
     index (vs_BestScores stats) (len (g_Players (game w)) - 2) = None) ->
  forall w', WriteDatabase E w <> Ok None w'.
Proof.
  intros Hd He Hidx w' H.
  apply WriteDatabase_variant_step in H as (w9 & H & Hp & Ho).
  unfold updateVariantStats in H.
  apply bind_Ok_inv in H as (g & w0 & Hg & H). injection Hg as <- <-.
  fold (game w9) in H. rewrite Hp, Ho, Hd, He in H.
  apply bind_Ok_inv in H as (r & w1 & Hr & H).
  unfold models_VariantStats_Get, db in Hr. injection Hr as Hr <-.
  destruct r as [stats|err]; [|discriminate].
  apply Hidx in Hr.
  apply bind_Ok_inv in H as (stats' & w1 & Hs & _).
  cbn [negb andb] in Hs.
  apply bind_Ok_inv in Hs as (b & w2 & Hb & _).
  unfold at_index in Hb. rewrite Hr in Hb. discriminate.
Qed.

End BestScoreIndex.

(** ** Runs of the samples *)

Lemma WriteDatabase_call_order_witness :
  let E := Sample.env false in
  let w' := world_of (WriteDatabase E Sample.live) in
  exists stats,
    w_trace w' = map Db (recordCalls E (w_t Sample.live) (game Sample.live) 100)
                 ++ stats
    /\ Forall isStatsCall stats.
Proof.
  intros E w'.
  destruct (WriteDatabase_call_order E Sample.live w')
    as (stats & _ & H2 & H3 & _).
  - vm_compute. reflexivity.
  - exists stats. split; [exact H2|exact H3].
Defined.

Lemma WriteDatabase_notes_witness :
  let E := Sample.env false in
  let w' := world_of (WriteDatabase E Sample.live) in
  In (Db (GameParticipantNotes_Insert 11 100 1 "a note"))
     (drop (length (w_trace Sample.live)) (w_trace w')).
Proof.
  intros E w'.
  apply (WriteDatabase_notes E Sample.live w').
  - vm_compute. reflexivity.
  - split; [reflexivity|]. split; [discriminate|].
    exists (Sample.gamePlayer "alice" 0 (-5) [Sample.card 1 2 0]),
      (Sample.player 11 "alice" true (Some (Sample.session 1))).
    split; [left; reflexivity|]. repeat split; reflexivity.
Defined.

Lemma WriteDatabase_game_row_fails_witness :
  let E := Sample.env true in
  WriteDatabase E Sample.live
  = Ok (Some "the database is down"%string)
      (add_calls Sample.live
         [Games_Insert (gameRow E (w_t Sample.live) (game Sample.live))]).
Proof.
  intros E.
  apply (WriteDatabase_game_row_fails E Sample.live "the database is down").
  reflexivity.
Defined.

Lemma WriteDatabase_best_effort_witness :
  exists w', WriteDatabase flakyEnv Sample.live = Ok None w'.
Proof.
  assert (H : exists r w', WriteDatabase flakyEnv Sample.live = Ok r w').
  { eexists _, _. vm_compute. reflexivity. }
  destruct H as (r & w' & H). exists w'.
  rewrite <- (WriteDatabase_best_effort flakyEnv Sample.live w' r); trivial.
  - intros h row. exists 100. reflexivity.
  - intros h v. eexists. reflexivity.
Defined.

Lemma WriteDatabase_unknown_character_witness :
  let E := Sample.env false in
  (forall w', WriteDatabase E unknownCharacter <> Ok None w')
  /\ exists l,
       w_trace (world_of (WriteDatabase E unknownCharacter))
       = w_trace unknownCharacter ++ l
       /\ Forall isRecordCall l.
Proof.
  intros E.
  apply (WriteDatabase_unknown_character E unknownCharacter
           {| gp_Name := "alice"; gp_Index := 0; gp_Time := -5;
              gp_Hand := []; gp_Notes := [];
              gp_Character := "Genius"; gp_CharacterMetadata := 0 |}).
  - reflexivity.
  - left. reflexivity.
  - discriminate.
  - reflexivity.
Defined.

Lemma ConvertToSharedReplay_spectators_witness :
  exists w',
    ConvertToSharedReplay (Sample.env false) Sample.live = Ok tt w'
    /\ map sp_Name (t_Spectators (w_t w')) = ["alice"%string].
Proof.
  destruct (ConvertToSharedReplay_spectators (Sample.env false) Sample.live)
    as (w' & H1 & H2).
  - vm_compute. discriminate.
  - exists w'. split; [exact H1|]. rewrite H2. reflexivity.
Defined.

Lemma ConvertToSharedReplay_owner_kept_witness :
  exists w',
    ConvertToSharedReplay (Sample.env false) Sample.live = Ok tt w'
    /\ t_Owner (w_t w') = 11.
Proof.
  destruct (ConvertToSharedReplay_owner_kept (Sample.env false) Sample.live)
    as (w' & H1 & H2).
  - intros p [<-|[<-|[]]] Hp.
    + left. reflexivity.
    + discriminate Hp.
  - exists w'. split; [exact H1|exact H2].
Defined.

Lemma ConvertToSharedReplay_first_present_witness :
  exists w',
    ConvertToSharedReplay (Sample.env false) ownerGone = Ok tt w'
    /\ t_Owner (w_t w') = 12.
Proof.
  destruct (ConvertToSharedReplay_first_present (Sample.env false) ownerGone
              (Sample.player 12 "bob" true (Some (Sample.session 2))))
    as (w' & H1 & H2).
  - reflexivity.
  - vm_compute. discriminate.
  - reflexivity.
  - reflexivity.
  - vm_compute. discriminate.
  - exists w'. split; [exact H1|exact H2].
Defined.

Lemma End_turns_witness :
  let E := Sample.env false in
  exists w',
    End E 5000 Sample.live = Ok tt w'
    /\ g_EndTurn (game w') = 11
    /\ g_Turn (game w') = 10.
Proof.
  intros E.
  destruct (End_turns E 5000 Sample.live
              (world_of (beforeWrite E 5000 Sample.live))
              (world_of (WriteDatabase E
                           (world_of (beforeWrite E 5000 Sample.live))))
              1)
    as (w' & row & H1 & _ & _ & H4 & H5).
  - reflexivity.
  - vm_compute. reflexivity.
  - vm_compute. reflexivity.
  - reflexivity.
  - vm_compute. split; discriminate.
  - exists w'. split; [exact H1|]. split; [exact H4|exact H5].
Defined.

Lemma End_gameHistory_witness :
  let E := Sample.env false in
  exists w' l h,
    End E 5000 Sample.live = Ok tt w'
    /\ w_trace w' = l
    /\ omap historyOf l
       = [(Some (Sample.session 1), [h]); (None, [h])]
    /\ gh_ID h = 100
    /\ gh_Score h = 20
    /\ gh_PlayerNames h = "alice, bob"%string.
Proof.
  intros E.
  destruct (End_gameHistory E 5000 Sample.live
              (world_of (beforeWrite E 5000 Sample.live))
              (world_of (WriteDatabase E
                           (world_of (beforeWrite E 5000 Sample.live))))
              1)
    as (w' & l & h & H1 & H2 & H3 & H4 & H5 & _ & _ & _ & _ & _ & _ & H12).
  - reflexivity.
  - vm_compute. reflexivity.
  - vm_compute. reflexivity.
  - reflexivity.
  - exists w', l, h. split; [exact H1|]. split; [exact H2|].
    split; [exact H3|]. split.
    + injection H4 as H4. symmetry. exact H4.
    + split; [rewrite H5; reflexivity|]. rewrite H12. vm_compute. reflexivity.
Defined.

Lemma End_reveals_witness :
  let E := Sample.env false in
  exists l,
    w_trace (world_of (End E 5000 Sample.live)) = l
    /\ omap revealOf l = [(Some (Sample.session 1), Sample.card 1 2 0)].
Proof.
  intros E.
  destruct (End_reveals E 5000 Sample.live
              (world_of (beforeWrite E 5000 Sample.live)))
    as (l & H1 & H2).
  - reflexivity.
  - vm_compute. reflexivity.
  - exists l. split; [exact H1|exact H2].
Defined.

Lemma WriteDatabase_no_best_score_witness :
  match WriteDatabase (Sample.env false) solo with
  | Ok None _ => False
  | _ => True
  end.
Proof.
  destruct (WriteDatabase (Sample.env false) solo) as [[err|] w'|w'] eqn:H;
    [exact I| |exact I].
  apply (WriteDatabase_no_best_score (Sample.env false) solo) with (w' := w').
  - reflexivity.
  - reflexivity.
  - intros h v stats _. reflexivity.
  - exact H.
Defined.

Lemma direct_messages_live_only_witness :
  let E := Sample.env false in
  (exists w',
     ConvertToSharedReplay E Sample.nilSpectator = Ok tt w'
     /\ map sp_Name (t_Spectators (w_t w')) = ["dave"; "alice"]%string
     /\ omap pushOf (w_trace w')
        = [PushReplayLeader (Sample.session 1) 7 false;
           PushNoteList (Sample.session 1) 7;
           PushEmit (Sample.session 1) "databaseID" (IDMessage 7 0)])
  /\ (exists w' l h,
        End E 5000 Sample.live = Ok tt w'
        /\ map p_Name (t_Players (w_t Sample.live)) = ["alice"; "bob"]%string
        /\ omap pushOf l
           = [PushEmit (Sample.session 1) "gameHistory" (GameHistoryList [h]);
              PushReplayLeader (Sample.session 1) 7 false;
              PushNoteList (Sample.session 1) 7;
              PushEmit (Sample.session 1) "databaseID" (IDMessage 7 100)]).
Proof.
  intros E. destruct (direct_messages_live_only E) as [Hc He]. split.
  - destruct (Hc Sample.nilSpectator) as (w' & l & H1 & H2 & H3).
    exists w'. split; [exact H1|].
    assert (Hw : w' = world_of (ConvertToSharedReplay E Sample.nilSpectator))
      by (rewrite H1; reflexivity).
    split; [rewrite Hw; vm_compute; reflexivity|].
    rewrite H2. cbn [w_trace Sample.nilSpectator Sample.world_of_table app].
    rewrite H3, Hw. vm_compute. reflexivity.
  - destruct (He 5000 Sample.live
                (world_of (beforeWrite E 5000 Sample.live))
                (world_of (WriteDatabase E
                             (world_of (beforeWrite E 5000 Sample.live))))
                1)
      as (w' & l & h & H1 & H2 & H3).
    + reflexivity.
    + vm_compute. reflexivity.
    + vm_compute. reflexivity.
    + reflexivity.
    + exists w', l, h. split; [exact H1|]. split; [reflexivity|].
      assert (Hw : w' = world_of (End E 5000 Sample.live))
        by (rewrite H1; reflexivity).
      rewrite H3, Hw. vm_compute. reflexivity.
Defined.

Lemma WriteDatabase_user_best_score_witness :
  let E := Sample.env false in
  exists w',
    WriteDatabase E Sample.live = Ok None w'
    /\ omap (fun e => match e with
                      | Db (UserStats_Update userID _ stats) =>
                          Some (userID, index (us_BestScores stats) 0)
                      | _ => None
                      end) (w_trace w')
       = [(11, Some {| bs_Score := 20; bs_Modifier := 0 |});
          (12, Some {| bs_Score := 20; bs_Modifier := 0 |})].
Proof.
  intros E.
  assert (H : WriteDatabase E Sample.live
              = Ok None (world_of (WriteDatabase E Sample.live)))
    by (vm_compute; reflexivity).
  destruct (WriteDatabase_user_best_score E Sample.live _ H)
    as (rounds & stats' & H1 & H2 & _).
  exists (world_of (WriteDatabase E Sample.live)). split; [exact H|].
  rewrite H2. vm_compute in H1. injection H1 as <-.
  vm_compute. reflexivity.
Defined.
